(** * Speech-to-sign aid: the matching logic of [app.py]

    A shallow embedding of the vocabulary table, the local matcher
    [local_match_signs], the remote matcher wrapper [gemini_match_signs],
    the media enrichment step [add_video_urls_to_signs] and the request
    handler [match_signs] of [src/app.py], followed by the properties
    established about them.

    Python values are modelled as follows.
    - [str] is [string]; a character [ascii] stands for the Unicode code
      point of the same number, so the model covers text whose code points
      are below 256.  [isspace], [isalpha] and [lower] follow Python's
      tables on that range.
    - the insertion-ordered dict [SIGN_VOCABULARY] is an association list in
      declaration order; the set [matched_words] is a [gset string].
    - the float literals [1.0], [0.85], [0.5], [0.8] are only ever copied
      into results, never computed with, and are written as the rationals
      they denote.
    - values decoded from JSON are the inductive type [json]. *)

From Stdlib Require Import NArith QArith Ascii String.
From stdpp Require Import gmap strings list.

#[local] Set Warnings "-clear-no-such-hyp".

Local Open Scope string_scope.
Local Open Scope list_scope.

(** ** Characters and strings *)

Module Py.

Definition code (c : ascii) : N := N_of_ascii c.

Definition between (lo hi : N) (c : ascii) : bool :=
  ((lo <=? code c) && (code c <=? hi))%N.

(** [str.isspace] for one character: TAB, LF, VT, FF, CR, the four
    separators FS..US, space, NEL and the no-break space. *)
Definition isspace (c : ascii) : bool :=
  between 9 13 c || between 28 32 c
  || (code c =? 133)%N || (code c =? 160)%N.

Definition isupper (c : ascii) : bool :=
  between 65 90 c || between 192 214 c || between 216 222 c.

(** [str.isalpha] for one character: the ASCII letters and the Latin-1
    letters (feminine and masculine ordinal, micro sign, and
    U+00C0..U+00FF without the multiplication and division signs). *)
Definition isalpha (c : ascii) : bool :=
  between 65 90 c || between 97 122 c
  || (code c =? 170)%N || (code c =? 181)%N || (code c =? 186)%N
  || between 192 214 c || between 216 246 c || between 248 255 c.

(** The class [[A-Za-z0-9]] of the regular expression in [match_signs]. *)
Definition isalnum_ascii (c : ascii) : bool :=
  between 65 90 c || between 97 122 c || between 48 57 c.

Definition lower_char (c : ascii) : ascii :=
  if isupper c then ascii_of_N (code c + 32) else c.

Fixpoint map_chars (f : ascii -> ascii) (s : string) : string :=
  match s with
  | EmptyString => EmptyString
  | String c s' => String (f c) (map_chars f s')
  end.

(** [s.lower()] *)
Definition lower (s : string) : string := map_chars lower_char s.

(** [s.replace(old, new)] for one-character [old] and [new]. *)
Definition replace (old new : ascii) (s : string) : string :=
  map_chars (fun c => if Ascii.eqb c old then new else c) s.

Definition snoc (s : string) (c : ascii) : string :=
  s +:+ String c EmptyString.

Definition emit (cur : string) (rest : list string) : list string :=
  if String.eqb cur "" then rest else cur :: rest.

(** The scan of [s.split()]: [cur] is the token being read. *)
Fixpoint split_from (cur : string) (s : string) : list string :=
  match s with
  | EmptyString => emit cur []
  | String c s' =>
      if isspace c then emit cur (split_from "" s')
      else split_from (snoc cur c) s'
  end.

(** [s.split()]: the maximal runs of non-whitespace characters. *)
Definition split (s : string) : list string := split_from "" s.

(** [s.split(sep)] for a one-character separator: empty pieces are kept. *)
Fixpoint split_on_from (sep : ascii) (cur : string) (s : string) : list string :=
  match s with
  | EmptyString => [cur]
  | String c s' =>
      if Ascii.eqb c sep then cur :: split_on_from sep "" s'
      else split_on_from sep (snoc cur c) s'
  end.

Definition split_on (sep : ascii) (s : string) : list string :=
  split_on_from sep "" s.

(** [sep.join(pieces)] *)
Fixpoint join (sep : string) (pieces : list string) : string :=
  match pieces with
  | [] => ""
  | [p] => p
  | p :: ps => p +:+ sep +:+ join sep ps
  end.

Fixpoint lstrip (s : string) : string :=
  match s with
  | EmptyString => EmptyString
  | String c s' => if isspace c then lstrip s' else s
  end.

Fixpoint rstrip (s : string) : string :=
  match s with
  | EmptyString => EmptyString
  | String c s' =>
      match rstrip s' with
      | EmptyString => if isspace c then EmptyString else String c EmptyString
      | r => String c r
      end
  end.

(** [s.strip()] *)
Definition strip (s : string) : string := rstrip (lstrip s).

(** [s[:n]] *)
Fixpoint take (n : nat) (s : string) : string :=
  match n, s with
  | S n', String c s' => String c (take n' s')
  | _, _ => EmptyString
  end.

(** [s.startswith(p)] *)
Fixpoint startswith (p s : string) : bool :=
  match p, s with
  | EmptyString, _ => true
  | String a p', String b s' => Ascii.eqb a b && startswith p' s'
  | String _ _, EmptyString => false
  end.

(** [needle in hay] on strings: substring search. *)
Fixpoint contains (needle hay : string) : bool :=
  startswith needle hay
  || match hay with
     | EmptyString => false
     | String _ hay' => contains needle hay'
     end.

(** [c in s] for a character [c]. *)
Fixpoint has_char (c : ascii) (s : string) : bool :=
  match s with
  | EmptyString => false
  | String a s' => Ascii.eqb a c || has_char c s'
  end.

(** [[c for c in s if pred(c)]] *)
Fixpoint chars_where (pred : ascii -> bool) (s : string) : list ascii :=
  match s with
  | EmptyString => []
  | String c s' =>
      if pred c then c :: chars_where pred s' else chars_where pred s'
  end.

(** [x in xs] on a list of strings. *)
Definition mem (x : string) (xs : list string) : bool :=
  existsb (String.eqb x) xs.

End Py.

(** ** Data model *)

(** An entry of the vocabulary ([SignData]).  The two animation fields are
    optional keys of the dict. *)
Record SignData := mkSignData {
  word : string;
  category : string;
  synonyms : list string;
  description : string;
  animation_type : option string;
  animation_data : option (list (string * string));
}.

(** ** The vocabulary table

    [SIGN_VOCABULARY], entry by entry in the order of the dict literal. *)
Definition SIGN_VOCABULARY : list (string * SignData) :=
  [
    ("hello",
     mkSignData "hello" "greetings"
       ["hi"; "hey"; "greetings"]
       "Wave hand near face" (Some "css") (Some [("class", "wave-animation")]));
    ("goodbye",
     mkSignData "goodbye" "greetings"
       ["bye"; "farewell"; "see you"; "later"]
       "Wave hand away from body" None None);
    ("thank you",
     mkSignData "thank you" "greetings"
       ["thanks"; "appreciate"; "grateful"]
       "Hand moves from chin outward" None None);
    ("please",
     mkSignData "please" "greetings"
       ["kindly"]
       "Circular motion on chest" None None);
    ("sorry",
     mkSignData "sorry" "greetings"
       ["apologize"; "apologies"; "my bad"]
       "Fist circles on chest" None None);
    ("good morning",
     mkSignData "good morning" "greetings"
       ["morning"]
       "Point to sky then wave" None None);
    ("good afternoon",
     mkSignData "good afternoon" "greetings"
       ["afternoon"]
       "Point to sun then wave" None None);
    ("good evening",
     mkSignData "good evening" "greetings"
       ["evening"]
       "Point to horizon then wave" None None);
    ("good night",
     mkSignData "good night" "greetings"
       ["night"; "sleep well"]
       "Rest head on hands" None None);
    ("nice to meet you",
     mkSignData "nice to meet you" "greetings"
       ["pleased to meet you"]
       "Shake hands gesture" None None);
    ("how are you",
     mkSignData "how are you" "greetings"
       ["how do you do"; "how's it going"]
       "Point to self then others" None None);
    ("i'm fine",
     mkSignData "i'm fine" "greetings"
       ["i'm good"; "i'm well"; "i'm okay"]
       "Thumbs up with smile gesture" None None);
    ("have a good day",
     mkSignData "have a good day" "greetings"
       ["have a nice day"]
       "Wave with both hands" None None);
    ("yes",
     mkSignData "yes" "responses"
       ["yeah"; "yep"; "correct"; "right"; "affirmative"; "okay"; "ok"]
       "Fist nods up and down" None None);
    ("no",
     mkSignData "no" "responses"
       ["nope"; "negative"; "wrong"; "incorrect"]
       "Two fingers close to thumb" None None);
    ("maybe",
     mkSignData "maybe" "responses"
       ["perhaps"; "possibly"; "might"]
       "Hands alternate up and down" None None);
    ("understand",
     mkSignData "understand" "responses"
       ["get it"; "comprehend"; "got it"; "clear"; "makes sense"]
       "Index finger flicks up near forehead" None None);
    ("confused",
     mkSignData "confused" "responses"
       ["don't understand"; "unclear"; "lost"; "puzzled"]
       "Curved fingers alternate near forehead" None None);
    ("i know",
     mkSignData "i know" "responses"
       ["i understand"; "got it"]
       "Tap forehead with index finger" None None);
    ("i don't know",
     mkSignData "i don't know" "responses"
       ["not sure"; "uncertain"]
       "Shrug shoulders with palms up" None None);
    ("wait",
     mkSignData "wait" "responses"
       ["hold on"; "just a moment"]
       "Palm facing out, fingers spread" None None);
    ("question",
     mkSignData "question" "actions"
       ["ask"; "query"; "inquire"]
       "Index finger draws question mark" None None);
    ("answer",
     mkSignData "answer" "actions"
       ["reply"; "respond"; "response"]
       "Index fingers point outward from mouth" None None);
    ("help",
     mkSignData "help" "actions"
       ["assist"; "aid"; "support"]
       "Thumbs up on flat palm, lift up" None None);
    ("repeat",
     mkSignData "repeat" "actions"
       ["again"; "say again"; "one more time"]
       "Curved hand flips over" None None);
    ("stop",
     mkSignData "stop" "actions"
       ["wait"; "hold"; "pause"; "halt"]
       "Flat hand strikes palm" None None);
    ("start",
     mkSignData "start" "actions"
       ["begin"; "go"; "commence"]
       "Index finger twists between fingers" None None);
    ("finish",
     mkSignData "finish" "actions"
       ["done"; "complete"; "end"; "finished"; "over"]
       "Open hands flip outward" None None);
    ("read",
     mkSignData "read" "actions"
       ["reading"]
       "Two fingers scan across palm" None None);
    ("write",
     mkSignData "write" "actions"
       ["writing"; "note"]
       "Pinched fingers write on palm" None None);
    ("listen",
     mkSignData "listen" "actions"
       ["hear"; "hearing"; "listening"]
       "Cupped hand to ear" None None);
    ("speak",
     mkSignData "speak" "actions"
       ["talk"; "say"; "tell"; "talking"; "speaking"]
       "Four fingers tap from chin" None None);
    ("think",
     mkSignData "think" "actions"
       ["thinking"; "consider"; "thought"]
       "Index finger circles at temple" None None);
    ("learn",
     mkSignData "learn" "actions"
       ["study"; "learning"; "studying"]
       "Fingers pull from palm to forehead" None None);
    ("teach",
     mkSignData "teach" "actions"
       ["teaching"; "instruct"; "explain"]
       "Both hands pull from forehead outward" None None);
    ("work",
     mkSignData "work" "actions"
       ["working"; "job"]
       "Fists alternate pounding" None None);
    ("play",
     mkSignData "play" "actions"
       ["playing"; "fun"]
       "Fingers wiggle like playing" None None);
    ("eat",
     mkSignData "eat" "actions"
       ["eating"; "food"]
       "Hand to mouth" None None);
    ("drink",
     mkSignData "drink" "actions"
       ["drinking"]
       "Tilt hand to mouth" None None);
    ("sleep",
     mkSignData "sleep" "actions"
       ["sleeping"; "rest"]
       "Rest head on hands" None None);
    ("walk",
     mkSignData "walk" "actions"
       ["walking"]
       "Two fingers walk on other hand" None None);
    ("run",
     mkSignData "run" "actions"
       ["running"]
       "Fingers run quickly" None None);
    ("teacher",
     mkSignData "teacher" "nouns"
       ["instructor"; "professor"; "educator"]
       "Teach sign plus person marker" None None);
    ("student",
     mkSignData "student" "nouns"
       ["learner"; "pupil"]
       "Learn sign plus person marker" None None);
    ("person",
     mkSignData "person" "nouns"
       ["people"; "individual"; "someone"]
       "Point to person" None None);
    ("man",
     mkSignData "man" "nouns"
       ["male"; "guy"; "boy"]
       "Flat hand strikes forehead" None None);
    ("woman",
     mkSignData "woman" "nouns"
       ["female"; "lady"; "girl"]
       "Brush hair back" None None);
    ("child",
     mkSignData "child" "nouns"
       ["kid"; "children"; "baby"]
       "Small height gesture" None None);
    ("friend",
     mkSignData "friend" "nouns"
       ["buddy"; "pal"]
       "Hook fingers together" None None);
    ("family",
     mkSignData "family" "nouns"
       ["relatives"]
       "F hands circle together" None None);
    ("mother",
     mkSignData "mother" "nouns"
       ["mom"; "mama"]
       "Thumb brushes chin" None None);
    ("father",
     mkSignData "father" "nouns"
       ["dad"; "papa"]
       "F hand strikes forehead" None None);
    ("brother",
     mkSignData "brother" "nouns"
       ["bro"]
       "B hand strikes forehead" None None);
    ("sister",
     mkSignData "sister" "nouns"
       ["sis"]
       "S hand brushes chin" None None);
    ("home",
     mkSignData "home" "nouns"
       ["house"]
       "Fingers form roof over head" None None);
    ("school",
     mkSignData "school" "nouns"
       ["classroom"]
       "C hands circle outward" None None);
    ("class",
     mkSignData "class" "nouns"
       ["classroom"; "course"; "lesson"]
       "C hands circle outward" None None);
    ("bathroom",
     mkSignData "bathroom" "nouns"
       ["restroom"; "toilet"]
       "T hand waves" None None);
    ("kitchen",
     mkSignData "kitchen" "nouns"
       ["cook"]
       "Stir motion" None None);
    ("bedroom",
     mkSignData "bedroom" "nouns"
       ["bed"]
       "Rest head on hands" None None);
    ("book",
     mkSignData "book" "nouns"
       ["textbook"]
       "Palms open like book" None None);
    ("paper",
     mkSignData "paper" "nouns"
       ["document"; "sheet"]
       "Palms brush together twice" None None);
    ("test",
     mkSignData "test" "nouns"
       ["exam"; "quiz"; "examination"]
       "X hands pull down and open" None None);
    ("homework",
     mkSignData "homework" "nouns"
       ["assignment"; "work"]
       "Home sign plus work sign" None None);
    ("computer",
     mkSignData "computer" "nouns"
       ["laptop"; "pc"]
       "Type on keyboard" None None);
    ("phone",
     mkSignData "phone" "nouns"
       ["telephone"; "cell phone"]
       "Hand to ear like phone" None None);
    ("table",
     mkSignData "table" "nouns"
       ["desk"]
       "Flat hand horizontal" None None);
    ("chair",
     mkSignData "chair" "nouns"
       ["seat"]
       "Sit down gesture" None None);
    ("door",
     mkSignData "door" "nouns"
       ["entrance"]
       "Open door motion" None None);
    ("window",
     mkSignData "window" "nouns"
       ["glass"]
       "Square window frame" None None);
    ("water",
     mkSignData "water" "nouns"
       ["drink"]
       "W hand waves" None None);
    ("food",
     mkSignData "food" "nouns"
       ["eat"]
       "Hand to mouth" None None);
    ("money",
     mkSignData "money" "nouns"
       ["cash"; "dollar"]
       "Rub thumb and fingers" None None);
    ("time",
     mkSignData "time" "nouns"
       ["clock"; "hour"]
       "Point to watch" None None);
    ("day",
     mkSignData "day" "nouns"
       ["today"]
       "Circle overhead" None None);
    ("night",
     mkSignData "night" "nouns"
       ["dark"]
       "Rest head on hands" None None);
    ("good",
     mkSignData "good" "descriptors"
       ["great"; "nice"; "well"; "excellent"; "fine"]
       "Flat hand from chin to palm" None None);
    ("bad",
     mkSignData "bad" "descriptors"
       ["poor"; "terrible"; "awful"; "wrong"]
       "Flat hand from chin flips down" None None);
    ("easy",
     mkSignData "easy" "descriptors"
       ["simple"; "not hard"]
       "Curved fingers brush upward" None None);
    ("hard",
     mkSignData "hard" "descriptors"
       ["difficult"; "tough"; "challenging"]
       "Bent V hands knock together" None None);
    ("fast",
     mkSignData "fast" "descriptors"
       ["quick"; "quickly"; "rapid"; "speed"]
       "L hands pull back quickly" None None);
    ("slow",
     mkSignData "slow" "descriptors"
       ["slowly"; "slower"]
       "Hand drags up back of hand" None None);
    ("important",
     mkSignData "important" "descriptors"
       ["significant"; "key"; "critical"; "essential"]
       "F hands circle up to center" None None);
    ("big",
     mkSignData "big" "descriptors"
       ["large"; "huge"]
       "Hands spread apart" None None);
    ("small",
     mkSignData "small" "descriptors"
       ["little"; "tiny"]
       "Pinch fingers close" None None);
    ("hot",
     mkSignData "hot" "descriptors"
       ["warm"; "heat"]
       "Wipe brow" None None);
    ("cold",
     mkSignData "cold" "descriptors"
       ["cool"; "freezing"]
       "Shiver motion" None None);
    ("happy",
     mkSignData "happy" "descriptors"
       ["glad"; "joyful"]
       "Smile with hands" None None);
    ("sad",
     mkSignData "sad" "descriptors"
       ["unhappy"; "sorry"]
       "Frown with hands" None None);
    ("tired",
     mkSignData "tired" "descriptors"
       ["sleepy"; "exhausted"]
       "Rest head on hands" None None);
    ("hungry",
     mkSignData "hungry" "descriptors"
       ["starving"]
       "Hand to stomach" None None);
    ("thirsty",
     mkSignData "thirsty" "descriptors"
       ["dry"]
       "Hand to mouth like drinking" None None);
    ("what",
     mkSignData "what" "questions"
       []
       "Index finger brushes across palm" None None);
    ("where",
     mkSignData "where" "questions"
       []
       "Index finger waves side to side" None None);
    ("when",
     mkSignData "when" "questions"
       []
       "Index finger circles then touches" None None);
    ("why",
     mkSignData "why" "questions"
       []
       "Fingers touch forehead, pull to Y" None None);
    ("how",
     mkSignData "how" "questions"
       []
       "Knuckles roll outward and open" None None);
    ("who",
     mkSignData "who" "questions"
       []
       "Index finger circles at lips" None None);
    ("which",
     mkSignData "which" "questions"
       ["what one"]
       "Point between options" None None);
    ("one",
     mkSignData "one" "numbers"
       ["1"]
       "Index finger up" None None);
    ("two",
     mkSignData "two" "numbers"
       ["2"]
       "Index and middle fingers up" None None);
    ("three",
     mkSignData "three" "numbers"
       ["3"]
       "Three fingers up" None None);
    ("four",
     mkSignData "four" "numbers"
       ["4"]
       "Four fingers up" None None);
    ("five",
     mkSignData "five" "numbers"
       ["5"]
       "Five fingers up" None None);
    ("ten",
     mkSignData "ten" "numbers"
       ["10"]
       "Cross fists" None None);
    ("red",
     mkSignData "red" "colors"
       []
       "R hand waves" None None);
    ("blue",
     mkSignData "blue" "colors"
       []
       "B hand waves" None None);
    ("green",
     mkSignData "green" "colors"
       []
       "G hand waves" None None);
    ("yellow",
     mkSignData "yellow" "colors"
       []
       "Y hand waves" None None);
    ("black",
     mkSignData "black" "colors"
       ["dark"]
       "Brush hair back" None None);
    ("white",
     mkSignData "white" "colors"
       ["light"]
       "Brush palm" None None);
    ("i love you",
     mkSignData "i love you" "phrases"
       ["love you"]
       "I-L-Y fingers" None None);
    ("what's up",
     mkSignData "what's up" "phrases"
       ["sup"; "how's it going"]
       "Wiggle fingers up" None None);
    ("see you later",
     mkSignData "see you later" "phrases"
       ["bye"; "later"]
       "Wave with both hands" None None);
    ("take care",
     mkSignData "take care" "phrases"
       ["be careful"]
       "Pat heart" None None);
    ("excuse me",
     mkSignData "excuse me" "phrases"
       ["pardon"]
       "Wave hand" None None);
    ("i'm sorry",
     mkSignData "i'm sorry" "phrases"
       ["sorry"; "my apologies"]
       "Fist circles on chest" None None);
    ("no problem",
     mkSignData "no problem" "phrases"
       ["that's fine"; "okay"]
       "Brush off shoulder" None None);
    ("you're welcome",
     mkSignData "you're welcome" "phrases"
       ["welcome"]
       "Open hands outward" None None)
  ].

(** Values decoded from JSON, as [json.loads] and [request.get_json]
    return them.  An object is the list of its members in order; its keys
    are distinct, as in the dict it stands for. *)
#[warnings="-register-all"]
Inductive json :=
  | JNull
  | JBool (b : bool)
  | JInt (z : Z)
  | JFloat (q : Q)
  | JStr (s : string)
  | JArr (items : list json)
  | JObj (members : list (string * json)).

(** An element of the returned [signs] list: the fields of a vocabulary
    entry (spread with [**sign_data], or written out for a fingerspelled
    entry), [confidence] and [matched_from], [letters] for fingerspelled
    entries, and the two keys the enrichment step may add.  [confidence]
    and [matched_from] are [json] values because the remote matcher copies
    them unchecked from the decoded reply. *)
Record MatchResult := mkMatchResult {
  sign : SignData;
  letters : option (list ascii);
  confidence : json;
  matched_from : json;
  video_url : option string;
  letter_videos : option (list (option string));
}.

(** The dict literal built for a vocabulary entry:
    [{**sign_data, "confidence": conf, "matched_from": from}]. *)
Definition vocabulary_match (sign_data : SignData) (conf : json) (from : json)
  : MatchResult :=
  {| sign := sign_data; letters := None;
     confidence := conf; matched_from := from;
     video_url := None; letter_videos := None |}.

(** The dict literal built for a fingerspelled word. *)
Definition fingerspelled (w : string) (ls : list ascii) (conf : Q)
  : MatchResult :=
  {| sign := {| word := w; category := "fingerspelled"; synonyms := [];
                description := "Finger-spell the word '" +:+ w +:+ "'";
                animation_type := None; animation_data := None |};
     letters := Some ls;
     confidence := JFloat conf; matched_from := JStr w;
     video_url := None; letter_videos := None |}.

(** ** The local matcher *)

(** [key in SIGN_VOCABULARY] and [SIGN_VOCABULARY[key]]. *)
Definition vocabulary_get (key : string) : option SignData :=
  snd <$> find (fun item => String.eqb (fst item) key) SIGN_VOCABULARY.

(** The synonym loop with its [break]: the first entry, in table order,
    whose synonym list holds the token. *)
Definition first_with_synonym (tok : string) : option (string * SignData) :=
  find (fun item => Py.mem tok (synonyms (snd item))) SIGN_VOCABULARY.

(** The loop state: [matched_signs] and [matched_words]. *)
Definition MatchState : Type := list MatchResult * gset string.

(** Body of the first loop, over the items of the vocabulary. *)
Definition phrase_step (text_lower : string) (st : MatchState)
    (item : string * SignData) : MatchState :=
  let '(matched_signs, matched_words) := st in
  let '(sign_word, sign_data) := item in
  if Py.has_char " " sign_word
     && Py.contains sign_word text_lower
     && negb (bool_decide (sign_word ∈ matched_words))
  then (matched_signs ++ [vocabulary_match sign_data (JFloat 1.0) (JStr sign_word)],
        matched_words ∪ {[sign_word]})
  else st.

(** Body of the second loop, over the tokens. *)
Definition word_step (st : MatchState) (tok : string) : MatchState :=
  let '(matched_signs, matched_words) := st in
  if bool_decide (tok ∈ matched_words) then st
  else
    match vocabulary_get tok with
    | Some sign_data =>
        (matched_signs ++ [vocabulary_match sign_data (JFloat 1.0) (JStr tok)],
         matched_words ∪ {[tok]})
    | None =>
        match first_with_synonym tok with
        | Some (_, sign_data) =>
            (matched_signs
               ++ [vocabulary_match sign_data (JFloat 0.85) (JStr tok)],
             matched_words ∪ {[tok]})
        | None => st
        end
    end.

(** Body of the third loop, over the tokens again. *)
Definition fingerspell_step (st : MatchState) (tok : string) : MatchState :=
  let '(matched_signs, matched_words) := st in
  if String.eqb tok "" || bool_decide (tok ∈ matched_words) then st
  else
    match Py.chars_where Py.isalpha tok with
    | [] => st
    | ls => (matched_signs ++ [fingerspelled tok ls 0.5],
             matched_words ∪ {[tok]})
    end.

(** [words]: the four separators become spaces, then [split()]. *)
Definition tokens (text_lower : string) : list string :=
  Py.split
    (Py.replace "!" " "
       (Py.replace "?" " "
          (Py.replace "." " "
             (Py.replace "," " " text_lower)))).

(** The state after each of the three loops. *)
Definition after_phrases (text : string) : MatchState :=
  fold_left (phrase_step (Py.lower text)) SIGN_VOCABULARY ([], ∅).

Definition after_words (text : string) : MatchState :=
  fold_left word_step (tokens (Py.lower text)) (after_phrases text).

Definition after_fingerspell (text : string) : MatchState :=
  fold_left fingerspell_step (tokens (Py.lower text)) (after_words text).

(** [local_match_signs(text)]: the returned [matched_signs]. *)
Definition local_match_signs (text : string) : list MatchResult :=
  fst (after_fingerspell text).


(** ** Decoded JSON values as Python objects *)

(** [d.get(key)] on a dict; [None] when the key is absent. *)
Fixpoint dict_get (key : string) (members : list (string * json)) : option json :=
  match members with
  | [] => None
  | (k, v) :: rest => if String.eqb k key then Some v else dict_get key rest
  end.

(** [d.get(key, dflt)] *)
Definition dict_get_default (key : string) (dflt : json)
    (members : list (string * json)) : json :=
  match dict_get key members with
  | Some v => v
  | None => dflt
  end.

(** [bool(v)] *)
Definition truthy (v : json) : bool :=
  match v with
  | JNull => false
  | JBool b => b
  | JInt z => negb (z =? 0)%Z
  | JFloat q => negb (Qeq_bool q 0)
  | JStr s => negb (String.eqb s "")
  | JArr items => match items with [] => false | _ => true end
  | JObj members => match members with [] => false | _ => true end
  end.

(** [type(v).__name__], as it shows in the text of an exception. *)
Definition type_name (v : json) : string :=
  match v with
  | JNull => "NoneType"
  | JBool _ => "bool"
  | JInt _ => "int"
  | JFloat _ => "float"
  | JStr _ => "str"
  | JArr _ => "list"
  | JObj _ => "dict"
  end.

(** The two exception classes the [try] block of [gemini_match_signs]
    tells apart, with [str(e)]. *)
Inductive exn :=
  | JSONDecodeError (msg : string)
  | OtherException (msg : string).

Definition AttributeError (v : json) (attr : string) : exn :=
  OtherException
    ("'" +:+ type_name v +:+ "' object has no attribute '" +:+ attr +:+ "'").

Definition TypeError_not_iterable (v : json) : exn :=
  OtherException ("'" +:+ type_name v +:+ "' object is not iterable").

(** Code that may raise: the exception, or the value. *)
Definition raising (A : Type) : Type := exn + A.

Definition bind_raising {A B : Type} (x : raising A) (k : A -> raising B)
  : raising B :=
  match x with
  | inl e => inl e
  | inr a => k a
  end.

Notation "'try!' x ':=' e 'in' k" := (bind_raising e (fun x => k))
  (at level 10, x name, e at level 100, k at level 200).

(** What [for match in matches] iterates over. *)
Definition iterate (v : json) : raising (list json) :=
  match v with
  | JArr items => inr items
  | JObj members => inr (map (fun kv => JStr (fst kv)) members)
  | JStr s => inr (map (fun c => JStr (String c EmptyString)) (list_ascii_of_string s))
  | _ => inl (TypeError_not_iterable v)
  end.

(** ** The world outside the module *)

(** The directory [VIDEOS_DIR] as [os.path.isdir] and [os.listdir] see it. *)
Inductive VideosDir :=
  | NoDirectory
  | Unreadable (msg : string)
  | Listing (filenames : list string).

(** What the module reads from outside: the environment variable, the
    remote text-generation service ([inl] is the exception a call raised,
    of either class, [inr] is [response.text]), the JSON decoder ([inl] is
    the text of its [JSONDecodeError]), the video directory and Flask's
    [url_for("serve_video", filename=...)]. *)
Record Env := mkEnv {
  GEMINI_API_KEY : string;
  generate_content : string -> raising string;
  json_loads : string -> string + json;
  VIDEOS_DIR : VideosDir;
  url_for : string -> string;
}.

(** ** The remote matcher *)

Definition dq : string := String (ascii_of_nat 34) EmptyString.

Definition LF : ascii := ascii_of_nat 10.

(** [json.dumps] of a list of strings that need no escaping, which is the
    case of the keys of the table. *)
Definition json_dumps_strings (l : list string) : string :=
  "[" +:+ Py.join ", " (map (fun s => dq +:+ s +:+ dq) l) +:+ "]".

Definition get_vocabulary_list : list string := map fst SIGN_VOCABULARY.

(** The f-string sent to the service. *)
Definition prompt_for (vocab_list : list string) (text : string) : string :=
  "You are an assistant that maps spoken text to sign language vocabulary.

Given the input text, identify which words from the available vocabulary should be used to represent the meaning.

Available vocabulary: "
  +:+ json_dumps_strings vocab_list
  +:+ "

Input text: " +:+ dq
  +:+ text
  +:+ dq +:+ "

Rules:
1. Only return words that are in the available vocabulary list
2. Consider synonyms and semantic meaning (e.g., " +:+ dq +:+ "I don't get it" +:+ dq +:+ " should match " +:+ dq +:+ "confused" +:+ dq +:+ ")
3. Return words in the order they should be signed
4. Include a confidence score (0.0-1.0) for each match
5. For words with no good match, skip them

Return a JSON array of objects with format:
[{" +:+ dq +:+ "word" +:+ dq +:+ ": " +:+ dq +:+ "vocabulary_word" +:+ dq +:+ ", " +:+ dq +:+ "confidence" +:+ dq +:+ ": 0.95, " +:+ dq +:+ "matched_from" +:+ dq +:+ ": " +:+ dq +:+ "original_word_or_phrase" +:+ dq +:+ "}]

Only return the JSON array, no other text.".

(** The cleanup of a reply wrapped in a Markdown code fence:
    [lines[1:-1]] joined again. *)
Definition strip_code_fence (response_text : string) : string :=
  if Py.startswith "```" response_text
  then Py.join (String LF EmptyString)
         (removelast (tail (Py.split_on LF response_text)))
  else response_text.

(** Body of the enrichment loop for one element of the decoded reply:
    the result to append, if its word is in the table. *)
Definition enrich_match (m : json) : raising (option MatchResult) :=
  match m with
  | JObj members =>
      match dict_get_default "word" (JStr "") members with
      | JStr w =>
          let w := Py.lower w in
          match vocabulary_get w with
          | Some sign_data =>
              inr (Some (vocabulary_match sign_data
                           (dict_get_default "confidence" (JFloat 0.8) members)
                           (dict_get_default "matched_from" (JStr w) members)))
          | None => inr None
          end
      | v => inl (AttributeError v "lower")
      end
  | v => inl (AttributeError v "get")
  end.

Fixpoint enrich_matches (items : list json) (enriched_matches : list MatchResult)
  : raising (list MatchResult) :=
  match items with
  | [] => inr enriched_matches
  | m :: rest =>
      try! r := enrich_match m in
      enrich_matches rest
        (match r with
         | Some r => enriched_matches ++ [r]
         | None => enriched_matches
         end)
  end.

(** A computation that talks to the remote service: the prompts it sent,
    in order, and its value. *)
Definition remote (A : Type) : Type := list string * A.

(** The [try] block of [gemini_match_signs].  An exception of the call
    to the service leaves the block as it is: the two [except] clauses
    guard the whole block, the call included. *)
Definition gemini_try (env : Env) (text : string)
  : remote (raising (list MatchResult)) :=
  let prompt := prompt_for get_vocabulary_list text in
  ([prompt],
   match generate_content env prompt with
   | inl e => inl e
   | inr response_text =>
       let response_text := strip_code_fence (Py.strip response_text) in
       match json_loads env response_text with
       | inl msg => inl (JSONDecodeError msg)
       | inr matches =>
           try! items := iterate matches in
           enrich_matches items []
       end
   end).

(** [gemini_match_signs(text)]: the pair [(signs, error)]. *)
Definition gemini_match_signs (env : Env) (text : string)
  : remote (option (list MatchResult) * option string) :=
  if String.eqb (GEMINI_API_KEY env) ""
  then ([], (None, Some "No API key configured"))
  else
    let '(sent, outcome) := gemini_try env text in
    (sent,
     match outcome with
     | inr enriched_matches => (Some enriched_matches, None)
     | inl (JSONDecodeError msg) =>
         (None, Some ("Failed to parse Gemini response: " +:+ msg))
     | inl (OtherException msg) =>
         (None, Some ("Gemini API error: " +:+ msg))
     end).

(** ** Media enrichment *)

(** [{fn.lower(): fn for fn in os.listdir(VIDEOS_DIR)}] *)
Definition files_of (filenames : list string) : gmap string string :=
  fold_left (fun files fn => <[Py.lower fn := fn]> files) filenames ∅.

(** [any(letter_video_urls)]: some element is a non-empty string. *)
Definition any_url (urls : list (option string)) : bool :=
  existsb (fun u => match u with
                    | Some s => negb (String.eqb s "")
                    | None => false
                    end) urls.

(** Body of the loop of [add_video_urls_to_signs] for one sign. *)
Definition add_video_urls (url : string -> string) (files : gmap string string)
    (r : MatchResult) : MatchResult :=
  let key := Py.lower (Py.strip (word (sign r))) +:+ ".mp4" in
  let r :=
    match files !! key with
    | Some fn =>
        {| sign := sign r; letters := letters r; confidence := confidence r;
           matched_from := matched_from r;
           video_url := Some (url fn); letter_videos := letter_videos r |}
    | None => r
    end in
  if String.eqb (category (sign r)) "fingerspelled" then
    let letter_video_urls :=
      map (fun ch =>
             if Py.isalpha ch
             then url <$> files !! (Py.lower (String ch EmptyString) +:+ ".mp4")
             else None)
          (default [] (letters r)) in
    if any_url letter_video_urls
    then {| sign := sign r; letters := letters r; confidence := confidence r;
            matched_from := matched_from r;
            video_url := video_url r; letter_videos := Some letter_video_urls |}
    else r
  else r.

(** [add_video_urls_to_signs(signs)]: the list after the in-place update,
    or the exception of [os.listdir], raised before any sign is touched. *)
Definition add_video_urls_to_signs (env : Env) (signs : list MatchResult)
  : raising (list MatchResult) :=
  match VIDEOS_DIR env with
  | NoDirectory => inr signs
  | Unreadable msg => inl (OtherException msg)
  | Listing filenames =>
      inr (map (add_video_urls (url_for env) (files_of filenames)) signs)
  end.

(** [try: add_video_urls_to_signs(signs) except Exception: ...] *)
Definition enriched (env : Env) (signs : list MatchResult) : list MatchResult :=
  match add_video_urls_to_signs env signs with
  | inr signs' => signs'
  | inl _ => signs
  end.

(** ** The request handler *)

(** A POST to [/api/match]: [request.is_json] and what [request.get_json()]
    gives ([inl] is the text of the 400 Flask aborts with when the body does
    not decode). *)
Record Request := mkRequest {
  is_json : bool;
  get_json : string + json;
}.

(** A response: the status and the keys of the [jsonify] body. *)
Record Response := mkResponse {
  status : nat;
  resp_signs : option (list MatchResult);
  resp_method : option string;
  resp_error : option string;
  resp_text : option string;
}.

Definition error_response (code : nat) (msg : string) : Response :=
  {| status := code; resp_signs := None; resp_method := None;
     resp_error := Some msg; resp_text := None |}.

(** The 400 of the validation: [signs] empty, [method] none, and the
    error text. *)
Definition no_text_response : Response :=
  {| status := 400; resp_signs := Some []; resp_method := Some "none";
     resp_error := Some "No text provided"; resp_text := None |}.

Definition match_response (signs : list MatchResult) (method text : string)
  : Response :=
  {| status := 200; resp_signs := Some signs; resp_method := Some method;
     resp_error := None; resp_text := Some text |}.

(** [re.sub(r"[^A-Za-z0-9\s]", " ", text)] *)
Definition sub_non_alnum (text : string) : string :=
  Py.map_chars
    (fun c => if Py.isalnum_ascii c || Py.isspace c then c else " "%char) text.

(** The words of the forced-fingerspelling branch. *)
Definition fingerspell_words (text : string) : list string :=
  List.filter (fun w => negb (String.eqb w "")) (Py.split (sub_non_alnum text)).

(** Body of the loop of the forced-fingerspelling branch. *)
Definition force_step (signs : list MatchResult) (w : string)
  : list MatchResult :=
  match Py.chars_where Py.isalpha w with
  | [] => signs
  | ls => signs ++ [fingerspelled w ls 1.0]
  end.

Definition local_response (env : Env) (text : string) : Response :=
  match_response (enriched env (local_match_signs text)) "local" text.

(** [match_signs()], with the prompts sent to the remote service. *)
Definition match_signs (env : Env) (req : Request) : remote Response :=
  if negb (is_json req) then ([], error_response 400 "Expected JSON payload")
  else
    match get_json req with
    | inl msg => ([], error_response 400 msg)
    | inr (JObj data) =>
        match dict_get "text" data with
        | Some (JStr text) =>
            if String.eqb (Py.strip text) "" then
              ([], no_text_response)
            else
              let text := Py.take 2000 (Py.strip text) in
              let use_ai := truthy (dict_get_default "use_ai" (JBool true) data) in
              let force_fingerspell :=
                truthy (dict_get_default "force_fingerspell" (JBool false) data) in
              if force_fingerspell then
                let signs := fold_left force_step (fingerspell_words text) [] in
                ([], match_response (enriched env signs) "fingerspell" text)
              else if use_ai && negb (String.eqb (GEMINI_API_KEY env) "") then
                let '(sent, (signs, error)) := gemini_match_signs env text in
                match signs with
                | None => (sent, local_response env text)
                | Some signs =>
                    (sent, match_response (enriched env signs) "gemini" text)
                end
              else ([], local_response env text)
        | _ =>
            ([], no_text_response)
        end
    | inr _ => ([], error_response 500 "Internal Server Error")
    end.

(** ** The shape shared by the three loops of the local matcher

    Each loop body either leaves the state alone or appends one result and
    adds one word to [matched_words]; whether it does so depends on the
    loop variable and on the word not being in [matched_words] already. *)

Section EmitStep.

Context {X : Type} (key : X -> string) (hit : X -> option MatchResult).

Definition emit_step (st : MatchState) (x : X) : MatchState :=
  match hit x with
  | Some r =>
      if bool_decide (key x ∈ st.2) then st
      else (st.1 ++ [r], st.2 ∪ {[key x]})
  | None => st
  end.

(** The loop variables at which a run of the loop appends a result. *)
Fixpoint emitted (xs : list X) (seen : gset string) : list X :=
  match xs with
  | [] => []
  | x :: xs' =>
      match hit x with
      | Some _ =>
          if bool_decide (key x ∈ seen) then emitted xs' seen
          else x :: emitted xs' (seen ∪ {[key x]})
      | None => emitted xs' seen
      end
  end.

End EmitStep.

(** What the first loop appends for an item of the vocabulary. *)
Definition phrase_hit (text_lower : string) (item : string * SignData)
  : option MatchResult :=
  if Py.has_char " " item.1 && Py.contains item.1 text_lower
  then Some (vocabulary_match item.2 (JFloat 1.0) (JStr item.1))
  else None.

(** What the second loop appends for a token. *)
Definition word_hit (tok : string) : option MatchResult :=
  match vocabulary_get tok with
  | Some sign_data => Some (vocabulary_match sign_data (JFloat 1.0) (JStr tok))
  | None =>
      match first_with_synonym tok with
      | Some (_, sign_data) =>
          Some (vocabulary_match sign_data (JFloat 0.85) (JStr tok))
      | None => None
      end
  end.

(** What the third loop appends for a token. *)
Definition fingerspell_hit (tok : string) : option MatchResult :=
  if String.eqb tok "" then None
  else
    match Py.chars_where Py.isalpha tok with
    | [] => None
    | ls => Some (fingerspelled tok ls 0.5)
    end.

(** ** Vocabulary used in the statements *)

(** [r] was matched from the word [w]. *)
Definition from_word (w : string) (r : MatchResult) : bool :=
  match matched_from r with
  | JStr s => String.eqb s w
  | _ => false
  end.

(** The results matched from the word [w]. *)
Definition results_for (w : string) (signs : list MatchResult)
  : list MatchResult :=
  List.filter (from_word w) signs.

Definition letters_of (tok : string) : list ascii :=
  Py.chars_where Py.isalpha tok.

Definition is_key (w : string) : bool :=
  bool_decide (is_Some (vocabulary_get w)).

Definition is_synonym (w : string) : bool :=
  bool_decide (is_Some (first_with_synonym w)).

Definition has_letter (w : string) : bool :=
  match letters_of w with
  | [] => false
  | _ => true
  end.

(** A phrase match: a key holding a space, with confidence 1.0. *)
Definition is_phrase_match (r : MatchResult) : Prop :=
  exists k d, In (k, d) SIGN_VOCABULARY /\ Py.has_char " " k = true
              /\ r = vocabulary_match d (JFloat 1.0) (JStr k).

(** A word match (confidence 1.0) or a synonym match (confidence 0.85). *)
Definition is_word_match (r : MatchResult) : Prop :=
  exists tok d,
    (vocabulary_get tok = Some d
     /\ r = vocabulary_match d (JFloat 1.0) (JStr tok))
    \/ (vocabulary_get tok = None
        /\ (exists k, first_with_synonym tok = Some (k, d))
        /\ r = vocabulary_match d (JFloat 0.85) (JStr tok)).

(** A fingerspelled entry of the fallback loop. *)
Definition is_fingerspell_fallback (r : MatchResult) : Prop :=
  exists tok, letters_of tok <> []
              /\ r = fingerspelled tok (letters_of tok) 0.5.

(** [p] holds of every character of [s]. *)
Fixpoint all_chars (p : ascii -> bool) (s : string) : bool :=
  match s with
  | EmptyString => true
  | String c s' => p c && all_chars p s'
  end.

(** The maximal runs of characters satisfying [p]; [cur] is the run being
    read. *)
Fixpoint runs_from (p : ascii -> bool) (cur : string) (s : string)
  : list string :=
  match s with
  | EmptyString => Py.emit cur []
  | String c s' =>
      if p c then runs_from p (Py.snoc cur c) s'
      else Py.emit cur (runs_from p "" s')
  end.

(** Tokens on non-alphanumeric boundaries: the maximal runs of
    [[A-Za-z0-9]]. *)
Definition alnum_runs (text : string) : list string :=
  runs_from Py.isalnum_ascii "" text.

(** [matched_signs] and [matched_words] agree: a word has one result
    matched from it when it is in [matched_words], and none otherwise. *)
Definition counted (st : MatchState) : Prop :=
  forall w, length (results_for w st.1)
            = if bool_decide (w ∈ st.2) then 1%nat else 0%nat.

(** The fields of a result that matching decides; the enrichment step
    only adds the two video keys. *)
Definition match_fields (r : MatchResult)
  : SignData * option (list ascii) * json * json :=
  (sign r, letters r, confidence r, matched_from r).

(** The fields of the fingerspelled entry for the word [w] with
    confidence [conf]. *)
Definition fingerspelled_fields (conf : Q) (w : string)
  : SignData * option (list ascii) * json * json :=
  ({| word := w; category := "fingerspelled"; synonyms := [];
      description := "Finger-spell the word '" +:+ w +:+ "'";
      animation_type := None; animation_data := None |},
   Some (letters_of w), JFloat conf, JStr w).

(** A request whose JSON body is the object [data]. *)
Definition json_request (data : list (string * json)) : Request :=
  {| is_json := true; get_json := inr (JObj data) |}.

(** ** Checks run over the whole table *)

#[global] Instance SignData_eq_dec : EqDecision SignData.
Proof. solve_decision. Defined.

(** [v] is the float [q], numerator and denominator alike. *)
Definition is_float (q : Q) (v : json) : bool :=
  match v with
  | JFloat q' => (Qnum q' =? Qnum q)%Z && (Qden q' =? Qden q)%positive
  | _ => false
  end.

(** [local_match_signs(k)] holds a result for the word [k] with
    confidence 1.0. *)
Definition key_matched (k : string) : bool :=
  existsb (fun r => String.eqb (word (sign r)) k && is_float 1.0 (confidence r))
          (local_match_signs k).

(** [local_match_signs(s)] is the single result for the entry [e] with
    confidence 0.85, matched from [s]. *)
Definition synonym_matched_alone (e : SignData) (s : string) : bool :=
  match local_match_signs s with
  | [r] => bool_decide (sign r = e) && is_float 0.85 (confidence r)
           && from_word s r
  | _ => false
  end.

(** [item] is the first entry of the table that lists [s] as a synonym. *)
Definition first_listing (item : string * SignData) (s : string) : bool :=
  match first_with_synonym s with
  | Some (k, _) => String.eqb k item.1
  | None => false
  end.

(** The check of one synonym of one entry: a synonym that is not a key,
    holds no space and is listed first by this entry is matched alone. *)
Definition synonym_checked (item : string * SignData) (s : string) : bool :=
  is_key s || Py.has_char " " s || negb (first_listing item s)
  || synonym_matched_alone item.2 s.

(** The distinct strings of a list, in the order in which each appears
    first. *)
Fixpoint first_occurrences (l : list string) : list string :=
  match l with
  | [] => []
  | x :: l' =>
      x :: List.filter (fun y => negb (String.eqb y x)) (first_occurrences l')
  end.

(** ** Trimming and cutting, as properties of the text *)

Definition head_char (s : string) : option ascii :=
  match s with
  | EmptyString => None
  | String c _ => Some c
  end.

Fixpoint last_char (s : string) : option ascii :=
  match s with
  | EmptyString => None
  | String c s' =>
      match last_char s' with
      | Some d => Some d
      | None => Some c
      end
  end.

(** [core] is [t] without the whitespace at its two ends: [t] is [core]
    between two runs of whitespace, and [core] neither starts nor ends
    with whitespace. *)
Definition trimmed (t core : string) : Prop :=
  exists lead trail,
    t = lead +:+ core +:+ trail
    /\ all_chars Py.isspace lead = true
    /\ all_chars Py.isspace trail = true
    /\ (forall c, head_char core = Some c -> Py.isspace c = false)
    /\ (forall c, last_char core = Some c -> Py.isspace c = false).

(** [text] is [core] cut at [n] characters: a prefix of [core], of length
    [n] or the length of [core], whichever is less. *)
Definition cut_at (n : nat) (core text : string) : Prop :=
  (exists rest, core = text +:+ rest)
  /\ String.length text = Nat.min n (String.length core).

(** ** Readings of the specification that the code does not follow

    Each is stated here as the specification words it and is refuted
    below at a concrete input. *)

(** Phrase matches first, then one list of per-token results (word,
    synonym and fingerspelled entries together) in token order. *)
Definition interleaved_order (text : string) : Prop :=
  exists phrases per_token,
    local_match_signs text = phrases ++ per_token
    /\ Forall is_phrase_match phrases
    /\ map matched_from per_token
         `sublist_of` map JStr (tokens (Py.lower text)).

(** The synonym [s] of the entry [e] of key [k], not itself a key, brings
    up [e] with confidence 0.85. *)
Definition synonym_matches (k : string) (e : SignData) (s : string) : Prop :=
  In (k, e) SIGN_VOCABULARY -> In s (synonyms e) ->
  vocabulary_get s = None ->
  exists r, In r (local_match_signs s)
            /\ sign r = e /\ confidence r = JFloat 0.85.

Definition every_synonym_matches : Prop :=
  forall k e s, synonym_matches k e s.

(** A token that occurs more than once has exactly one result. *)
Definition repeated_token_has_one_result : Prop :=
  forall text tok,
    (2 <= List.count_occ string_dec (tokens (Py.lower text)) tok)%nat ->
    length (results_for tok (local_match_signs text)) = 1%nat.

(** ** The vocabulary endpoints *)

(** [a < b] on [str]: the order of the code points, a proper prefix
    first. *)
Fixpoint str_ltb (a b : string) : bool :=
  match a, b with
  | _, EmptyString => false
  | EmptyString, String _ _ => true
  | String x a', String y b' =>
      (Py.code x <? Py.code y)%N
      || ((Py.code x =? Py.code y)%N && str_ltb a' b')
  end.

(** One step of [sorted] over a set: [x] is put at its place, unless it is
    there already. *)
Fixpoint insert_sorted (x : string) (l : list string) : list string :=
  match l with
  | [] => [x]
  | y :: l' =>
      if String.eqb x y then l
      else if str_ltb x y then x :: l
      else y :: insert_sorted x l'
  end.

(** [sorted({...})] of the strings of [l]. *)
Definition sorted_set (l : list string) : list string :=
  fold_right insert_sorted [] l.

(** The body of the answer of [get_vocabulary].  Its [vocabulary] member is
    a JSON object, a finite map from keys to entries: the order in which
    [jsonify] writes the members is not the order of the table, and it is
    no part of the answer here. *)
Record VocabularyResponse := mkVocabularyResponse {
  vocabulary : gmap string SignData;
  categories : list string;
  count : nat;
}.

(** [get_vocabulary()]; [wanted] is [request.args.get('category')]. *)
Definition get_vocabulary (wanted : option string) : VocabularyResponse :=
  let categories :=
    sorted_set (map (fun item => category item.2) SIGN_VOCABULARY) in
  match wanted with
  | Some c =>
      if String.eqb c "" then
        {| vocabulary := list_to_map SIGN_VOCABULARY; categories := categories;
           count := length SIGN_VOCABULARY |}
      else
        let filtered :=
          List.filter (fun item => String.eqb (category item.2) c)
                      SIGN_VOCABULARY in
        {| vocabulary := list_to_map filtered; categories := categories;
           count := length filtered |}
  | None =>
      {| vocabulary := list_to_map SIGN_VOCABULARY; categories := categories;
         count := length SIGN_VOCABULARY |}
  end.

(** The answer of [get_vocabulary_item]: the entry under its key, or the
    404 with its error text. *)
Inductive ItemResponse :=
  | ItemFound (key : string) (data : SignData)
  | ItemNotFound (error : string).

Definition item_status (r : ItemResponse) : nat :=
  match r with
  | ItemFound _ _ => 200
  | ItemNotFound _ => 404
  end.

(** [get_vocabulary_item(word)] *)
Definition get_vocabulary_item (w : string) : ItemResponse :=
  let key := Py.lower w in
  match vocabulary_get key with
  | Some item => ItemFound key item
  | None => ItemNotFound "Not found"
  end.

(** [get_status()]: [gemini_configured] and [vocabulary_count]. *)
Definition get_status (env : Env) : bool * nat :=
  (negb (String.eqb (GEMINI_API_KEY env) ""), length SIGN_VOCABULARY).

(** ** Security headers *)

(** The headers of a response, in order; names compare without regard to
    case, as in Werkzeug's [Headers]. *)
Definition Headers : Type := list (string * string).

Definition header_get (name : string) (h : Headers) : option string :=
  snd <$> find (fun kv => String.eqb (Py.lower kv.1) (Py.lower name)) h.

(** [headers.setdefault(name, value)] *)
Definition setdefault (name value : string) (h : Headers) : Headers :=
  match header_get name h with
  | Some _ => h
  | None => h ++ [(name, value)]
  end.

(** [set_security_headers(response)], on the headers of the response. *)
Definition set_security_headers (h : Headers) : Headers :=
  setdefault "Content-Security-Policy"
    "default-src 'self'; script-src 'self'; style-src 'self'"
    (setdefault "Referrer-Policy" "no-referrer"
       (setdefault "X-Frame-Options" "DENY"
          (setdefault "X-Content-Type-Options" "nosniff" h))).

(** The names [set_security_headers] cares for. *)
Definition security_headers : list string :=
  ["X-Content-Type-Options"; "X-Frame-Options"; "Referrer-Policy";
   "Content-Security-Policy"].

(** ** Further vocabulary of the statements *)

(** The key of the video file looked up for a result. *)
Definition video_key (r : MatchResult) : string :=
  Py.lower (Py.strip (word (sign r))) +:+ ".mp4".

(** The items of the table whose key holds a space. *)
Definition phrase_items : list (string * SignData) :=
  List.filter (fun item => Py.has_char " " item.1) SIGN_VOCABULARY.

(** An element of a decoded reply that the enrichment loop accepts: an
    object whose [word], when present, is a string. *)
Definition well_shaped (m : json) : bool :=
  match m with
  | JObj members =>
      match dict_get "word" members with
      | Some (JStr _) | None => true
      | Some _ => false
      end
  | _ => false
  end.

(** The word an element of a decoded reply names: its [word], lowered,
    or the empty string. *)
Definition reply_word (m : json) : string :=
  match m with
  | JObj members =>
      match dict_get "word" members with
      | Some (JStr w) => Py.lower w
      | _ => ""
      end
  | _ => ""
  end.

(** A character a token of the local matcher can hold: no whitespace,
    none of the four separators, none of the capital letters A to Z. *)
Definition token_char (c : ascii) : bool :=
  negb (Py.isspace c) && negb (Py.has_char c ",.?!")
  && negb (Py.between 65 90 c).

(** An ASCII letter. *)
Definition ascii_letter (c : ascii) : bool :=
  Py.between 65 90 c || Py.between 97 122 c.




(** * Properties *)

(** ** Strings *)

Lemma all_chars_snoc (p : ascii -> bool) (s : string) (c : ascii) :
  all_chars p (Py.snoc s c) = all_chars p s && p c.
Proof.
  induction s as [|a s IH]; simpl.
  - now rewrite andb_true_r.
  - unfold Py.snoc in IH. rewrite IH. now rewrite andb_assoc.
Qed.

Lemma snoc_nonempty (s : string) (c : ascii) : Py.snoc s c <> "".
Proof. destruct s; discriminate. Qed.

Lemma Forall_emit (P : string -> Prop) (cur : string) (rest : list string) :
  (cur <> "" -> P cur) -> Forall P rest -> Forall P (Py.emit cur rest).
Proof.
  intros Hcur Hrest. unfold Py.emit.
  destruct (String.eqb_spec cur ""); [assumption|].
  constructor; auto.
Qed.

(** Every run is non-empty and made of characters satisfying [p]. *)
Lemma runs_from_all (p : ascii -> bool) (s cur : string) :
  all_chars p cur = true ->
  Forall (fun t => t <> "" /\ all_chars p t = true) (runs_from p cur s).
Proof.
  revert cur. induction s as [|c s IH]; intros cur Hcur; simpl.
  - apply Forall_emit; auto.
  - destruct (p c) eqn:Hc.
    + apply IH. rewrite all_chars_snoc, Hcur, Hc. reflexivity.
    + apply Forall_emit; auto.
Qed.

(** The scan of [split] is the scan for runs of non-whitespace. *)
Lemma split_from_runs (s cur : string) :
  Py.split_from cur s = runs_from (fun c => negb (Py.isspace c)) cur s.
Proof.
  revert cur. induction s as [|c s IH]; intros cur; simpl; [reflexivity|].
  destruct (Py.isspace c); simpl; now rewrite IH.
Qed.

(** Replacing by a space every character outside [q] turns the runs of
    non-whitespace into the runs of [q], when no character of [q] is
    whitespace. *)
Lemma runs_from_map_chars (q : ascii -> bool) (f : ascii -> ascii) :
  (forall c, q c = true -> f c = c /\ Py.isspace c = false) ->
  (forall c, q c = false -> Py.isspace (f c) = true) ->
  forall s cur,
    runs_from (fun c => negb (Py.isspace c)) cur (Py.map_chars f s)
    = runs_from q cur s.
Proof.
  intros Hin Hout. induction s as [|c s IH]; intros cur; simpl; [reflexivity|].
  destruct (q c) eqn:Hq.
  - destruct (Hin c Hq) as [-> ->]. simpl. apply IH.
  - rewrite (Hout c Hq). simpl. now rewrite IH.
Qed.

Lemma token_no_space (t : string) :
  all_chars (fun c => negb (Py.isspace c)) t = true ->
  Py.has_char " " t = false.
Proof.
  induction t as [|c t IH]; simpl; [reflexivity|].
  intros [Hc Ht]%andb_true_iff. rewrite (IH Ht), orb_false_r.
  destruct (Ascii.eqb_spec c " "); [subst; discriminate|reflexivity].
Qed.

(** A token of [split] is not empty and holds no whitespace. *)
Lemma split_tokens (s : string) :
  Forall (fun t => t <> "" /\ all_chars (fun c => negb (Py.isspace c)) t = true)
         (Py.split s).
Proof.
  unfold Py.split. rewrite split_from_runs. now apply runs_from_all.
Qed.

Lemma tokens_no_space (text_lower tok : string) :
  tok ∈ tokens text_lower -> Py.has_char " " tok = false.
Proof.
  intros Hin. unfold tokens in Hin.
  pose proof (split_tokens
    (Py.replace "!" " " (Py.replace "?" " " (Py.replace "." " "
       (Py.replace "," " " text_lower))))) as Hall.
  rewrite Forall_forall in Hall.
  apply token_no_space, Hall. assumption.
Qed.

Lemma append_nil_l (s : string) : "" +:+ s = s.
Proof. reflexivity. Qed.

Lemma append_cons (c : ascii) (a b : string) :
  String c a +:+ b = String c (a +:+ b).
Proof. reflexivity. Qed.

Lemma append_assoc (a b c : string) : (a +:+ b) +:+ c = a +:+ (b +:+ c).
Proof.
  induction a as [|x a IH]; [reflexivity|].
  rewrite !append_cons. now rewrite IH.
Qed.

Lemma append_empty_r (a : string) : a +:+ "" = a.
Proof.
  induction a as [|x a IH]; [reflexivity|].
  rewrite append_cons. now rewrite IH.
Qed.

Lemma snoc_append (cur : string) (c : ascii) (s : string) :
  Py.snoc cur c +:+ s = cur +:+ String c s.
Proof. unfold Py.snoc. rewrite append_assoc. reflexivity. Qed.

Lemma take_length (n : nat) (s : string) : (String.length (Py.take n s) <= n)%nat.
Proof.
  revert s. induction n as [|n IH]; intros s; simpl; [lia|].
  destruct s as [|c s]; simpl; [lia|]. specialize (IH s). lia.
Qed.

Lemma take_head (n : nat) (c : ascii) (s : string) :
  Py.take (S n) (String c s) = String c (Py.take n s).
Proof. reflexivity. Qed.

Lemma lstrip_head (s : string) :
  match Py.lstrip s with
  | EmptyString => True
  | String c _ => Py.isspace c = false
  end.
Proof.
  induction s as [|c s IH]; simpl; [exact I|].
  destruct (Py.isspace c) eqn:Hc; [exact IH|exact Hc].
Qed.

Lemma rstrip_head (s : string) :
  match Py.rstrip s, s with
  | String c _, String c' _ => c = c'
  | String _ _, EmptyString => False
  | EmptyString, _ => True
  end.
Proof.
  destruct s as [|c s]; simpl; [exact I|].
  destruct (Py.rstrip s); [destruct (Py.isspace c)|]; simpl; auto.
Qed.

(** The trimmed text starts with a character that is not whitespace. *)
Lemma strip_head (t : string) :
  match Py.strip t with
  | EmptyString => True
  | String c _ => Py.isspace c = false
  end.
Proof.
  unfold Py.strip. pose proof (lstrip_head t) as Hl.
  pose proof (rstrip_head (Py.lstrip t)) as Hr.
  destruct (Py.rstrip (Py.lstrip t)) as [|c r]; [exact I|].
  destruct (Py.lstrip t) as [|c' l]; [contradiction|]. now subst.
Qed.

Lemma all_chars_append (p : ascii -> bool) (a b : string) :
  all_chars p (a +:+ b) = all_chars p a && all_chars p b.
Proof.
  induction a as [|x a IH]; [reflexivity|].
  rewrite append_cons. cbn [all_chars]. now rewrite IH, andb_assoc.
Qed.

Lemma lstrip_lead (s : string) :
  exists lead, s = lead +:+ Py.lstrip s /\ all_chars Py.isspace lead = true.
Proof.
  induction s as [|c s IH]; [exists ""; auto|].
  cbn [Py.lstrip]. destruct (Py.isspace c) eqn:Hc; [|exists ""; auto].
  destruct IH as (lead & Heq & Hlead). exists (String c lead).
  rewrite append_cons, <- Heq. cbn [all_chars]. rewrite Hc, Hlead. auto.
Qed.

Lemma last_char_cons (c d : ascii) (s : string) :
  last_char (String c (String d s)) = last_char (String d s).
Proof. cbn [last_char]. destruct (last_char s); reflexivity. Qed.

Lemma rstrip_trail (s : string) :
  exists trail,
    s = Py.rstrip s +:+ trail /\ all_chars Py.isspace trail = true
    /\ (forall c, last_char (Py.rstrip s) = Some c -> Py.isspace c = false).
Proof.
  induction s as [|c s IH]; [exists ""; repeat split; discriminate|].
  destruct IH as (trail & Heq & Htrail & Hlast). cbn [Py.rstrip].
  destruct (Py.rstrip s) as [|d r] eqn:Hr.
  - rewrite append_nil_l in Heq. subst s.
    destruct (Py.isspace c) eqn:Hc.
    + exists (String c trail). cbn [all_chars]. rewrite Hc, Htrail.
      repeat split. discriminate.
    + exists trail. repeat split; [assumption|].
      cbn [last_char]. intros c' [= <-]. exact Hc.
  - exists trail. rewrite append_cons, <- Heq.
    repeat split; [assumption|]. rewrite last_char_cons. exact Hlast.
Qed.

(** [strip] removes whitespace from both ends and nothing else. *)
Lemma strip_trimmed (t : string) : trimmed t (Py.strip t).
Proof.
  destruct (lstrip_lead t) as (lead & Hl & Hlead).
  destruct (rstrip_trail (Py.lstrip t)) as (trail & Hr & Htrail & Hlast).
  exists lead, trail. unfold Py.strip.
  repeat split; try assumption.
  - rewrite <- Hr. exact Hl.
  - intros c Hc. pose proof (strip_head t) as Hhead. unfold Py.strip in Hhead.
    destruct (Py.rstrip (Py.lstrip t)); [discriminate Hc|].
    injection Hc as <-. exact Hhead.
Qed.

(** A text trims to the empty string exactly when it is all whitespace. *)
Lemma strip_empty_iff (t : string) :
  Py.strip t = "" <-> all_chars Py.isspace t = true.
Proof.
  destruct (strip_trimmed t) as (lead & trail & Heq & Hlead & Htrail & Hhead & _).
  split.
  - intros Hs. rewrite Hs in Heq. rewrite Heq, append_nil_l.
    now rewrite all_chars_append, Hlead, Htrail.
  - intros Hall. destruct (Py.strip t) as [|c core] eqn:Hs; [reflexivity|].
    rewrite Heq, !all_chars_append in Hall. cbn [all_chars] in Hall.
    rewrite (Hhead c eq_refl) in Hall.
    rewrite andb_false_r in Hall. discriminate Hall.
Qed.

Lemma strip_nonempty (t : string) :
  all_chars Py.isspace t = false -> Py.strip t <> "".
Proof.
  intros Hall Hs. apply strip_empty_iff in Hs. congruence.
Qed.

(** [s[:n]] is the first [n] characters, or all of them when there are
    fewer. *)
Lemma take_cut (n : nat) (s : string) : cut_at n s (Py.take n s).
Proof.
  unfold cut_at. revert s. induction n as [|n IH]; intros s.
  - split; [exists s; reflexivity|reflexivity].
  - destruct s as [|c s]; [split; [exists ""; reflexivity|reflexivity]|].
    destruct (IH s) as [[rest Hrest] Hlen]. rewrite take_head. split.
    + exists rest. rewrite append_cons. now rewrite <- Hrest.
    + cbn [String.length]. rewrite Hlen. reflexivity.
Qed.

Lemma lstrip_append_spaces (lead x : string) :
  all_chars Py.isspace lead = true -> Py.lstrip (lead +:+ x) = Py.lstrip x.
Proof.
  induction lead as [|c lead IH]; [reflexivity|].
  cbn [all_chars]. intros [Hc Hlead]%andb_true_iff.
  rewrite append_cons. cbn [Py.lstrip]. rewrite Hc. now apply IH.
Qed.

Lemma lstrip_id (s : string) :
  (forall c, head_char s = Some c -> Py.isspace c = false) -> Py.lstrip s = s.
Proof.
  destruct s as [|c s]; [reflexivity|]. intros Hhead.
  cbn [Py.lstrip]. now rewrite (Hhead c eq_refl).
Qed.

Lemma rstrip_spaces (s : string) :
  all_chars Py.isspace s = true -> Py.rstrip s = "".
Proof.
  induction s as [|c s IH]; [reflexivity|].
  cbn [all_chars]. intros [Hc Hs]%andb_true_iff.
  cbn [Py.rstrip]. now rewrite (IH Hs), Hc.
Qed.

Lemma rstrip_append_spaces (s trail : string) :
  all_chars Py.isspace trail = true -> Py.rstrip (s +:+ trail) = Py.rstrip s.
Proof.
  intros Htrail. induction s as [|c s IH].
  - rewrite append_nil_l. now apply rstrip_spaces.
  - rewrite append_cons. cbn [Py.rstrip]. now rewrite IH.
Qed.

Lemma rstrip_id (s : string) :
  (forall c, last_char s = Some c -> Py.isspace c = false) -> Py.rstrip s = s.
Proof.
  induction s as [|c s IH]; [reflexivity|]. intros Hlast.
  destruct s as [|d r].
  - cbn [Py.rstrip]. now rewrite (Hlast c eq_refl).
  - rewrite last_char_cons in Hlast. specialize (IH Hlast).
    cbn [Py.rstrip] in IH |- *. now rewrite IH.
Qed.

(** What [t] trims to is [strip] of [t], and nothing else. *)
Lemma trimmed_strip (t core : string) : trimmed t core -> Py.strip t = core.
Proof.
  intros (lead & trail & -> & Hlead & Htrail & Hhead & Hlast).
  unfold Py.strip. rewrite (lstrip_append_spaces lead _ Hlead).
  destruct core as [|c core].
  - rewrite append_nil_l.
    assert (Py.lstrip trail = "") as ->; [|reflexivity].
    destruct (lstrip_lead trail) as (lead' & Heq & _).
    pose proof (lstrip_head trail) as Hh.
    destruct (Py.lstrip trail) as [|d r]; [reflexivity|].
    rewrite Heq, all_chars_append in Htrail. cbn [all_chars] in Htrail.
    rewrite Hh, andb_false_r in Htrail. discriminate Htrail.
  - rewrite lstrip_id.
    + rewrite (rstrip_append_spaces _ _ Htrail). now apply rstrip_id.
    + rewrite append_cons. intros c' [= <-]. now apply Hhead.
Qed.

Lemma length_append (a b : string) :
  String.length (a +:+ b) = (String.length a + String.length b)%nat.
Proof.
  induction a as [|x a IH]; [reflexivity|].
  rewrite append_cons. cbn [String.length]. now rewrite IH.
Qed.

Lemma take_all (n : nat) (s : string) :
  (String.length s <= n)%nat -> Py.take n s = s.
Proof.
  revert s. induction n as [|n IH]; intros [|c s] Hlen;
    cbn [String.length] in Hlen; try reflexivity; [lia|].
  rewrite take_head, IH by lia. reflexivity.
Qed.

Lemma take_prefix (a b : string) : Py.take (String.length a) (a +:+ b) = a.
Proof.
  induction a as [|x a IH]; [reflexivity|].
  rewrite append_cons. cbn [String.length]. rewrite take_head. now rewrite IH.
Qed.

(** What [core] cuts to at [n] is [core[:n]], and nothing else. *)
Lemma cut_at_take (n : nat) (core text : string) :
  cut_at n core text -> Py.take n core = text.
Proof.
  intros [[rest ->] Hlen]. rewrite length_append in Hlen.
  destruct (Nat.le_gt_cases n (String.length text + String.length rest))
    as [Hle|Hgt].
  - rewrite Nat.min_l in Hlen by assumption. subst n. apply take_prefix.
  - rewrite Nat.min_r in Hlen by lia.
    assert (rest = "") as -> by (destruct rest; [reflexivity|simpl in Hlen; lia]).
    rewrite append_empty_r. apply take_all. lia.
Qed.

(** ** The three loops *)

Lemma fold_left_pointwise {A B : Type} (f g : A -> B -> A) (l : list B) (a : A) :
  (forall a b, f a b = g a b) -> fold_left f l a = fold_left g l a.
Proof.
  intros Hfg. revert a. induction l as [|b l IH]; intros a; simpl; [reflexivity|].
  now rewrite Hfg, IH.
Qed.

Lemma sublist_map {A B : Type} (f : A -> B) (l1 l2 : list A) :
  l1 `sublist_of` l2 -> map f l1 `sublist_of` map f l2.
Proof. induction 1; simpl; constructor; assumption. Qed.

Lemma results_for_app (w : string) (l1 l2 : list MatchResult) :
  results_for w (l1 ++ l2) = results_for w l1 ++ results_for w l2.
Proof. unfold results_for. apply List.filter_app. Qed.

Lemma from_word_iff (w : string) (r : MatchResult) :
  from_word w r = true <-> matched_from r = JStr w.
Proof.
  unfold from_word. destruct (matched_from r); try (split; [discriminate|congruence]).
  rewrite String.eqb_eq. split; congruence.
Qed.

Section EmitStepFacts.

Context {X : Type} (key : X -> string) (hit : X -> option MatchResult).

Hypothesis hit_from : forall x r, hit x = Some r -> matched_from r = JStr (key x).

Lemma emit_step_counted (st : MatchState) (x : X) :
  counted st -> counted (emit_step key hit st x).
Proof using hit_from.
  intros Hst. unfold emit_step.
  destruct (hit x) as [r|] eqn:Hx; [|assumption].
  case_bool_decide as Hin; [assumption|].
  intros w. simpl. rewrite results_for_app, length_app, (Hst w). simpl.
  apply hit_from in Hx.
  destruct (from_word w r) eqn:Hw.
  - apply from_word_iff in Hw. assert (w = key x) as -> by congruence.
    rewrite !bool_decide_eq_false_2 by assumption.
    rewrite bool_decide_eq_true_2 by set_solver. reflexivity.
  - assert (w <> key x) as Hne.
    { intros ->. apply from_word_iff in Hx. congruence. }
    simpl. rewrite Nat.add_0_r.
    rewrite (bool_decide_ext (w ∈ st.2 ∪ {[key x]}) (w ∈ st.2)) by set_solver.
    reflexivity.
Qed.

Lemma fold_emit_step_counted (xs : list X) (st : MatchState) :
  counted st -> counted (fold_left (emit_step key hit) xs st).
Proof using hit_from.
  revert st. induction xs as [|x xs IH]; intros st Hst; simpl; [assumption|].
  apply IH, emit_step_counted, Hst.
Qed.

(** The state after the loop: the results of the [emitted] loop variables
    are appended, in order, and their words are added. *)
Lemma fold_emit_step (xs : list X) (st : MatchState) :
  fold_left (emit_step key hit) xs st
  = (st.1 ++ omap hit (emitted key hit xs st.2),
     st.2 ∪ list_to_set (key <$> emitted key hit xs st.2)).
Proof using Type.
  clear hit_from.
  revert st. induction xs as [|x xs IH]; intros [signs mw]; simpl.
  - rewrite app_nil_r. f_equal. set_solver.
  - unfold emit_step at 2. simpl.
    destruct (hit x) as [r|] eqn:Hx; [|apply IH].
    case_bool_decide as Hin; [apply IH|].
    rewrite IH. simpl. rewrite Hx. rewrite <- app_assoc. simpl.
    f_equal. set_solver.
Qed.

Lemma emitted_sublist (xs : list X) (seen : gset string) :
  emitted key hit xs seen `sublist_of` xs.
Proof using Type.
  clear hit_from.
  revert seen. induction xs as [|x xs IH]; intros seen; simpl; [constructor|].
  destruct (hit x); [case_bool_decide|]; try (apply sublist_cons, IH);
    constructor; apply IH.
Qed.

Lemma emitted_sound (xs : list X) (seen : gset string) (x : X) :
  x ∈ emitted key hit xs seen -> x ∈ xs /\ is_Some (hit x) /\ key x ∉ seen.
Proof using Type.
  clear hit_from.
  revert seen. induction xs as [|y xs IH]; intros seen; simpl.
  - intros H. inversion H.
  - destruct (hit y) as [r|] eqn:Hy.
    + case_bool_decide as Hin.
      * intros H. destruct (IH _ H) as (? & ? & ?). repeat split; auto. now right.
      * intros [->|H]%elem_of_cons.
        -- repeat split; [now left|eauto|assumption].
        -- destruct (IH _ H) as (? & ? & ?). repeat split; auto; [now right|set_solver].
    + intros H. destruct (IH _ H) as (? & ? & ?). repeat split; auto. now right.
Qed.

Lemma emitted_complete (xs : list X) (seen : gset string) (x : X) :
  x ∈ xs -> is_Some (hit x) -> key x ∉ seen ->
  key x ∈ key <$> emitted key hit xs seen.
Proof using Type.
  clear hit_from.
  revert seen. induction xs as [|y xs IH]; intros seen Hx Hhit Hseen; simpl.
  - inversion Hx.
  - destruct (hit y) as [r|] eqn:Hy.
    + case_bool_decide as Hin.
      * apply elem_of_cons in Hx as [->|Hx]; [contradiction|]. now apply IH.
      * destruct (decide (key x = key y)) as [Heq|Hne].
        -- rewrite Heq. simpl. now left.
        -- simpl. right. apply elem_of_cons in Hx as [->|Hx]; [contradiction|].
           apply IH; auto. set_solver.
    + apply elem_of_cons in Hx as [->|Hx].
      * rewrite Hy in Hhit. destruct Hhit; discriminate.
      * now apply IH.
Qed.

(** A word is in [matched_words] after the loop when it was there before,
    or the loop met a variable with that word and a result to append. *)
Lemma fold_emit_step_elem (xs : list X) (st : MatchState) (w : string) :
  w ∈ (fold_left (emit_step key hit) xs st).2
  <-> w ∈ st.2 \/ exists x, x ∈ xs /\ is_Some (hit x) /\ key x = w.
Proof using Type.
  clear hit_from.
  rewrite fold_emit_step. simpl.
  rewrite elem_of_union, elem_of_list_to_set, list_elem_of_fmap.
  split.
  - intros [H|(x & -> & Hx)]; [now left|].
    apply emitted_sound in Hx as (? & ? & ?). right. eauto.
  - intros [H|(x & Hx & Hhit & <-)]; [now left|].
    destruct (decide (key x ∈ st.2)) as [Hin|Hin]; [now left|].
    right. apply list_elem_of_fmap. now apply emitted_complete.
Qed.

Lemma emitted_matched_from (xs : list X) (seen : gset string) :
  map matched_from (omap hit (emitted key hit xs seen))
  = map (fun x => JStr (key x)) (emitted key hit xs seen).
Proof using hit_from.
  revert seen. induction xs as [|x xs IH]; intros seen; simpl; [reflexivity|].
  destruct (hit x) as [r|] eqn:Hx; [|apply IH].
  case_bool_decide; [apply IH|].
  simpl. rewrite Hx. simpl. rewrite IH. f_equal. now apply hit_from.
Qed.

Lemma emitted_results (xs : list X) (seen : gset string) (r : MatchResult) :
  r ∈ omap hit (emitted key hit xs seen) ->
  exists x, x ∈ xs /\ hit x = Some r /\ key x ∉ seen.
Proof using Type.
  clear hit_from.
  intros (x & Hx & Hr)%list_elem_of_omap.
  apply emitted_sound in Hx as (? & ? & ?). eauto.
Qed.

End EmitStepFacts.

(** The three loop bodies have the shared shape. *)

Lemma phrase_step_emit (text_lower : string) (st : MatchState)
    (item : string * SignData) :
  phrase_step text_lower st item = emit_step fst (phrase_hit text_lower) st item.
Proof.
  destruct st as [signs mw], item as [k d].
  unfold phrase_step, emit_step, phrase_hit. simpl.
  destruct (Py.has_char " " k), (Py.contains k text_lower); simpl;
    try reflexivity.
  case_bool_decide; reflexivity.
Qed.

Lemma word_step_emit (st : MatchState) (tok : string) :
  word_step st tok = emit_step id word_hit st tok.
Proof.
  destruct st as [signs mw]. unfold word_step, emit_step, word_hit, id. simpl.
  destruct (vocabulary_get tok);
    [|destruct (first_with_synonym tok) as [[k d]|]];
    case_bool_decide; reflexivity.
Qed.

Lemma fingerspell_step_emit (st : MatchState) (tok : string) :
  fingerspell_step st tok = emit_step id fingerspell_hit st tok.
Proof.
  destruct st as [signs mw].
  unfold fingerspell_step, emit_step, fingerspell_hit, id. simpl.
  destruct (String.eqb tok ""); simpl; [reflexivity|].
  destruct (Py.chars_where Py.isalpha tok); case_bool_decide; reflexivity.
Qed.

Lemma phrase_hit_from (text_lower : string) (item : string * SignData)
    (r : MatchResult) :
  phrase_hit text_lower item = Some r -> matched_from r = JStr item.1.
Proof.
  unfold phrase_hit.
  destruct (Py.has_char " " item.1 && Py.contains item.1 text_lower);
    [|discriminate].
  now intros [= <-].
Qed.

Lemma word_hit_from (tok : string) (r : MatchResult) :
  word_hit tok = Some r -> matched_from r = JStr (id tok).
Proof.
  unfold word_hit.
  destruct (vocabulary_get tok);
    [|destruct (first_with_synonym tok) as [[k d]|]];
    try discriminate; now intros [= <-].
Qed.

Lemma fingerspell_hit_from (tok : string) (r : MatchResult) :
  fingerspell_hit tok = Some r -> matched_from r = JStr (id tok).
Proof.
  unfold fingerspell_hit.
  destruct (String.eqb tok ""); [discriminate|].
  destruct (Py.chars_where Py.isalpha tok); [discriminate|].
  now intros [= <-].
Qed.

Lemma phrase_hit_match (text_lower : string) (item : string * SignData)
    (r : MatchResult) :
  In item SIGN_VOCABULARY -> phrase_hit text_lower item = Some r ->
  is_phrase_match r.
Proof.
  intros Hin. unfold phrase_hit.
  destruct (Py.has_char " " item.1) eqn:Hsp; simpl; [|discriminate].
  destruct (Py.contains item.1 text_lower); [|discriminate].
  intros [= <-]. exists item.1, item.2. destruct item. auto.
Qed.

Lemma word_hit_match (tok : string) (r : MatchResult) :
  word_hit tok = Some r -> is_word_match r.
Proof.
  unfold word_hit.
  destruct (vocabulary_get tok) as [d|] eqn:Hkey.
  - intros [= <-]. exists tok, d. now left.
  - destruct (first_with_synonym tok) as [[k d]|] eqn:Hsyn; [|discriminate].
    intros [= <-]. exists tok, d. right. eauto.
Qed.

Lemma fingerspell_hit_match (tok : string) (r : MatchResult) :
  fingerspell_hit tok = Some r ->
  letters_of tok <> [] /\ r = fingerspelled tok (letters_of tok) 0.5.
Proof.
  unfold fingerspell_hit, letters_of.
  destruct (String.eqb tok ""); [discriminate|].
  destruct (Py.chars_where Py.isalpha tok); [discriminate|].
  intros [= <-]. split; [discriminate|reflexivity].
Qed.

Lemma word_hit_is_Some (tok : string) :
  is_Some (word_hit tok) <-> is_key tok || is_synonym tok = true.
Proof.
  unfold word_hit, is_key, is_synonym.
  destruct (vocabulary_get tok) as [d|].
  - rewrite bool_decide_eq_true_2 by eauto. simpl. split; eauto.
  - rewrite (bool_decide_eq_false_2 (is_Some None)) by (intros [? ?]; discriminate).
    simpl. rewrite bool_decide_eq_true.
    destruct (first_with_synonym tok) as [[k d]|]; split;
      intros [? ?]; try discriminate; eexists; reflexivity.
Qed.

Lemma fingerspell_hit_is_Some (tok : string) :
  is_Some (fingerspell_hit tok) <-> has_letter tok = true.
Proof.
  unfold fingerspell_hit, has_letter, letters_of.
  destruct (String.eqb_spec tok "") as [->|Hne]; simpl.
  - split; [intros [? ?]|]; discriminate.
  - destruct (Py.chars_where Py.isalpha tok); split; eauto;
      try discriminate. intros [? ?]; discriminate.
Qed.

(** The states of [local_match_signs] after each loop, in the shared
    shape. *)
Lemma after_phrases_emit (text : string) :
  after_phrases text
  = fold_left (emit_step fst (phrase_hit (Py.lower text))) SIGN_VOCABULARY ([], ∅).
Proof. apply fold_left_pointwise, phrase_step_emit. Qed.

Lemma after_words_emit (text : string) :
  after_words text
  = fold_left (emit_step id word_hit) (tokens (Py.lower text)) (after_phrases text).
Proof. apply fold_left_pointwise, word_step_emit. Qed.

Lemma after_fingerspell_emit (text : string) :
  after_fingerspell text
  = fold_left (emit_step id fingerspell_hit) (tokens (Py.lower text))
      (after_words text).
Proof. apply fold_left_pointwise, fingerspell_step_emit. Qed.

Lemma counted_initial : counted ([], ∅).
Proof. intros w. reflexivity. Qed.

Lemma after_phrases_counted (text : string) : counted (after_phrases text).
Proof.
  rewrite after_phrases_emit.
  apply fold_emit_step_counted; [apply phrase_hit_from|apply counted_initial].
Qed.

Lemma after_words_counted (text : string) : counted (after_words text).
Proof.
  rewrite after_words_emit.
  apply fold_emit_step_counted; [apply word_hit_from|apply after_phrases_counted].
Qed.

Lemma after_fingerspell_counted (text : string) :
  counted (after_fingerspell text).
Proof.
  rewrite after_fingerspell_emit.
  apply fold_emit_step_counted;
    [apply fingerspell_hit_from|apply after_words_counted].
Qed.

(** Only keys that hold a space are consumed by the first loop. *)
Lemma after_phrases_elem (text w : string) :
  w ∈ (after_phrases text).2 -> Py.has_char " " w = true.
Proof.
  rewrite after_phrases_emit, fold_emit_step_elem. simpl.
  intros [H|(item & _ & [r Hr] & <-)]; [set_solver|].
  unfold phrase_hit in Hr.
  destruct (Py.has_char " " item.1); [reflexivity|simpl in Hr; discriminate].
Qed.

(** A token is consumed by the first two loops exactly when it is a key
    or a synonym. *)
Lemma after_words_elem (text tok : string) :
  tok ∈ tokens (Py.lower text) ->
  tok ∈ (after_words text).2 <-> is_key tok || is_synonym tok = true.
Proof.
  intros Htok.
  rewrite after_words_emit, fold_emit_step_elem.
  rewrite <- word_hit_is_Some. unfold id. split.
  - intros [H|(x & _ & Hx & <-)]; [|assumption].
    apply after_phrases_elem in H.
    rewrite (tokens_no_space _ _ Htok) in H. discriminate.
  - intros H. right. eauto.
Qed.

Lemma after_fingerspell_elem (text tok : string) :
  tok ∈ tokens (Py.lower text) ->
  tok ∈ (after_fingerspell text).2
  <-> is_key tok || is_synonym tok || has_letter tok = true.
Proof.
  intros Htok.
  rewrite after_fingerspell_emit, fold_emit_step_elem.
  rewrite orb_true_iff, <- fingerspell_hit_is_Some.
  rewrite (after_words_elem _ _ Htok). unfold id. split.
  - intros [H|(x & _ & Hx & <-)]; auto.
  - intros [H|H]; [now left|]. right. eauto.
Qed.

(** ** The result list of [local_match_signs] *)

Lemma after_phrases_signs (text : string) :
  (after_phrases text).1
  = omap (phrase_hit (Py.lower text))
      (emitted fst (phrase_hit (Py.lower text)) SIGN_VOCABULARY ∅).
Proof. rewrite after_phrases_emit, fold_emit_step. reflexivity. Qed.

Lemma after_words_signs (text : string) :
  (after_words text).1
  = (after_phrases text).1
    ++ omap word_hit
         (emitted id word_hit (tokens (Py.lower text)) (after_phrases text).2).
Proof. rewrite after_words_emit, fold_emit_step. reflexivity. Qed.

Lemma after_fingerspell_signs (text : string) :
  local_match_signs text
  = (after_words text).1
    ++ omap fingerspell_hit
         (emitted id fingerspell_hit (tokens (Py.lower text))
            (after_words text).2).
Proof.
  unfold local_match_signs.
  rewrite after_fingerspell_emit, fold_emit_step. reflexivity.
Qed.

Lemma emitted_tokens_sublist (hit : string -> option MatchResult)
    (toks : list string) (seen : gset string) :
  (forall x r, hit x = Some r -> matched_from r = JStr (id x)) ->
  map matched_from (omap hit (emitted id hit toks seen))
  `sublist_of` map JStr toks.
Proof.
  intros Hfrom. rewrite (emitted_matched_from id hit Hfrom).
  apply sublist_map, emitted_sublist.
Qed.

(** The three parts of the result list, in the order the loops run. *)
Lemma local_match_signs_parts (text : string) :
  exists phrases hits spelled,
    local_match_signs text = phrases ++ hits ++ spelled
    /\ Forall is_phrase_match phrases
    /\ map matched_from phrases
         `sublist_of` map (fun item => JStr item.1) SIGN_VOCABULARY
    /\ Forall is_word_match hits
    /\ map matched_from hits `sublist_of` map JStr (tokens (Py.lower text))
    /\ Forall is_fingerspell_fallback spelled
    /\ map matched_from spelled `sublist_of` map JStr (tokens (Py.lower text)).
Proof.
  eexists _, _, _. split.
  { rewrite after_fingerspell_signs, after_words_signs, after_phrases_signs.
    rewrite <- app_assoc. reflexivity. }
  repeat split.
  - apply Forall_forall. intros r (item & Hin & Hr & _)%emitted_results.
    apply list_elem_of_In in Hin. eapply phrase_hit_match; eauto.
  - rewrite (emitted_matched_from fst _ (phrase_hit_from (Py.lower text))).
    apply sublist_map, emitted_sublist.
  - apply Forall_forall. intros r (tok & _ & Hr & _)%emitted_results.
    eapply word_hit_match; eauto.
  - apply emitted_tokens_sublist, word_hit_from.
  - apply Forall_forall. intros r (tok & _ & Hr & _)%emitted_results.
    exists tok. now apply fingerspell_hit_match.
  - apply emitted_tokens_sublist, fingerspell_hit_from.
Qed.

Lemma confidence_of_phrase_match (r : MatchResult) :
  is_phrase_match r -> confidence r = JFloat 1.0.
Proof. intros (k & d & _ & _ & ->). reflexivity. Qed.

Lemma confidence_of_word_match (r : MatchResult) :
  is_word_match r -> confidence r = JFloat 1.0 \/ confidence r = JFloat 0.85.
Proof. intros (tok & d & [(_ & ->)|(_ & _ & ->)]); auto. Qed.

Lemma confidence_of_fingerspell_fallback (r : MatchResult) :
  is_fingerspell_fallback r -> confidence r = JFloat 0.5.
Proof. intros (tok & _ & ->). reflexivity. Qed.

Example local_match_signs_xyzzy_yes :
  map (fun r => (matched_from r, category (sign r), confidence r))
      (local_match_signs "xyzzy yes")
  = [(JStr "yes", "responses", JFloat 1.0);
     (JStr "xyzzy", "fingerspelled", JFloat 0.5)]
  /\ tokens (Py.lower "xyzzy yes") = ["xyzzy"; "yes"].
Proof. split; vm_compute; reflexivity. Qed.

(** C1, the ordering as the specification words it, fails: for the text
    "xyzzy yes" the first token is unmatched and the second is a key, yet
    the word match for "yes" comes before the fingerspelled entry for
    "xyzzy", so the per-token results are not in token order. *)
Lemma interleaved_order_fails : ~ interleaved_order "xyzzy yes".
Proof.
  intros (phrases & per_token & Heq & Hph & Hsub).
  destruct local_match_signs_xyzzy_yes as [Hout Htok].
  rewrite Htok in Hsub. clear Htok.
  destruct (local_match_signs "xyzzy yes") as [|r1 [|r2 [|r3 rest]]];
    try discriminate.
  injection Hout as H1 H2.
  destruct phrases as [|p phrases].
  - simpl in Heq. subst per_token. simpl in Hsub.
    assert (matched_from r1 = JStr "yes") as E1 by congruence.
    assert (matched_from r2 = JStr "xyzzy") as E2 by congruence.
    rewrite E1, E2 in Hsub.
    repeat match goal with
           | H : _ `sublist_of` _ |- _ => inversion H; clear H; subst
           end.
  - injection Heq as <- _. apply Forall_cons in Hph as [Hp _].
    destruct Hp as (k & d & _ & Hk & ->).
    simpl in H1. assert (k = "yes") as -> by congruence.
    vm_compute in Hk. discriminate.
Qed.

Lemma table_keys_NoDup : NoDup (map fst SIGN_VOCABULARY).
Proof. apply (bool_decide_unpack _). vm_compute. reflexivity. Qed.

Lemma filter_filter_and {A : Type} (p q : A -> bool) (l : list A) :
  List.filter p (List.filter q l) = List.filter (fun a => q a && p a) l.
Proof.
  induction l as [|a l IH]; simpl; [reflexivity|].
  destruct (q a); simpl; [destruct (p a)|]; now rewrite IH.
Qed.

Lemma filter_map_commute {A B : Type} (f : A -> B) (p : B -> bool) (l : list A) :
  map f (List.filter (fun a => p (f a)) l) = List.filter p (map f l).
Proof.
  induction l as [|a l IH]; simpl; [reflexivity|].
  destruct (p (f a)); simpl; now rewrite IH.
Qed.

Lemma first_occurrences_In (x : string) (l : list string) :
  In x (first_occurrences l) -> In x l.
Proof.
  induction l as [|y l IH]; simpl; [auto|].
  intros [->|Hin]; [now left|].
  apply List.filter_In in Hin as [Hin _]. right. now apply IH.
Qed.

(** A loop over strings appends a result at the first occurrence of each
    string that has one and was not consumed before the loop. *)
Lemma emitted_first_occurrences (hit : string -> option MatchResult)
    (xs : list string) (seen : gset string) :
  emitted id hit xs seen
  = List.filter (fun t => bool_decide (is_Some (hit t))
                          && negb (bool_decide (t ∈ seen)))
                (first_occurrences xs).
Proof.
  revert seen. induction xs as [|x xs IH]; intros seen; [reflexivity|].
  cbn [emitted first_occurrences List.filter]. unfold id at 1 2 3.
  rewrite filter_filter_and.
  destruct (hit x) as [r|] eqn:Hx.
  - rewrite (bool_decide_eq_true_2 (is_Some (Some r))) by eauto.
    cbn [andb]. case_bool_decide as Hin; cbn [negb].
    + rewrite IH. apply List.filter_ext. intros t.
      destruct (String.eqb_spec t x) as [->|Hne]; cbn [negb andb];
        [|reflexivity].
      rewrite (bool_decide_eq_true_2 (x ∈ seen)) by assumption.
      cbn [negb]. now rewrite andb_false_r.
    + f_equal. rewrite IH. apply List.filter_ext. intros t.
      destruct (String.eqb_spec t x) as [->|Hne]; cbn [negb andb].
      * rewrite (bool_decide_eq_true_2 (x ∈ seen ∪ {[x]})) by set_solver.
        cbn [negb]. now rewrite andb_false_r.
      * f_equal. f_equal. apply bool_decide_ext. set_solver.
  - rewrite (bool_decide_eq_false_2 (is_Some None))
      by (intros [? ?]; discriminate).
    cbn [andb]. rewrite IH. apply List.filter_ext. intros t.
    destruct (String.eqb_spec t x) as [->|Hne]; cbn [negb andb];
      [|reflexivity].
    rewrite Hx.
    now rewrite (bool_decide_eq_false_2 (is_Some None))
      by (intros [? ?]; discriminate).
Qed.

(** With distinct keys and nothing consumed beforehand, a loop appends a
    result at every variable that has one. *)
Lemma emitted_distinct_keys {X : Type} (key : X -> string)
    (hit : X -> option MatchResult) (xs : list X) (seen : gset string) :
  NoDup (map key xs) ->
  emitted key hit xs seen
  = List.filter (fun x => bool_decide (is_Some (hit x))
                          && negb (bool_decide (key x ∈ seen))) xs.
Proof.
  revert seen. induction xs as [|x xs IH]; intros seen Hnd; [reflexivity|].
  cbn [map] in Hnd. apply NoDup_cons in Hnd as [Hx Hnd].
  cbn [emitted List.filter].
  destruct (hit x) as [r|] eqn:Hhit.
  - rewrite (bool_decide_eq_true_2 (is_Some (Some r))) by eauto.
    cbn [andb]. case_bool_decide as Hin; cbn [negb]; [now apply IH|].
    f_equal. rewrite (IH _ Hnd). apply List.filter_ext_in. intros y Hy.
    f_equal. f_equal. apply bool_decide_ext.
    assert (key y <> key x) as Hne.
    { intros Heq. apply Hx. rewrite <- Heq.
      apply list_elem_of_In. now apply List.in_map. }
    set_solver.
  - rewrite (bool_decide_eq_false_2 (is_Some None))
      by (intros [? ?]; discriminate).
    cbn [andb]. now apply IH.
Qed.

(** C1, as amended: the result list is the phrase matches in vocabulary
    order, then the word and synonym matches, then the fingerspelled
    entries; the word and synonym matches are for the tokens that are a
    key or a synonym, in the order in which each token appears first, and
    the fingerspelled entries are for the other tokens that hold a letter,
    in the order in which each appears first: they are not interleaved with
    the word matches but all come after them. *)
Theorem local_match_signs_order (text : string) :
  exists phrases hits spelled,
    local_match_signs text = phrases ++ hits ++ spelled
    /\ Forall is_phrase_match phrases
    /\ map matched_from phrases
       = map JStr
           (List.filter
              (fun k => Py.has_char " " k && Py.contains k (Py.lower text))
              (map fst SIGN_VOCABULARY))
    /\ Forall is_word_match hits
    /\ map matched_from hits
       = map JStr
           (List.filter (fun tok => is_key tok || is_synonym tok)
              (first_occurrences (tokens (Py.lower text))))
    /\ Forall is_fingerspell_fallback spelled
    /\ map matched_from spelled
       = map JStr
           (List.filter
              (fun tok => negb (is_key tok || is_synonym tok) && has_letter tok)
              (first_occurrences (tokens (Py.lower text)))).
Proof.
  eexists _, _, _. split.
  { rewrite after_fingerspell_signs, after_words_signs, after_phrases_signs.
    rewrite <- app_assoc. reflexivity. }
  repeat apply conj.
  - apply Forall_forall. intros r (item & Hin & Hr & _)%emitted_results.
    apply list_elem_of_In in Hin. eapply phrase_hit_match; eauto.
  - rewrite (emitted_matched_from fst _ (phrase_hit_from (Py.lower text))).
    rewrite (emitted_distinct_keys fst _ _ _ table_keys_NoDup).
    rewrite <- filter_map_commute, List.map_map. f_equal.
    apply List.filter_ext. intros [k d]. cbn [fst].
    rewrite (bool_decide_eq_false_2 (k ∈ ∅)) by set_solver.
    cbn [negb]. rewrite andb_true_r. unfold phrase_hit. cbn [fst snd].
    destruct (Py.has_char " " k && Py.contains k (Py.lower text)).
    + apply bool_decide_eq_true_2. eauto.
    + apply bool_decide_eq_false_2. intros [? ?]; discriminate.
  - apply Forall_forall. intros r (tok & _ & Hr & _)%emitted_results.
    eapply word_hit_match; eauto.
  - rewrite (emitted_matched_from id _ word_hit_from).
    rewrite emitted_first_occurrences. unfold id. f_equal.
    apply List.filter_ext_in. intros tok Htok.
    apply first_occurrences_In, list_elem_of_In in Htok.
    rewrite (bool_decide_eq_false_2 (tok ∈ (after_phrases text).2)).
    + cbn [negb]. rewrite andb_true_r.
      pose proof (word_hit_is_Some tok) as Hiff.
      destruct (is_key tok || is_synonym tok).
      * apply bool_decide_eq_true_2. now apply Hiff.
      * apply bool_decide_eq_false_2. intros H. apply Hiff in H.
        discriminate H.
    + intros Hin. apply after_phrases_elem in Hin.
      rewrite (tokens_no_space _ _ Htok) in Hin. discriminate Hin.
  - apply Forall_forall. intros r (tok & _ & Hr & _)%emitted_results.
    exists tok. now apply fingerspell_hit_match.
  - rewrite (emitted_matched_from id _ fingerspell_hit_from).
    rewrite emitted_first_occurrences. unfold id. f_equal.
    apply List.filter_ext_in. intros tok Htok.
    apply first_occurrences_In, list_elem_of_In in Htok.
    pose proof (after_words_elem text tok Htok) as Hcons.
    pose proof (fingerspell_hit_is_Some tok) as Hiff.
    rewrite andb_comm. f_equal.
    + f_equal. destruct (is_key tok || is_synonym tok).
      * apply bool_decide_eq_true_2. now apply Hcons.
      * apply bool_decide_eq_false_2. intros H. apply Hcons in H.
        discriminate H.
    + destruct (has_letter tok).
      * apply bool_decide_eq_true_2. now apply Hiff.
      * apply bool_decide_eq_false_2. intros H. apply Hiff in H.
        discriminate H.
Qed.

(** C10: every result of [local_match_signs] has confidence 1.0, 0.85 or
    0.5, hence a confidence between 0 and 1. *)
Theorem local_match_signs_confidence (text : string) :
  Forall (fun r =>
            (confidence r = JFloat 1.0 \/ confidence r = JFloat 0.85
             \/ confidence r = JFloat 0.5)
            /\ exists q, confidence r = JFloat q /\ (0 <= q <= 1)%Q)
         (local_match_signs text).
Proof.
  destruct (local_match_signs_parts text)
    as (phrases & hits & spelled & -> & Hp & _ & Hw & _ & Hf & _).
  assert (forall r,
            confidence r = JFloat 1.0 \/ confidence r = JFloat 0.85
            \/ confidence r = JFloat 0.5 ->
            exists q, confidence r = JFloat q /\ (0 <= q <= 1)%Q) as Hrange.
  { intros r [-> | [-> | ->]]; eexists; (split; [reflexivity|]);
      split; unfold Qle; simpl; lia. }
  rewrite !Forall_app. repeat split.
  - eapply Forall_impl; [exact Hp|]. intros r Hr.
    apply confidence_of_phrase_match in Hr. split; [|apply Hrange]; auto.
  - eapply Forall_impl; [exact Hw|]. intros r Hr.
    apply confidence_of_word_match in Hr. split; [|apply Hrange]; tauto.
  - eapply Forall_impl; [exact Hf|]. intros r Hr.
    apply confidence_of_fingerspell_fallback in Hr.
    split; [|apply Hrange]; auto.
Qed.

(** ** One result per consumed word *)

Lemma results_for_elem (w : string) (signs : list MatchResult) (r : MatchResult) :
  r ∈ results_for w signs <-> r ∈ signs /\ matched_from r = JStr w.
Proof.
  unfold results_for.
  rewrite !list_elem_of_In, List.filter_In, from_word_iff. reflexivity.
Qed.

(** The number of results matched from a word is 1 when the word ends up
    in [matched_words] and 0 otherwise. *)
Lemma results_for_length (text w : string) :
  length (results_for w (local_match_signs text))
  = if bool_decide (w ∈ (after_fingerspell text).2) then 1%nat else 0%nat.
Proof. apply (after_fingerspell_counted text w). Qed.

Lemma results_for_token_length (text tok : string) :
  tok ∈ tokens (Py.lower text) ->
  length (results_for tok (local_match_signs text))
  = if is_key tok || is_synonym tok || has_letter tok then 1%nat else 0%nat.
Proof.
  intros Htok. rewrite results_for_length.
  pose proof (after_fingerspell_elem text tok Htok) as Hiff.
  destruct (is_key tok || is_synonym tok || has_letter tok).
  - rewrite bool_decide_eq_true_2; [reflexivity|]. now apply Hiff.
  - rewrite bool_decide_eq_false_2; [reflexivity|].
    intros H. apply Hiff in H. discriminate.
Qed.

(** C5, as the claim words it, fails: in the text "7 7" the token "7"
    occurs twice, it is neither a key nor a synonym and holds no letter,
    and the result list is empty, so the token has no result rather than
    exactly one. *)
Lemma repeated_token_has_one_result_fails : ~ repeated_token_has_one_result.
Proof.
  intros Hclaim.
  assert (2 <= List.count_occ string_dec (tokens (Py.lower "7 7")) "7")%nat
    as Hocc by (vm_compute; lia).
  pose proof (Hclaim "7 7" "7" Hocc) as Hone.
  assert (results_for "7" (local_match_signs "7 7") = []) as Hout
    by (vm_compute; reflexivity).
  rewrite Hout in Hone. discriminate Hone.
Qed.

(** C5, as amended: for every token of the input, however often it
    occurs, at most one result is matched from it; there is exactly one
    when the token is a vocabulary key, a synonym of some entry, or holds a
    letter, and none otherwise.  For "yes yes" the result list holds one
    match, for "yes". *)
Theorem repeated_token_matched_once :
  (forall text tok,
     tok ∈ tokens (Py.lower text) ->
     (length (results_for tok (local_match_signs text)) <= 1)%nat
     /\ (length (results_for tok (local_match_signs text)) = 1%nat
         <-> is_key tok || is_synonym tok || has_letter tok = true))
  /\ tokens (Py.lower "yes yes") = ["yes"; "yes"]
  /\ map (fun r => (word (sign r), matched_from r, confidence r))
         (local_match_signs "yes yes")
     = [("yes", JStr "yes", JFloat 1.0)].
Proof.
  split; [|split; vm_compute; reflexivity].
  intros text tok Htok. rewrite (results_for_token_length text tok Htok).
  destruct (is_key tok || is_synonym tok || has_letter tok);
    split; try lia; split; auto; discriminate.
Qed.

Lemma repeated_token_matched_once_witness :
  "yes" ∈ tokens (Py.lower "yes yes")
  /\ (length (results_for "yes" (local_match_signs "yes yes")) <= 1)%nat.
Proof.
  assert ("yes" ∈ tokens (Py.lower "yes yes")) as Htok
    by (apply list_elem_of_In; vm_compute; tauto).
  split; [exact Htok|].
  exact (proj1 (proj1 repeated_token_matched_once "yes yes" "yes" Htok)).
Defined.

(** ** The fingerspell fallback *)

Lemma length_zero_nil {A : Type} (l : list A) : length l = 0%nat -> l = [].
Proof. destruct l; [reflexivity|discriminate]. Qed.

Lemma length_one_singleton {A : Type} (l : list A) :
  length l = 1%nat -> exists a, l = [a].
Proof. destruct l as [|a [|b l]]; try discriminate. eauto. Qed.

(** No entry of the table has the category of fingerspelled results. *)
Lemma table_categories :
  forallb (fun item => negb (String.eqb (category item.2) "fingerspelled"))
          SIGN_VOCABULARY = true.
Proof. vm_compute. reflexivity. Qed.

Lemma table_entry_category (k : string) (d : SignData) :
  In (k, d) SIGN_VOCABULARY -> category d <> "fingerspelled".
Proof.
  intros Hin. pose proof table_categories as Hall.
  rewrite List.forallb_forall in Hall. specialize (Hall (k, d) Hin).
  simpl in Hall. apply negb_true_iff in Hall. now apply String.eqb_neq.
Qed.

Lemma vocabulary_get_In (k : string) (d : SignData) :
  vocabulary_get k = Some d -> exists k', In (k', d) SIGN_VOCABULARY.
Proof.
  unfold vocabulary_get.
  destruct (find _ SIGN_VOCABULARY) as [[k' d']|] eqn:Hfind; [|discriminate].
  intros [= <-]. apply List.find_some in Hfind as [Hin _]. eauto.
Qed.

Lemma first_with_synonym_In (tok k : string) (d : SignData) :
  first_with_synonym tok = Some (k, d) -> In (k, d) SIGN_VOCABULARY.
Proof. intros Hfind. now apply List.find_some in Hfind as [Hin _]. Qed.

(** A result of category "fingerspelled" is an entry of the fallback loop. *)
Lemma fingerspelled_is_fallback (text : string) (r : MatchResult) :
  In r (local_match_signs text) -> category (sign r) = "fingerspelled" ->
  is_fingerspell_fallback r.
Proof.
  destruct (local_match_signs_parts text)
    as (phrases & hits & spelled & -> & Hp & _ & Hw & _ & Hf & _).
  rewrite Forall_forall in Hp, Hw, Hf.
  intros Hin Hcat. apply list_elem_of_In in Hin.
  apply elem_of_app in Hin as [Hin|Hin]; [|apply elem_of_app in Hin as [Hin|Hin]].
  - destruct (Hp r Hin) as (k & d & Hd & _ & ->). simpl in Hcat.
    now destruct (table_entry_category k d Hd).
  - destruct (Hw r Hin) as (tok & d & [(Hd & ->)|(_ & [k Hd] & ->)]);
      simpl in Hcat.
    + apply vocabulary_get_In in Hd as [k' Hd].
      now destruct (table_entry_category k' d Hd).
    + apply first_with_synonym_In in Hd.
      now destruct (table_entry_category k d Hd).
  - now apply Hf.
Qed.

(** C4: a token left unconsumed by the phrase, word and synonym loops has
    exactly one result when it holds a letter, a fingerspelled entry with
    the letters of the token in order and confidence 0.5, and no result
    when it holds no letter; and every fingerspelled entry of the result
    list is for a word that holds a letter, so a token without letters is
    never fingerspelled.  The text "xyzzy123" gives the single
    fingerspelled entry with letters x, y, z, z, y. *)
Theorem fingerspell_fallback :
  (forall text tok,
     tok ∈ tokens (Py.lower text) ->
     tok ∉ (after_words text).2 ->
     (has_letter tok = true ->
      exists r, results_for tok (local_match_signs text) = [r]
                /\ word (sign r) = tok
                /\ category (sign r) = "fingerspelled"
                /\ letters r = Some (letters_of tok)
                /\ confidence r = JFloat 0.5)
     /\ (has_letter tok = false ->
         results_for tok (local_match_signs text) = []))
  /\ (forall text r,
        In r (local_match_signs text) ->
        category (sign r) = "fingerspelled" ->
        has_letter (word (sign r)) = true
        /\ letters r = Some (letters_of (word (sign r)))
        /\ confidence r = JFloat 0.5)
  /\ local_match_signs "xyzzy123"
     = [fingerspelled "xyzzy123" ["x"; "y"; "z"; "z"; "y"]%char 0.5].
Proof.
  split; [|split; [|vm_compute; reflexivity]]; cycle 1.
  { intros text r Hin Hcat.
    destruct (fingerspelled_is_fallback text r Hin Hcat) as (tok & Hl & ->).
    simpl. unfold has_letter. repeat split.
    destruct (letters_of tok); [contradiction|reflexivity]. }
  intros text tok Htok Hfree.
  pose proof (results_for_token_length text tok Htok) as Hlen.
  assert (is_key tok || is_synonym tok = false) as Hno.
  { destruct (is_key tok || is_synonym tok) eqn:E; [|reflexivity].
    apply (after_words_elem text tok Htok) in E. contradiction. }
  rewrite Hno in Hlen. simpl in Hlen.
  split; intros Hl; rewrite Hl in Hlen.
  - apply length_one_singleton in Hlen as [r Hr]. exists r.
    split; [assumption|].
    assert (r ∈ results_for tok (local_match_signs text)) as Hin
      by (rewrite Hr; now left).
    apply results_for_elem in Hin as [Hin Hfrom].
    rewrite after_fingerspell_signs in Hin.
    apply elem_of_app in Hin as [Hin|Hin].
    + exfalso. pose proof (after_words_counted text tok) as Hc.
      rewrite bool_decide_eq_false_2 in Hc by assumption.
      apply length_zero_nil in Hc.
      assert (r ∈ results_for tok (after_words text).1) as Hr2
        by (apply results_for_elem; auto).
      rewrite Hc in Hr2. inversion Hr2.
    + apply emitted_results in Hin as (x & _ & Hx & _).
      pose proof (fingerspell_hit_from x r Hx) as Hfx. unfold id in Hfx.
      assert (x = tok) as -> by congruence.
      apply fingerspell_hit_match in Hx as [_ ->]. simpl. auto.
  - now apply length_zero_nil.
Qed.

Lemma fingerspell_fallback_witness :
  exists r, results_for "xyzzy123" (local_match_signs "xyzzy123") = [r]
            /\ word (sign r) = "xyzzy123"
            /\ category (sign r) = "fingerspelled"
            /\ letters r = Some (letters_of "xyzzy123")
            /\ confidence r = JFloat 0.5.
Proof.
  apply (proj1 fingerspell_fallback "xyzzy123" "xyzzy123").
  - apply list_elem_of_In. vm_compute. tauto.
  - apply (bool_decide_unpack _). vm_compute. exact I.
  - vm_compute. reflexivity.
Defined.

(** ** Keys and synonyms of the table *)

Lemma is_float_eq (q : Q) (v : json) : is_float q v = true -> v = JFloat q.
Proof.
  destruct v as [| | |[n d]| | |]; simpl; try discriminate.
  destruct q as [n' d']. simpl.
  intros [Hn Hd]%andb_true_iff.
  apply Z.eqb_eq in Hn. apply Pos.eqb_eq in Hd. now subst.
Qed.

Lemma all_keys_matched :
  forallb key_matched (map fst SIGN_VOCABULARY) = true.
Proof. vm_compute. reflexivity. Qed.

Lemma all_synonyms_checked :
  forallb (fun item => forallb (synonym_checked item) (synonyms item.2))
          SIGN_VOCABULARY = true.
Proof. vm_compute. reflexivity. Qed.

(** C3: for every key of the table, matching the key itself gives a
    result whose word is the key, with confidence 1.0; and the empty text
    gives the empty list. *)
Theorem vocabulary_key_matched :
  (forall k, In k (map fst SIGN_VOCABULARY) ->
             exists r, In r (local_match_signs k)
                       /\ word (sign r) = k /\ confidence r = JFloat 1.0)
  /\ local_match_signs "" = [].
Proof.
  split; [|vm_compute; reflexivity].
  intros k Hk.
  pose proof all_keys_matched as Hall.
  rewrite List.forallb_forall in Hall. specialize (Hall k Hk).
  unfold key_matched in Hall. apply List.existsb_exists in Hall.
  destruct Hall as (r & Hr & [Hw Hc]%andb_true_iff).
  exists r. repeat split; [assumption| |].
  - now apply String.eqb_eq.
  - now apply is_float_eq.
Qed.

Lemma vocabulary_key_matched_witness :
  exists r, In r (local_match_signs "thank you")
            /\ word (sign r) = "thank you" /\ confidence r = JFloat 1.0.
Proof.
  apply (proj1 vocabulary_key_matched "thank you").
  vm_compute. tauto.
Defined.

Lemma is_key_false (s : string) : vocabulary_get s = None -> is_key s = false.
Proof.
  intros H. unfold is_key. rewrite H.
  apply bool_decide_eq_false_2. intros [? ?]; discriminate.
Qed.

Example local_match_signs_see_you :
  map (fun r => (word (sign r), confidence r)) (local_match_signs "see you")
  = [("see", JFloat 0.5); ("you", JFloat 0.5)].
Proof. vm_compute. reflexivity. Qed.

Example local_match_signs_dark :
  map (fun r => (word (sign r), confidence r)) (local_match_signs "dark")
  = [("night", JFloat 0.85)].
Proof. vm_compute. reflexivity. Qed.

(** C2, as the claim words it, fails at both inputs it names: "see you",
    a synonym of "goodbye", is split in the tokens "see" and "you", which
    are fingerspelled; and "dark", a synonym of both "night" and "black",
    brings up "night" only, the first of the two in the table. *)
Lemma every_synonym_matches_fails :
  ~ every_synonym_matches
  /\ (exists e, vocabulary_get "goodbye" = Some e
                /\ ~ synonym_matches "goodbye" e "see you")
  /\ (exists e, vocabulary_get "black" = Some e
                /\ ~ synonym_matches "black" e "dark").
Proof.
  assert (exists e, vocabulary_get "goodbye" = Some e
                    /\ ~ synonym_matches "goodbye" e "see you") as Hsee.
  { eexists. split; [vm_compute; reflexivity|].
    intros Hclaim. destruct Hclaim as (r & Hr & _ & Hc).
    - vm_compute. tauto.
    - vm_compute. tauto.
    - vm_compute. reflexivity.
    - pose proof local_match_signs_see_you as Hout.
      destruct (local_match_signs "see you") as [|r1 [|r2 [|r3 rest]]];
        try discriminate Hout.
      injection Hout as _ H1 _ H2.
      destruct Hr as [<-|[<-|[]]]; congruence. }
  split; [|split; [exact Hsee|]].
  - intros Hall. destruct Hsee as (e & _ & Hno). apply Hno, Hall.
  - eexists. split; [vm_compute; reflexivity|].
    intros Hclaim. destruct Hclaim as (r & Hr & Hs & _).
    + vm_compute. tauto.
    + vm_compute. tauto.
    + vm_compute. reflexivity.
    + pose proof local_match_signs_dark as Hout.
      destruct (local_match_signs "dark") as [|r1 [|r2 rest]];
        try discriminate Hout.
      injection Hout as H1 _.
      destruct Hr as [<-|[]]. rewrite Hs in H1. discriminate H1.
Qed.

(** C2, as amended: for every entry [e] of the table and every synonym [s]
    of [e] that is not itself a key, holds no space, and is listed by no
    earlier entry of the table, [local_match_signs(s)] is the single result
    with the fields of [e], confidence 0.85 and [matched_from] equal to
    [s]. *)
Theorem single_word_synonym_matched (k : string) (e : SignData) (s : string) :
  In (k, e) SIGN_VOCABULARY -> In s (synonyms e) ->
  vocabulary_get s = None ->
  Py.has_char " " s = false ->
  (exists e', first_with_synonym s = Some (k, e')) ->
  exists r, local_match_signs s = [r]
            /\ sign r = e /\ confidence r = JFloat 0.85
            /\ matched_from r = JStr s.
Proof.
  intros Hin Hs Hkey Hsp [e' Hfirst].
  pose proof all_synonyms_checked as Hall.
  rewrite List.forallb_forall in Hall. specialize (Hall (k, e) Hin).
  rewrite List.forallb_forall in Hall. specialize (Hall s Hs).
  unfold synonym_checked, first_listing in Hall. simpl in Hall.
  rewrite (is_key_false s Hkey), Hsp, Hfirst, String.eqb_refl in Hall.
  simpl in Hall. unfold synonym_matched_alone in Hall.
  destruct (local_match_signs s) as [|r [|r' rest]]; try discriminate Hall.
  apply andb_true_iff in Hall as [[He Hc]%andb_true_iff Hf].
  exists r. repeat split.
  - now apply bool_decide_eq_true in He.
  - now apply is_float_eq.
  - now apply from_word_iff.
Qed.

Lemma single_word_synonym_matched_witness :
  exists e r, vocabulary_get "hello" = Some e
              /\ local_match_signs "hi" = [r]
              /\ sign r = e /\ confidence r = JFloat 0.85
              /\ matched_from r = JStr "hi".
Proof.
  eexists.
  refine (match single_word_synonym_matched "hello" _ "hi" _ _ _ _ _ with
          | ex_intro _ r H => ex_intro _ r (conj _ H)
          end).
  - vm_compute. left. reflexivity.
  - vm_compute. tauto.
  - vm_compute. reflexivity.
  - vm_compute. reflexivity.
  - eexists. vm_compute. reflexivity.
  - vm_compute. reflexivity.
Defined.

(** ** Phrases do not consume their tokens *)

(** C9: the phrase loop consumes no token, so an entry can come up more
    than once: for "good morning" the result list is the "good morning"
    entry with confidence 1.0 (phrase), the "good" entry with confidence
    1.0 (word), and the "good morning" entry again with confidence 0.85
    (the token "morning" is one of its synonyms). *)
Theorem phrase_leaves_tokens :
  (forall text tok,
     tok ∈ tokens (Py.lower text) -> tok ∉ (after_phrases text).2)
  /\ exists good_morning good,
       vocabulary_get "good morning" = Some good_morning
       /\ vocabulary_get "good" = Some good
       /\ local_match_signs "good morning"
          = [vocabulary_match good_morning (JFloat 1.0) (JStr "good morning");
             vocabulary_match good (JFloat 1.0) (JStr "good");
             vocabulary_match good_morning (JFloat 0.85) (JStr "morning")].
Proof.
  split.
  - intros text tok Htok Hin. apply after_phrases_elem in Hin.
    rewrite (tokens_no_space _ _ Htok) in Hin. discriminate Hin.
  - eexists _, _. repeat split; vm_compute; reflexivity.
Qed.

Lemma phrase_leaves_tokens_witness :
  "morning" ∈ tokens (Py.lower "good morning")
  /\ "morning" ∉ (after_phrases "good morning").2.
Proof.
  assert ("morning" ∈ tokens (Py.lower "good morning")) as Htok
    by (apply list_elem_of_In; vm_compute; tauto).
  split; [exact Htok|].
  exact (proj1 phrase_leaves_tokens "good morning" "morning" Htok).
Defined.

(** ** The remote matcher *)

Lemma eqb_empty_false (s : string) : s <> "" -> String.eqb s "" = false.
Proof. intros H. now apply String.eqb_neq. Qed.

(** The try block sends exactly one prompt. *)
Lemma gemini_try_sent (env : Env) (text : string) :
  (gemini_try env text).1 = [prompt_for get_vocabulary_list text].
Proof. reflexivity. Qed.

Lemma gemini_match_signs_sent (env : Env) (text : string) :
  (length (gemini_match_signs env text).1 <= 1)%nat.
Proof.
  unfold gemini_match_signs.
  destruct (String.eqb (GEMINI_API_KEY env) ""); simpl; lia.
Qed.

(** [gemini_match_signs] returns a list and no error, or no list and a
    reason. *)
Lemma gemini_match_signs_outcome (env : Env) (text : string) :
  (exists signs, (gemini_match_signs env text).2 = (Some signs, None))
  \/ (exists reason, (gemini_match_signs env text).2 = (None, Some reason)).
Proof.
  unfold gemini_match_signs.
  destruct (String.eqb (GEMINI_API_KEY env) ""); simpl; [right; eauto|].
  destruct (generate_content env _) as [[msg|msg]|reply]; simpl;
    [right; eauto|right; eauto|].
  destruct (json_loads env _); simpl; [right; eauto|].
  destruct (try! items := iterate _ in enrich_matches items [])
    as [[msg|msg]|signs]; [right|right|left]; eauto.
Qed.

(** The requests that pass validation and do not force fingerspelling. *)
Lemma match_signs_matching (env : Env) (req : Request)
    (data : list (string * json)) (t : string) :
  is_json req = true -> get_json req = inr (JObj data) ->
  dict_get "text" data = Some (JStr t) -> Py.strip t <> "" ->
  truthy (dict_get_default "force_fingerspell" (JBool false) data) = false ->
  let text := Py.take 2000 (Py.strip t) in
  match_signs env req
  = if truthy (dict_get_default "use_ai" (JBool true) data)
       && negb (String.eqb (GEMINI_API_KEY env) "")
    then
      match (gemini_match_signs env text).2.1 with
      | None => ((gemini_match_signs env text).1, local_response env text)
      | Some signs =>
          ((gemini_match_signs env text).1,
           match_response (enriched env signs) "gemini" text)
      end
    else ([], local_response env text).
Proof.
  intros Hjson Hget Htext Hstrip Hforce. unfold match_signs.
  rewrite Hjson, Hget, Htext, (eqb_empty_false _ Hstrip), Hforce. simpl.
  destruct (truthy _ && negb _); [|reflexivity].
  destruct (gemini_match_signs env _) as [sent [[signs|] error]]; reflexivity.
Qed.

(** C6: without a credential the remote matcher returns no list and a
    reason, and sends nothing; a call that raises, whatever the class of
    the exception, an undecodable reply and a reply of the wrong shape all
    give no list and the error detail, worded after the class of the
    exception; in every case the outcome is a list or a reason, never an
    exception; and when the remote matcher gives no list, the handler
    answers with the local matcher's result under the method "local".  At
    most one prompt is ever sent for a request. *)
Theorem remote_matcher_falls_back :
  (forall env text,
     GEMINI_API_KEY env = "" ->
     gemini_match_signs env text = ([], (None, Some "No API key configured")))
  /\ (forall env text msg,
        GEMINI_API_KEY env <> "" ->
        generate_content env (prompt_for get_vocabulary_list text)
        = inl (OtherException msg) ->
        gemini_match_signs env text
        = ([prompt_for get_vocabulary_list text],
           (None, Some ("Gemini API error: " +:+ msg))))
  /\ (forall env text msg,
        GEMINI_API_KEY env <> "" ->
        generate_content env (prompt_for get_vocabulary_list text)
        = inl (JSONDecodeError msg) ->
        gemini_match_signs env text
        = ([prompt_for get_vocabulary_list text],
           (None, Some ("Failed to parse Gemini response: " +:+ msg))))
  /\ (forall env text reply msg,
        GEMINI_API_KEY env <> "" ->
        generate_content env (prompt_for get_vocabulary_list text) = inr reply ->
        json_loads env (strip_code_fence (Py.strip reply)) = inl msg ->
        gemini_match_signs env text
        = ([prompt_for get_vocabulary_list text],
           (None, Some ("Failed to parse Gemini response: " +:+ msg))))
  /\ (forall env text reply matches msg,
        GEMINI_API_KEY env <> "" ->
        generate_content env (prompt_for get_vocabulary_list text) = inr reply ->
        json_loads env (strip_code_fence (Py.strip reply)) = inr matches ->
        (try! items := iterate matches in enrich_matches items [])
        = inl (OtherException msg) ->
        gemini_match_signs env text
        = ([prompt_for get_vocabulary_list text],
           (None, Some ("Gemini API error: " +:+ msg))))
  /\ (forall env text,
        (exists signs, (gemini_match_signs env text).2 = (Some signs, None))
        \/ (exists reason, (gemini_match_signs env text).2 = (None, Some reason)))
  /\ (forall env req data t,
        is_json req = true -> get_json req = inr (JObj data) ->
        dict_get "text" data = Some (JStr t) -> Py.strip t <> "" ->
        truthy (dict_get_default "force_fingerspell" (JBool false) data) = false ->
        (gemini_match_signs env (Py.take 2000 (Py.strip t))).2.1 = None ->
        exists sent,
          match_signs env req
          = (sent,
             match_response
               (enriched env (local_match_signs (Py.take 2000 (Py.strip t))))
               "local" (Py.take 2000 (Py.strip t)))
          /\ (length sent <= 1)%nat)
  /\ (forall env req, (length (match_signs env req).1 <= 1)%nat).
Proof.
  repeat apply conj.
  - intros env text Hkey. unfold gemini_match_signs. now rewrite Hkey.
  - intros env text msg Hkey Hcall. unfold gemini_match_signs, gemini_try.
    now rewrite (eqb_empty_false _ Hkey), Hcall.
  - intros env text msg Hkey Hcall. unfold gemini_match_signs, gemini_try.
    now rewrite (eqb_empty_false _ Hkey), Hcall.
  - intros env text reply msg Hkey Hcall Hparse.
    unfold gemini_match_signs, gemini_try.
    now rewrite (eqb_empty_false _ Hkey), Hcall, Hparse.
  - intros env text reply matches msg Hkey Hcall Hparse Hloop.
    unfold gemini_match_signs, gemini_try.
    now rewrite (eqb_empty_false _ Hkey), Hcall, Hparse, Hloop.
  - apply gemini_match_signs_outcome.
  - intros env req data t Hjson Hget Htext Hstrip Hforce Hnone.
    rewrite (match_signs_matching env req data t Hjson Hget Htext Hstrip Hforce).
    cbv zeta. destruct (truthy _ && negb _).
    + rewrite Hnone. eexists. split; [reflexivity|].
      apply gemini_match_signs_sent.
    + eexists. split; [reflexivity|]. simpl. lia.
  - intros env req. unfold match_signs.
    destruct (is_json req); simpl; [|lia].
    destruct (get_json req) as [msg|[| | | | | |data]]; simpl; try lia.
    destruct (dict_get "text" data) as [[| | | |t| |]|]; simpl; try lia.
    destruct (String.eqb (Py.strip t) ""); simpl; [lia|].
    destruct (truthy (dict_get_default "force_fingerspell" _ data)); simpl; [lia|].
    destruct (truthy _ && negb _); simpl; [|lia].
    pose proof (gemini_match_signs_sent env (Py.take 2000 (Py.strip t))) as Hs.
    destruct (gemini_match_signs env _) as [sent [[signs|] error]]; exact Hs.
Qed.

Lemma remote_matcher_falls_back_witness :
  let env := {| GEMINI_API_KEY := "k";
                generate_content := fun _ => inl (OtherException "timed out");
                json_loads := fun _ => inl "no value";
                VIDEOS_DIR := NoDirectory;
                url_for := fun fn => "/videos/" +:+ fn |} in
  exists sent,
    match_signs env (json_request [("text", JStr "hello")])
    = (sent, match_response (enriched env (local_match_signs "hello"))
               "local" "hello")
    /\ (length sent <= 1)%nat.
Proof.
  intros env.
  destruct remote_matcher_falls_back as (_ & _ & _ & _ & _ & _ & Hlocal & _).
  apply (Hlocal env (json_request [("text", JStr "hello")])
           [("text", JStr "hello")] "hello").
  - reflexivity.
  - reflexivity.
  - reflexivity.
  - vm_compute. discriminate.
  - reflexivity.
  - vm_compute. reflexivity.
Defined.

(** ** Media enrichment *)

Lemma add_video_urls_fields (url : string -> string)
    (files : gmap string string) (r : MatchResult) :
  match_fields (add_video_urls url files r) = match_fields r.
Proof.
  unfold add_video_urls.
  destruct (files !! _); simpl;
    (destruct (String.eqb _ "fingerspelled"); [destruct (any_url _)|]);
    reflexivity.
Qed.

(** The enrichment step keeps the results, their order and their matching
    fields. *)
Lemma enriched_fields (env : Env) (signs : list MatchResult) :
  map match_fields (enriched env signs) = map match_fields signs.
Proof.
  unfold enriched, add_video_urls_to_signs.
  destruct (VIDEOS_DIR env); try reflexivity.
  rewrite List.map_map. apply List.map_ext. apply add_video_urls_fields.
Qed.

(** ** Forced fingerspelling *)

Lemma alnum_not_space (c : ascii) :
  Py.isalnum_ascii c = true -> Py.isspace c = false.
Proof.
  destruct c as [[] [] [] [] [] [] [] []]; vm_compute;
    first [reflexivity | discriminate].
Qed.

Lemma filter_all {A : Type} (f : A -> bool) (l : list A) :
  Forall (fun a => f a = true) l -> List.filter f l = l.
Proof.
  induction 1 as [|a l Ha _ IH]; simpl; [reflexivity|].
  now rewrite Ha, IH.
Qed.

(** The words of the forced-fingerspelling branch are the maximal runs of
    ASCII letters and digits. *)
Lemma fingerspell_words_runs (text : string) :
  fingerspell_words text = alnum_runs text.
Proof.
  unfold fingerspell_words, alnum_runs, Py.split, sub_non_alnum.
  rewrite split_from_runs.
  rewrite (runs_from_map_chars Py.isalnum_ascii).
  - apply filter_all.
    eapply Forall_impl; [apply runs_from_all; reflexivity|].
    intros t [Hne _]. simpl. now rewrite (proj2 (String.eqb_neq t "") Hne).
  - intros c Hc. rewrite Hc. simpl. split; [reflexivity|].
    now apply alnum_not_space.
  - intros c Hc. rewrite Hc. simpl.
    destruct (Py.isspace c) eqn:Hs; [assumption|reflexivity].
Qed.

Lemma fold_force_step (ws : list string) (signs : list MatchResult) :
  fold_left force_step ws signs
  = signs ++ map (fun w => fingerspelled w (letters_of w) 1.0)
                 (List.filter has_letter ws).
Proof.
  revert signs. induction ws as [|w ws IH]; intros signs; simpl.
  - now rewrite app_nil_r.
  - rewrite IH. unfold force_step, has_letter, letters_of.
    destruct (Py.chars_where Py.isalpha w) eqn:Hw; [reflexivity|].
    simpl. rewrite <- app_assoc. simpl. unfold letters_of. now rewrite Hw.
Qed.

(** C8: with [force_fingerspell] set, the handler sends nothing to the
    remote matcher and answers 200 with the method "fingerspell" and the
    text of the request without the whitespace at its two ends and cut at
    2000 characters; the answer holds one fingerspelled entry of confidence
    1.0 for each maximal run of ASCII letters and digits of that text that
    holds a letter, in order, with the letters of the run; runs of digits
    alone give no entry.  For the text "hello" the answer holds the single
    entry for "hello", although "hello" is a key of the vocabulary. *)
Theorem forced_fingerspelling :
  (forall env req data t core text,
     is_json req = true -> get_json req = inr (JObj data) ->
     dict_get "text" data = Some (JStr t) ->
     trimmed t core -> core <> "" -> cut_at 2000 core text ->
     truthy (dict_get_default "force_fingerspell" (JBool false) data) = true ->
     exists signs,
       match_signs env req
       = ([], {| status := 200; resp_signs := Some signs;
                 resp_method := Some "fingerspell"; resp_error := None;
                 resp_text := Some text |})
       /\ map match_fields signs
          = map (fingerspelled_fields 1.0)
                (List.filter has_letter (alnum_runs text)))
  /\ (forall env,
        exists r,
          match_signs env
            (json_request [("text", JStr "hello");
                           ("force_fingerspell", JBool true)])
          = ([], {| status := 200; resp_signs := Some [r];
                    resp_method := Some "fingerspell"; resp_error := None;
                    resp_text := Some "hello" |})
          /\ word (sign r) = "hello"
          /\ category (sign r) = "fingerspelled"
          /\ letters r = Some ["h"; "e"; "l"; "l"; "o"]%char
          /\ confidence r = JFloat 1.0).
Proof.
  assert (forall env req data t core text,
     is_json req = true -> get_json req = inr (JObj data) ->
     dict_get "text" data = Some (JStr t) ->
     trimmed t core -> core <> "" -> cut_at 2000 core text ->
     truthy (dict_get_default "force_fingerspell" (JBool false) data) = true ->
     exists signs,
       match_signs env req
       = ([], {| status := 200; resp_signs := Some signs;
                 resp_method := Some "fingerspell"; resp_error := None;
                 resp_text := Some text |})
       /\ map match_fields signs
          = map (fingerspelled_fields 1.0)
                (List.filter has_letter (alnum_runs text))) as Hgen.
  { intros env req data t core text Hjson Hget Htext Htrim Hcore Hcut Hforce.
    apply trimmed_strip in Htrim. apply cut_at_take in Hcut.
    rewrite <- Htrim in Hcore, Hcut. rewrite <- Hcut.
    eexists. split.
    - unfold match_signs.
      rewrite Hjson, Hget, Htext, (eqb_empty_false _ Hcore), Hforce.
      reflexivity.
    - rewrite enriched_fields, fold_force_step, fingerspell_words_runs.
      simpl. rewrite List.map_map. reflexivity. }
  split; [exact Hgen|].
  intros env.
  destruct (Hgen env
              (json_request [("text", JStr "hello");
                             ("force_fingerspell", JBool true)])
              [("text", JStr "hello"); ("force_fingerspell", JBool true)]
              "hello" "hello" "hello")
    as (signs & Hresp & Hfields);
    [reflexivity|reflexivity|reflexivity| |discriminate| |reflexivity|].
  { exists "", "". repeat split; try reflexivity; intros c [= <-]; reflexivity. }
  { split; [exists ""; reflexivity|reflexivity]. }
  assert (List.filter has_letter (alnum_runs "hello") = ["hello"]) as Hruns
    by (vm_compute; reflexivity).
  rewrite Hruns in Hfields. simpl in Hfields.
  destruct signs as [|r [|r' rest]]; try discriminate Hfields.
  exists r. split; [exact Hresp|].
  injection Hfields as Hs Hl Hc _. rewrite Hs, Hl, Hc.
  repeat split; vm_compute; reflexivity.
Qed.

Lemma forced_fingerspelling_witness :
  let env := {| GEMINI_API_KEY := "k";
                generate_content := fun _ => inr "[]";
                json_loads := fun _ => inr (JArr []);
                VIDEOS_DIR := Listing ["a.mp4"; "B.MP4"];
                url_for := fun fn => "/videos/" +:+ fn |} in
  exists signs,
    match_signs env
      (json_request [("text", JStr "  ab, 42 c3!  "); ("force_fingerspell", JInt 1)])
    = ([], {| status := 200; resp_signs := Some signs;
              resp_method := Some "fingerspell"; resp_error := None;
              resp_text := Some "ab, 42 c3!" |})
    /\ map match_fields signs = map (fingerspelled_fields 1.0) ["ab"; "c3"].
Proof.
  intros env.
  destruct (proj1 forced_fingerspelling env
              (json_request [("text", JStr "  ab, 42 c3!  ");
                             ("force_fingerspell", JInt 1)])
              [("text", JStr "  ab, 42 c3!  "); ("force_fingerspell", JInt 1)]
              "  ab, 42 c3!  " "ab, 42 c3!" "ab, 42 c3!")
    as (signs & Hresp & Hfields).
  - reflexivity.
  - reflexivity.
  - reflexivity.
  - exists "  ", "  ".
    repeat split; try reflexivity; intros c [= <-]; reflexivity.
  - discriminate.
  - split; [exists ""; reflexivity|reflexivity].
  - reflexivity.
  - exists signs. split; [exact Hresp|].
    rewrite Hfields. vm_compute. reflexivity.
Defined.

(** ** Validation *)




(** * Further properties *)

(** ** The table *)

Lemma find_unique_key {V : Type} (l : list (string * V)) (k : string) (v : V) :
  NoDup (map fst l) -> In (k, v) l ->
  find (fun item => String.eqb item.1 k) l = Some (k, v).
Proof.
  induction l as [|[k' v'] l IH]; simpl; [contradiction|].
  intros Hnd [Heq|Hin].
  - injection Heq as -> ->. now rewrite String.eqb_refl.
  - apply NoDup_cons in Hnd as [Hk' Hnd].
    destruct (String.eqb_spec k' k) as [->|Hne]; [|now apply IH].
    exfalso. apply Hk'. apply list_elem_of_In.
    apply (List.in_map fst) in Hin. exact Hin.
Qed.

(** An entry of the table is what its key looks up. *)
Lemma vocabulary_get_entry (k : string) (d : SignData) :
  In (k, d) SIGN_VOCABULARY -> vocabulary_get k = Some d.
Proof.
  intros Hin. unfold vocabulary_get.
  now rewrite (find_unique_key _ k d table_keys_NoDup Hin).
Qed.

(** ** What each word of the input brings up *)

Lemma phrase_hit_is_Some (text_lower : string) (item : string * SignData) :
  is_Some (phrase_hit text_lower item)
  <-> Py.has_char " " item.1 = true /\ Py.contains item.1 text_lower = true.
Proof.
  unfold phrase_hit.
  destruct (Py.has_char " " item.1), (Py.contains item.1 text_lower); simpl;
    split; try (intros [? ?]; discriminate); eauto.
Qed.

Lemma after_words_elem_any (text w : string) :
  w ∈ (after_words text).2
  <-> w ∈ (after_phrases text).2
      \/ (w ∈ tokens (Py.lower text) /\ is_Some (word_hit w)).
Proof.
  rewrite after_words_emit, fold_emit_step_elem. unfold id.
  split; (intros [H|H]; [now left|right]).
  - destruct H as (x & Hx & Hh & <-). auto.
  - destruct H as [Hx Hh]. eauto.
Qed.

Lemma after_fingerspell_elem_any (text w : string) :
  w ∈ (after_fingerspell text).2
  <-> w ∈ (after_words text).2
      \/ (w ∈ tokens (Py.lower text) /\ is_Some (fingerspell_hit w)).
Proof.
  rewrite after_fingerspell_emit, fold_emit_step_elem. unfold id.
  split; (intros [H|H]; [now left|right]).
  - destruct H as (x & Hx & Hh & <-). auto.
  - destruct H as [Hx Hh]. eauto.
Qed.

(** Where a result matched from [w] can come from. *)
Lemma result_origin (text w : string) (r : MatchResult) :
  In r (local_match_signs text) -> matched_from r = JStr w ->
  (exists item, In item SIGN_VOCABULARY /\ item.1 = w
                /\ phrase_hit (Py.lower text) item = Some r)
  \/ (w ∈ tokens (Py.lower text) /\ word_hit w = Some r)
  \/ (w ∈ tokens (Py.lower text) /\ (w ∉ (after_words text).2)
      /\ fingerspell_hit w = Some r).
Proof.
  intros Hin Hfrom. apply list_elem_of_In in Hin.
  rewrite after_fingerspell_signs, after_words_signs, after_phrases_signs in Hin.
  apply elem_of_app in Hin as [Hin|Hin]; [apply elem_of_app in Hin as [Hin|Hin]|].
  - apply emitted_results in Hin as (item & Hitem & Hhit & _).
    left. exists item. apply list_elem_of_In in Hitem.
    pose proof (phrase_hit_from _ _ _ Hhit) as Hf.
    repeat split; [assumption|congruence|assumption].
  - apply emitted_results in Hin as (x & Hx & Hhit & _).
    pose proof (word_hit_from _ _ Hhit) as Hf. unfold id in Hf.
    assert (x = w) as -> by congruence. right. left. auto.
  - apply emitted_results in Hin as (x & Hx & Hhit & Hfree).
    pose proof (fingerspell_hit_from _ _ Hhit) as Hf. unfold id in *.
    assert (x = w) as -> by congruence. right. right. auto.
Qed.

Lemma results_for_singleton (text w : string) (r : MatchResult) :
  In r (local_match_signs text) -> matched_from r = JStr w ->
  results_for w (local_match_signs text) = [r].
Proof.
  intros Hin Hfrom.
  assert (r ∈ results_for w (local_match_signs text)) as Hr.
  { apply results_for_elem. split; [now apply list_elem_of_In|assumption]. }
  pose proof (results_for_length text w) as Hlen.
  destruct (results_for w (local_match_signs text)) as [|r1 [|r2 rest]].
  - inversion Hr.
  - apply list_elem_of_singleton in Hr. now subst.
  - exfalso. destruct (bool_decide _) in Hlen; discriminate Hlen.
Qed.

Lemma results_for_none (text w : string) :
  w ∉ (after_fingerspell text).2 ->
  results_for w (local_match_signs text) = [].
Proof.
  intros Hw. apply length_zero_nil. rewrite results_for_length.
  now rewrite bool_decide_eq_false_2.
Qed.

(** Every word in [matched_words] has its result in the list. *)
Lemma results_for_some (text w : string) :
  w ∈ (after_fingerspell text).2 ->
  exists r, results_for w (local_match_signs text) = [r].
Proof.
  intros Hw. apply length_one_singleton. rewrite results_for_length.
  now rewrite bool_decide_eq_true_2.
Qed.

(** X1: the result for a token follows the order of the three lookups: a
    token that is a key brings up its own entry with confidence 1.0, even
    when it is also a synonym of another entry; otherwise the first entry
    that lists it as a synonym, with confidence 0.85; otherwise a
    fingerspelled entry when it holds a letter, and nothing when it does
    not. *)
Theorem token_result (text tok : string) :
  tok ∈ tokens (Py.lower text) ->
  results_for tok (local_match_signs text)
  = match vocabulary_get tok with
    | Some d => [vocabulary_match d (JFloat 1.0) (JStr tok)]
    | None =>
        match first_with_synonym tok with
        | Some (_, d) => [vocabulary_match d (JFloat 0.85) (JStr tok)]
        | None =>
            if has_letter tok then [fingerspelled tok (letters_of tok) 0.5]
            else []
        end
    end.
Proof.
  intros Htok.
  assert (forall r, results_for tok (local_match_signs text) = [r] ->
                    word_hit tok = Some r
                    \/ (word_hit tok = None /\ fingerspell_hit tok = Some r))
    as Horigin.
  { intros r Hr.
    assert (r ∈ results_for tok (local_match_signs text)) as Hin
      by (rewrite Hr; now left).
    apply results_for_elem in Hin as [Hin Hfrom].
    apply list_elem_of_In in Hin.
    destruct (result_origin text tok r Hin Hfrom)
      as [(item & _ & Hk & Hhit)|[[_ Hhit]|(_ & Hfree & Hhit)]].
    - assert (is_Some (phrase_hit (Py.lower text) item)) as Hs by eauto.
      apply phrase_hit_is_Some in Hs as [Hsp _]. rewrite Hk in Hsp.
      rewrite (tokens_no_space _ _ Htok) in Hsp. discriminate Hsp.
    - now left.
    - right. split; [|assumption].
      destruct (word_hit tok) eqn:Hw; [|reflexivity].
      exfalso. apply Hfree. apply after_words_elem_any. right. eauto. }
  pose proof (results_for_token_length text tok Htok) as Hlen.
  pose proof (word_hit_is_Some tok) as Hword.
  pose proof (fingerspell_hit_is_Some tok) as Hspell.
  destruct (is_key tok || is_synonym tok) eqn:Hks; simpl in Hlen.
  - apply length_one_singleton in Hlen as [r Hr]. rewrite Hr.
    destruct (Horigin r Hr) as [Hw|[Hw _]].
    + unfold word_hit in Hw.
      destruct (vocabulary_get tok);
        [|destruct (first_with_synonym tok) as [[k d]|]];
        congruence.
    + destruct (proj2 Hword eq_refl) as [r' Hr']. congruence.
  - assert (word_hit tok = None) as Hnone.
    { destruct (word_hit tok) eqn:Hw; [|reflexivity].
      assert (false = true) as Habs by (apply Hword; eauto).
      discriminate Habs. }
    pose proof Hnone as Hnone'. unfold word_hit in Hnone'.
    destruct (vocabulary_get tok); [discriminate Hnone'|].
    destruct (first_with_synonym tok) as [[k d]|]; [discriminate Hnone'|].
    destruct (has_letter tok) eqn:Hl.
    + apply length_one_singleton in Hlen as [r Hr]. rewrite Hr.
      destruct (Horigin r Hr) as [Hw|[_ Hf]]; [congruence|].
      apply fingerspell_hit_match in Hf as [_ ->]. reflexivity.
    + now apply length_zero_nil.
Qed.

Lemma token_result_witness :
  results_for "night" (local_match_signs "Good night?")
  = match vocabulary_get "night" with
    | Some d => [vocabulary_match d (JFloat 1.0) (JStr "night")]
    | None => []
    end.
Proof.
  rewrite (token_result "Good night?" "night").
  - vm_compute. reflexivity.
  - apply list_elem_of_In. vm_compute. tauto.
Defined.

(** X2: a key that holds a space has a result exactly when it occurs in the
    lowered text as a substring, word boundaries or not; the result is the
    entry of the key with confidence 1.0, once, however often the phrase
    occurs. *)
Theorem phrase_result (text k : string) (d : SignData) :
  In (k, d) SIGN_VOCABULARY -> Py.has_char " " k = true ->
  results_for k (local_match_signs text)
  = if Py.contains k (Py.lower text)
    then [vocabulary_match d (JFloat 1.0) (JStr k)]
    else [].
Proof.
  intros Hin Hsp.
  assert (k ∉ tokens (Py.lower text)) as Hntok.
  { intros Htok. rewrite (tokens_no_space _ _ Htok) in Hsp. discriminate Hsp. }
  assert (k ∈ (after_fingerspell text).2
          <-> Py.contains k (Py.lower text) = true) as Hmem.
  { rewrite after_fingerspell_elem_any, after_words_elem_any.
    rewrite after_phrases_emit, fold_emit_step_elem. simpl. split.
    - intros [[[H|(item & _ & Hs & Hk)]|[H _]]|[H _]];
        try contradiction; [set_solver|].
      apply phrase_hit_is_Some in Hs as [_ Hc]. now rewrite Hk in Hc.
    - intros Hc. left. left. right. exists (k, d).
      split; [now apply list_elem_of_In|]. split; [|reflexivity].
      apply phrase_hit_is_Some. auto. }
  destruct (Py.contains k (Py.lower text)) eqn:Hc.
  - destruct (results_for_some text k (proj2 Hmem eq_refl)) as [r Hr].
    rewrite Hr. f_equal.
    assert (r ∈ results_for k (local_match_signs text)) as Hr'
      by (rewrite Hr; now left).
    apply results_for_elem in Hr' as [Hr' Hfrom].
    apply list_elem_of_In in Hr'.
    destruct (result_origin text k r Hr' Hfrom)
      as [([k' d'] & Hitem & Hk & Hhit)|[[Htok _]|(Htok & _)]];
      try contradiction.
    simpl in Hk. subst k'.
    pose proof (vocabulary_get_entry k d Hin) as H1.
    pose proof (vocabulary_get_entry k d' Hitem) as H2.
    assert (d' = d) as -> by congruence.
    unfold phrase_hit in Hhit. simpl in Hhit. rewrite Hsp, Hc in Hhit.
    simpl in Hhit. congruence.
  - apply results_for_none. intros H. apply Hmem in H. discriminate H.
Qed.

Lemma phrase_result_witness :
  exists d, vocabulary_get "i know" = Some d
            /\ results_for "i know" (local_match_signs "Hi knowledge")
               = [vocabulary_match d (JFloat 1.0) (JStr "i know")].
Proof.
  eexists. split; [vm_compute; reflexivity|].
  match goal with
  | |- _ = [vocabulary_match ?d _ _] =>
      rewrite (phrase_result "Hi knowledge" "i know" d)
  end.
  - vm_compute. reflexivity.
  - vm_compute. tauto.
  - vm_compute. reflexivity.
Defined.

(** ** The result list as a whole *)

Lemma matched_from_is_word (text : string) (r : MatchResult) :
  In r (local_match_signs text) -> exists w, matched_from r = JStr w.
Proof.
  destruct (local_match_signs_parts text)
    as (phrases & hits & spelled & -> & Hp & _ & Hw & _ & Hf & _).
  rewrite Forall_forall in Hp, Hw, Hf.
  intros Hin. apply list_elem_of_In in Hin.
  apply elem_of_app in Hin as [Hin|Hin]; [|apply elem_of_app in Hin as [Hin|Hin]].
  - destruct (Hp r Hin) as (k & d & _ & _ & ->). eauto.
  - destruct (Hw r Hin) as (tok & d & [(_ & ->)|(_ & _ & ->)]); eauto.
  - destruct (Hf r Hin) as (tok & _ & ->). eauto.
Qed.

Lemma NoDup_matched_from (l : list MatchResult) :
  (forall r, In r l -> exists w, matched_from r = JStr w) ->
  (forall w, (length (results_for w l) <= 1)%nat) ->
  NoDup (map matched_from l).
Proof.
  induction l as [|r l IH]; intros Hstr Hcount; simpl; [constructor|].
  destruct (Hstr r (or_introl eq_refl)) as [w Hw].
  constructor.
  - intros Hin. apply list_elem_of_In, List.in_map_iff in Hin
      as (r' & Hfrom & Hr').
    specialize (Hcount w). unfold results_for in Hcount. simpl in Hcount.
    rewrite (proj2 (from_word_iff w r) Hw) in Hcount. simpl in Hcount.
    assert (In r' (List.filter (from_word w) l)) as Hin'.
    { apply List.filter_In. split; [assumption|].
      apply from_word_iff. congruence. }
    destruct (List.filter (from_word w) l); [contradiction|].
    simpl in Hcount. lia.
  - apply IH.
    + intros r' Hr'. apply Hstr. now right.
    + intros w'. specialize (Hcount w'). unfold results_for in *.
      simpl in Hcount. destruct (from_word w' r); simpl in Hcount; lia.
Qed.

(** X3: no two results of [local_match_signs] are matched from the same
    word: the [matched_from] fields of the result list are pairwise
    distinct. *)
Theorem matched_from_distinct (text : string) :
  NoDup (map matched_from (local_match_signs text)).
Proof.
  apply NoDup_matched_from.
  - apply matched_from_is_word.
  - intros w. rewrite results_for_length. destruct (bool_decide _); lia.
Qed.

Lemma lower_char_idempotent (c : ascii) :
  Py.lower_char (Py.lower_char c) = Py.lower_char c.
Proof. destruct c as [[] [] [] [] [] [] [] []]; vm_compute; reflexivity. Qed.

Lemma lower_idempotent (s : string) : Py.lower (Py.lower s) = Py.lower s.
Proof.
  induction s as [|c s IH]; [reflexivity|].
  unfold Py.lower in *. cbn [Py.map_chars].
  f_equal; [apply lower_char_idempotent|exact IH].
Qed.

(** X4: [local_match_signs] does not see the case of its input: two texts
    with the same lowering get the same result list, and lowering a text
    beforehand changes nothing. *)
Theorem local_match_signs_ignores_case :
  (forall text1 text2,
     Py.lower text1 = Py.lower text2 ->
     local_match_signs text1 = local_match_signs text2)
  /\ (forall text, local_match_signs (Py.lower text) = local_match_signs text).
Proof.
  assert (forall text1 text2,
            Py.lower text1 = Py.lower text2 ->
            local_match_signs text1 = local_match_signs text2) as Hsame.
  { intros text1 text2 Heq.
    unfold local_match_signs, after_fingerspell, after_words, after_phrases.
    now rewrite Heq. }
  split; [exact Hsame|].
  intros text. apply Hsame, lower_idempotent.
Qed.

Lemma local_match_signs_ignores_case_witness :
  local_match_signs "THANK You, Teacher" = local_match_signs "thank you, teacher".
Proof.
  apply (proj1 local_match_signs_ignores_case).
  vm_compute. reflexivity.
Defined.

(** X5: a result of [local_match_signs] is either an entry of the table,
    copied unchanged and without letters, or a fingerspelled entry built
    from a lowered token that holds a letter; neither carries a video
    key. *)
Theorem local_match_signs_results (text : string) (r : MatchResult) :
  In r (local_match_signs text) ->
  video_url r = None /\ letter_videos r = None
  /\ ((exists k, In (k, sign r) SIGN_VOCABULARY /\ letters r = None)
      \/ (exists tok, tok ∈ tokens (Py.lower text)
                      /\ r = fingerspelled tok (letters_of tok) 0.5
                      /\ letters_of tok <> [])).
Proof.
  intros Hin.
  destruct (matched_from_is_word text r Hin) as [w Hfrom].
  destruct (result_origin text w r Hin Hfrom)
    as [([k d] & Hitem & _ & Hhit)|[[_ Hhit]|(Htok & _ & Hhit)]].
  - unfold phrase_hit in Hhit. simpl in Hhit.
    destruct (_ && _) in Hhit; [|discriminate Hhit].
    injection Hhit as <-.
    split; [reflexivity|split; [reflexivity|]].
    left. exists k. split; [exact Hitem|reflexivity].
  - unfold word_hit in Hhit.
    destruct (vocabulary_get w) as [d|] eqn:Hget.
    + injection Hhit as <-.
      split; [reflexivity|split; [reflexivity|]].
      apply vocabulary_get_In in Hget as [k' Hk'].
      left. exists k'. split; [exact Hk'|reflexivity].
    + destruct (first_with_synonym w) as [[k d]|] eqn:Hsyn;
        [|discriminate Hhit].
      injection Hhit as <-.
      split; [reflexivity|split; [reflexivity|]].
      apply first_with_synonym_In in Hsyn.
      left. exists k. split; [exact Hsyn|reflexivity].
  - apply fingerspell_hit_match in Hhit as [Hl ->].
    split; [reflexivity|split; [reflexivity|]].
    right. exists w. auto.
Qed.

Lemma local_match_signs_results_witness :
  exists r, In r (local_match_signs "wow yes")
            /\ video_url r = None /\ letter_videos r = None.
Proof.
  assert (exists r, In r (local_match_signs "wow yes")) as [r Hin]
    by (vm_compute; eexists; left; reflexivity).
  exists r. split; [exact Hin|].
  destruct (local_match_signs_results "wow yes" r Hin) as (Hv & Hl & _).
  split; assumption.
Defined.

(** ** The size of the result list *)

Section EmittedFacts.

Context {X : Type} (key : X -> string) (hit : X -> option MatchResult).

Lemma emitted_fresh (xs : list X) (seen : gset string) (x : X) :
  x ∈ emitted key hit xs seen -> key x ∉ seen.
Proof.
  revert seen. induction xs as [|y xs IH]; intros seen; simpl.
  - intros H. inversion H.
  - destruct (hit y); [case_bool_decide as Hin|]; try apply IH.
    intros [->|H]%elem_of_cons; [assumption|].
    apply IH in H. set_solver.
Qed.

Lemma emitted_keys_NoDup (xs : list X) (seen : gset string) :
  NoDup (map key (emitted key hit xs seen)).
Proof.
  revert seen. induction xs as [|y xs IH]; intros seen; simpl; [constructor|].
  destruct (hit y); [case_bool_decide as Hin|]; try apply IH.
  simpl. constructor; [|apply IH].
  intros Hy. apply list_elem_of_In, List.in_map_iff in Hy as (x & Hk & Hx).
  apply list_elem_of_In, emitted_fresh in Hx. set_solver.
Qed.

Lemma length_omap_emitted (xs : list X) (seen : gset string) :
  length (omap hit (emitted key hit xs seen))
  = length (emitted key hit xs seen).
Proof.
  revert seen. induction xs as [|y xs IH]; intros seen; simpl; [reflexivity|].
  destruct (hit y) eqn:Hy; [case_bool_decide as Hin|]; try apply IH.
  simpl. rewrite Hy. simpl. now rewrite IH.
Qed.

End EmittedFacts.

Lemma sublist_filter_all {A : Type} (p : A -> bool) (l1 l2 : list A) :
  l1 `sublist_of` l2 -> Forall (fun a => p a = true) l1 ->
  l1 `sublist_of` List.filter p l2.
Proof.
  induction 1 as [|x l1 l2 Hsub IH|x l1 l2 Hsub IH]; intros Hall; simpl.
  - constructor.
  - apply Forall_cons in Hall as [Hx Hall]. rewrite Hx.
    constructor. now apply IH.
  - destruct (p x); [apply sublist_cons|]; now apply IH.
Qed.

Lemma phrase_items_length : length phrase_items = 19%nat.
Proof. vm_compute. reflexivity. Qed.

(** X6: the result list is never longer than the number of tokens of the
    text plus the 19 keys of the table that hold a space. *)
Theorem local_match_signs_length (text : string) :
  (length (local_match_signs text)
   <= 19 + length (tokens (Py.lower text)))%nat.
Proof.
  rewrite after_fingerspell_signs, after_words_signs, after_phrases_signs.
  rewrite !length_app, !length_omap_emitted.
  set (toks := tokens (Py.lower text)).
  set (E1 := emitted fst (phrase_hit (Py.lower text)) SIGN_VOCABULARY ∅).
  set (E2 := emitted id word_hit toks (after_phrases text).2).
  set (E3 := emitted id fingerspell_hit toks (after_words text).2).
  assert (length E1 <= 19)%nat as H1.
  { rewrite <- phrase_items_length. apply sublist_length.
    apply sublist_filter_all; [apply emitted_sublist|].
    apply Forall_forall. intros item Hitem.
    apply emitted_sound in Hitem as (_ & Hs & _).
    now apply phrase_hit_is_Some in Hs as [Hsp _]. }
  assert (length (E2 ++ E3) <= length toks)%nat as H23.
  { apply submseteq_length, NoDup_submseteq.
    - apply NoDup_app. repeat split.
      + pose proof (emitted_keys_NoDup id word_hit toks (after_phrases text).2)
          as Hnd. now rewrite List.map_id in Hnd.
      + intros x Hx2 Hx3. apply emitted_fresh in Hx3. apply Hx3.
        apply after_words_elem_any. right.
        apply emitted_sound in Hx2 as (Hx & Hs & _). auto.
      + pose proof (emitted_keys_NoDup id fingerspell_hit toks
                      (after_words text).2) as Hnd.
        now rewrite List.map_id in Hnd.
    - intros x Hx.
      apply elem_of_app in Hx as [Hx|Hx];
        now apply emitted_sound in Hx as (Hx & _). }
  rewrite length_app in H23. lia.
Qed.

(** ** The replies of the remote service *)

Lemma table_words_are_keys :
  forallb (fun item => String.eqb (word item.2) item.1) SIGN_VOCABULARY = true.
Proof. vm_compute. reflexivity. Qed.

(** The [word] field of an entry is its key. *)
Lemma vocabulary_get_word (k : string) (d : SignData) :
  vocabulary_get k = Some d -> word d = k.
Proof.
  unfold vocabulary_get.
  destruct (find _ SIGN_VOCABULARY) as [[k' d']|] eqn:Hfind; [|discriminate].
  intros [= <-]. apply List.find_some in Hfind as [Hin Hk]. simpl in Hk.
  apply String.eqb_eq in Hk. subst k'.
  pose proof table_words_are_keys as Hall.
  rewrite List.forallb_forall in Hall. specialize (Hall _ Hin).
  now apply String.eqb_eq in Hall.
Qed.

Lemma enrich_match_well_shaped (m : json) :
  well_shaped m = true ->
  enrich_match m
  = inr (match vocabulary_get (reply_word m) with
         | Some d =>
             match m with
             | JObj members =>
                 Some (vocabulary_match d
                         (dict_get_default "confidence" (JFloat 0.8) members)
                         (dict_get_default "matched_from"
                            (JStr (reply_word m)) members))
             | _ => None
             end
         | None => None
         end).
Proof.
  destruct m as [| | | | | |members]; try discriminate.
  unfold well_shaped, enrich_match, reply_word, dict_get_default.
  destruct (dict_get "word" members) as [[| | | |w| |]|]; try discriminate;
    intros _; destruct (vocabulary_get _); reflexivity.
Qed.

Lemma enrich_match_ill_shaped (m : json) :
  well_shaped m = false -> exists msg, enrich_match m = inl (OtherException msg).
Proof.
  destruct m as [| | | | | |members]; try (intros _; eexists; reflexivity).
  unfold well_shaped, enrich_match, dict_get_default.
  destruct (dict_get "word" members) as [[| | | |w| |]|]; try discriminate;
    intros _; eexists; reflexivity.
Qed.

Lemma enrich_matches_well_shaped (items : list json) (acc : list MatchResult) :
  forallb well_shaped items = true ->
  exists out,
    enrich_matches items acc = inr (acc ++ out)
    /\ map (fun r => word (sign r)) out
       = List.filter is_key (map reply_word items)
    /\ Forall (fun r => letters r = None /\ video_url r = None
                        /\ letter_videos r = None) out.
Proof.
  revert acc. induction items as [|m items IH]; intros acc Hall; simpl.
  - exists []. rewrite app_nil_r. repeat split; constructor.
  - simpl in Hall. apply andb_true_iff in Hall as [Hm Hall].
    rewrite (enrich_match_well_shaped m Hm). simpl.
    unfold is_key at 1.
    destruct (vocabulary_get (reply_word m)) as [d|] eqn:Hget.
    + destruct m as [| | | | | |members]; try discriminate Hm.
      destruct (IH (acc ++ [vocabulary_match d
                       (dict_get_default "confidence" (JFloat 0.8) members)
                       (dict_get_default "matched_from"
                          (JStr (reply_word (JObj members))) members)]) Hall)
        as (out & Hout & Hwords & Hplain).
      eexists (_ :: out). rewrite Hout, <- app_assoc. split; [reflexivity|].
      rewrite bool_decide_eq_true_2 by eauto. simpl.
      rewrite (vocabulary_get_word _ _ Hget), Hwords.
      split; [reflexivity|]. constructor; auto.
    + destruct (IH acc Hall) as (out & Hout & Hwords & Hplain).
      exists out. rewrite Hout.
      rewrite bool_decide_eq_false_2 by (intros [? ?]; discriminate).
      auto.
Qed.

Lemma enrich_matches_ill_shaped (items : list json) (acc : list MatchResult) :
  forallb well_shaped items = false ->
  exists msg, enrich_matches items acc = inl (OtherException msg).
Proof.
  revert acc. induction items as [|m items IH]; intros acc Hall; simpl.
  - discriminate Hall.
  - simpl in Hall. destruct (well_shaped m) eqn:Hm; simpl in Hall.
    + rewrite (enrich_match_well_shaped m Hm). simpl. apply IH, Hall.
    + destruct (enrich_match_ill_shaped m Hm) as [msg ->]. simpl. eauto.
Qed.

(** X7: when the service replies with a JSON array, the remote matcher
    accepts it only if every element is an object whose word, when
    present, is a string.  It then returns, in the order of the reply, the
    entries of the elements whose lowered word is a key, and drops the
    others silently.  One element of another shape discards the whole
    reply, the valid elements included, with an error. *)
Theorem gemini_reply_enriched :
  forall env text reply items,
    GEMINI_API_KEY env <> "" ->
    generate_content env (prompt_for get_vocabulary_list text) = inr reply ->
    json_loads env (strip_code_fence (Py.strip reply)) = inr (JArr items) ->
    (forallb well_shaped items = true ->
     exists signs,
       (gemini_match_signs env text).2 = (Some signs, None)
       /\ map (fun r => word (sign r)) signs
          = List.filter is_key (map reply_word items)
       /\ Forall (fun r => letters r = None /\ video_url r = None
                           /\ letter_videos r = None) signs)
    /\ (forallb well_shaped items = false ->
        exists msg,
          (gemini_match_signs env text).2
          = (None, Some ("Gemini API error: " +:+ msg))).
Proof.
  intros env text reply items Hkey Hcall Hparse.
  unfold gemini_match_signs, gemini_try.
  rewrite (eqb_empty_false _ Hkey), Hcall, Hparse. simpl. split; intros Hall.
  - destruct (enrich_matches_well_shaped items [] Hall)
      as (out & -> & Hwords & Hplain).
    exists out. auto.
  - destruct (enrich_matches_ill_shaped items [] Hall) as [msg ->].
    exists msg. reflexivity.
Qed.

Lemma gemini_reply_enriched_witness :
  let env := {| GEMINI_API_KEY := "k";
                generate_content := fun _ => inr "[...]";
                json_loads := fun _ =>
                  inr (JArr [JObj [("word", JStr "Hello")];
                             JObj [("word", JStr "unicorn")];
                             JObj [("confidence", JFloat 0.9)];
                             JObj [("word", JStr "thank you");
                                   ("matched_from", JStr "cheers")]]);
                VIDEOS_DIR := NoDirectory;
                url_for := fun fn => fn |} in
  exists signs,
    (gemini_match_signs env "hello and cheers").2 = (Some signs, None)
    /\ map (fun r => word (sign r)) signs = ["hello"; "thank you"].
Proof.
  intros env.
  destruct (proj1 (gemini_reply_enriched env "hello and cheers" "[...]"
              [JObj [("word", JStr "Hello")];
               JObj [("word", JStr "unicorn")];
               JObj [("confidence", JFloat 0.9)];
               JObj [("word", JStr "thank you");
                     ("matched_from", JStr "cheers")]]
              ltac:(vm_compute; discriminate) eq_refl eq_refl) eq_refl)
    as (signs & Hres & Hwords & _).
  exists signs. split; [exact Hres|].
  rewrite Hwords. vm_compute. reflexivity.
Defined.

(** ** The code fence around a reply *)

Lemma split_on_from_nonempty (sep : ascii) (cur s : string) :
  Py.split_on_from sep cur s <> [].
Proof.
  revert cur. induction s as [|c s IH]; intros cur; simpl; [discriminate|].
  destruct (Ascii.eqb c sep); [discriminate|apply IH].
Qed.

(** Joining the pieces of a split gives the string back. *)
Lemma join_split_on_from (sep : ascii) (s cur : string) :
  Py.join (String sep EmptyString) (Py.split_on_from sep cur s) = cur +:+ s.
Proof.
  revert cur. induction s as [|c s IH]; intros cur; simpl.
  - now rewrite append_empty_r.
  - destruct (Ascii.eqb_spec c sep) as [->|Hne].
    + pose proof (split_on_from_nonempty sep "" s) as Hne.
      specialize (IH "").
      destruct (Py.split_on_from sep "" s) as [|p ps]; [contradiction|].
      cbn [Py.join]. cbn [Py.join] in IH. rewrite IH. reflexivity.
    + rewrite IH. apply snoc_append.
Qed.

(** A line without the separator is one piece; what follows the separator
    is split on its own. *)
Lemma split_on_from_line (sep : ascii) (line cur rest : string) :
  Py.has_char sep line = false ->
  Py.split_on_from sep cur (line +:+ String sep rest)
  = (cur +:+ line) :: Py.split_on_from sep "" rest.
Proof.
  revert cur. induction line as [|c line IH]; intros cur Hno.
  - rewrite append_nil_l, append_empty_r. simpl.
    now rewrite Ascii.eqb_refl.
  - simpl in Hno. apply orb_false_iff in Hno as [Hc Hline].
    rewrite append_cons. simpl. rewrite Hc, (IH _ Hline).
    now rewrite snoc_append.
Qed.

Lemma split_on_from_single (sep : ascii) (line cur : string) :
  Py.has_char sep line = false ->
  Py.split_on_from sep cur line = [cur +:+ line].
Proof.
  revert cur. induction line as [|c line IH]; intros cur Hno; simpl.
  - now rewrite append_empty_r.
  - simpl in Hno. apply orb_false_iff in Hno as [Hc Hline].
    rewrite Hc, (IH _ Hline). now rewrite snoc_append.
Qed.

(** Splitting a text whose last line is [last]. *)
Lemma split_on_from_last (sep : ascii) (body last cur : string) :
  Py.has_char sep last = false ->
  Py.split_on_from sep cur (body +:+ String sep last)
  = Py.split_on_from sep cur body ++ [last].
Proof.
  intros Hlast. revert cur. induction body as [|c body IH]; intros cur.
  - rewrite append_nil_l. simpl. rewrite Ascii.eqb_refl.
    now rewrite (split_on_from_single sep last "").
  - rewrite append_cons. simpl.
    destruct (Ascii.eqb c sep); simpl; now rewrite IH.
Qed.

Lemma startswith_append (p s t : string) :
  Py.startswith p s = true -> Py.startswith p (s +:+ t) = true.
Proof.
  revert s. induction p as [|a p IH]; intros [|b s] H; try reflexivity.
  - discriminate H.
  - rewrite append_cons. simpl in *.
    apply andb_true_iff in H as [-> H]. now apply IH.
Qed.

(** A prefix without the separator lies within the first line. *)
Lemma startswith_first_line (sep : ascii) (p first rest : string) :
  Py.has_char sep p = false ->
  Py.startswith p (first +:+ String sep rest) = true ->
  Py.startswith p first = true.
Proof.
  revert first. induction p as [|a p IH]; intros first Hno H; [reflexivity|].
  simpl in Hno. apply orb_false_iff in Hno as [Ha Hp].
  destruct first as [|b first].
  - rewrite append_nil_l in H. simpl in H.
    apply andb_true_iff in H as [H _]. congruence.
  - rewrite append_cons in H. simpl in *.
    apply andb_true_iff in H as [-> H]. now apply IH.
Qed.

(** A text that has the separator, cut at its first one and at its last
    one. *)
Lemma split_at_first (sep : ascii) (s : string) :
  Py.has_char sep s = true ->
  exists first rest,
    s = first +:+ String sep rest /\ Py.has_char sep first = false.
Proof.
  induction s as [|c s IH]; intros H; [discriminate H|].
  simpl in H. destruct (Ascii.eqb_spec c sep) as [->|Hne].
  - exists "", s. now rewrite append_nil_l.
  - destruct (IH H) as (first & rest & -> & Hfirst).
    exists (String c first), rest. rewrite append_cons. split; [reflexivity|].
    simpl. rewrite Hfirst. now apply Ascii.eqb_neq in Hne as ->.
Qed.

Lemma split_at_last (sep : ascii) (s : string) :
  Py.has_char sep s = true ->
  exists body last,
    s = body +:+ String sep last /\ Py.has_char sep last = false.
Proof.
  induction s as [|c s IH]; intros H; [discriminate H|].
  destruct (Py.has_char sep s) eqn:Hs.
  - destruct (IH eq_refl) as (body & last & -> & Hlast).
    exists (String c body), last. now rewrite append_cons.
  - simpl in H. rewrite Hs, orb_false_r in H.
    apply Ascii.eqb_eq in H as ->.
    exists "", s. now rewrite append_nil_l.
Qed.

(** X8: a reply that opens with a code fence loses its first line, the
    fence with whatever follows it on that line, and its last line,
    whatever that line is; the lines in between are kept as they are.  So
    a fenced reply of one line or of two lines becomes the empty text.
    Every fenced reply has one of these three shapes.  A reply that does
    not open with a fence is left alone. *)
Theorem code_fence_stripped :
  (forall first body last,
     Py.startswith "```" first = true ->
     Py.has_char LF first = false -> Py.has_char LF last = false ->
     strip_code_fence (first +:+ String LF (body +:+ String LF last)) = body)
  /\ (forall first last,
        Py.startswith "```" first = true ->
        Py.has_char LF first = false -> Py.has_char LF last = false ->
        strip_code_fence (first +:+ String LF last) = "")
  /\ (forall first,
        Py.startswith "```" first = true -> Py.has_char LF first = false ->
        strip_code_fence first = "")
  /\ (forall reply,
        Py.startswith "```" reply = true ->
        Py.has_char LF reply = false
        \/ (exists first last,
               reply = first +:+ String LF last
               /\ Py.startswith "```" first = true
               /\ Py.has_char LF first = false /\ Py.has_char LF last = false)
        \/ (exists first body last,
               reply = first +:+ String LF (body +:+ String LF last)
               /\ Py.startswith "```" first = true
               /\ Py.has_char LF first = false /\ Py.has_char LF last = false))
  /\ (forall reply,
        Py.startswith "```" reply = false -> strip_code_fence reply = reply).
Proof.
  split; [|split; [|split; [|split]]].
  - intros first body last Hfence Hfirst Hlast. unfold strip_code_fence.
    rewrite (startswith_append _ _ _ Hfence).
    unfold Py.split_on. rewrite split_on_from_line by assumption.
    cbn [tail]. rewrite split_on_from_last by assumption.
    rewrite List.removelast_last. apply (join_split_on_from LF body "").
  - intros first last Hfence Hfirst Hlast. unfold strip_code_fence.
    rewrite (startswith_append _ _ _ Hfence).
    unfold Py.split_on. rewrite split_on_from_line by assumption.
    cbn [tail]. now rewrite split_on_from_single.
  - intros first Hfence Hfirst. unfold strip_code_fence.
    rewrite Hfence. unfold Py.split_on.
    now rewrite split_on_from_single.
  - intros reply Hfence.
    destruct (Py.has_char LF reply) eqn:Hlf; [right|now left].
    destruct (split_at_first LF reply Hlf) as (first & rest & -> & Hfirst).
    assert (Py.startswith "```" first = true) as Hfence'
      by (now apply (startswith_first_line LF "```" first rest)).
    destruct (Py.has_char LF rest) eqn:Hrest.
    + right.
      destruct (split_at_last LF rest Hrest) as (body & last & -> & Hlast).
      now exists first, body, last.
    + left. now exists first, rest.
  - intros reply Hno. unfold strip_code_fence. now rewrite Hno.
Qed.

Lemma code_fence_stripped_witness :
  strip_code_fence
    ("```json" +:+ String LF ("[1," +:+ String LF "2]" +:+ String LF "```"))
  = "[1," +:+ String LF "2]".
Proof.
  apply (proj1 code_fence_stripped "```json" ("[1," +:+ String LF "2]") "```");
    vm_compute; reflexivity.
Defined.

(** ** Media enrichment, file by file *)

Lemma files_fold_kept (fns : list string) (m : gmap string string) (k : string) :
  is_Some (m !! k) ->
  is_Some (fold_left (fun files fn => <[Py.lower fn := fn]> files) fns m !! k).
Proof.
  revert m. induction fns as [|fn fns IH]; intros m Hm; simpl; [assumption|].
  apply IH. destruct (decide (Py.lower fn = k)) as [<-|Hne].
  - rewrite lookup_insert_eq. eauto.
  - now rewrite lookup_insert_ne.
Qed.

Lemma files_fold_lookup (fns : list string) (m : gmap string string)
    (k fn : string) :
  fold_left (fun files fn => <[Py.lower fn := fn]> files) fns m !! k = Some fn ->
  (In fn fns /\ Py.lower fn = k) \/ m !! k = Some fn.
Proof.
  revert m. induction fns as [|fn' fns IH]; intros m Hm; simpl in *; [now right|].
  apply IH in Hm as [[Hin Hk]|Hm]; [left; auto|].
  destruct (decide (Py.lower fn' = k)) as [<-|Hne].
  - rewrite lookup_insert_eq in Hm. injection Hm as <-. left. auto.
  - rewrite lookup_insert_ne in Hm by assumption. now right.
Qed.

(** A name is in the file map when some file has that name up to case; the
    file it maps to is one of those. *)
Lemma files_of_lookup (fns : list string) (k : string) :
  (forall fn, files_of fns !! k = Some fn -> In fn fns /\ Py.lower fn = k)
  /\ ((exists fn, In fn fns /\ Py.lower fn = k) -> is_Some (files_of fns !! k)).
Proof.
  unfold files_of. split.
  - intros fn Hfn. apply files_fold_lookup in Hfn as [H|H]; [assumption|].
    rewrite lookup_empty in H. discriminate H.
  - intros (fn & Hin & <-). generalize (∅ : gmap string string).
    induction fns as [|fn' fns IH]; intros m; simpl; [contradiction|].
    destruct Hin as [->|Hin]; [|now apply IH].
    apply files_fold_kept. rewrite lookup_insert_eq. eauto.
Qed.

Lemma add_video_urls_video_url (url : string -> string)
    (files : gmap string string) (r : MatchResult) :
  video_url (add_video_urls url files r)
  = match files !! video_key r with
    | Some fn => Some (url fn)
    | None => video_url r
    end.
Proof.
  unfold add_video_urls, video_key.
  destruct (files !! _); simpl;
    (destruct (String.eqb _ "fingerspelled"); [destruct (any_url _)|]);
    reflexivity.
Qed.

Lemma add_video_urls_letter_videos (url : string -> string)
    (files : gmap string string) (r : MatchResult) :
  letter_videos (add_video_urls url files r)
  = let urls :=
      map (fun ch =>
             if Py.isalpha ch
             then url <$> files !! (Py.lower (String ch EmptyString) +:+ ".mp4")
             else None)
          (default [] (letters r)) in
    if String.eqb (category (sign r)) "fingerspelled" && any_url urls
    then Some urls else letter_videos r.
Proof.
  unfold add_video_urls.
  destruct (files !! _); simpl;
    (destruct (String.eqb _ "fingerspelled"); [destruct (any_url _)|]);
    reflexivity.
Qed.

(** X9: the enrichment step keeps the results, their order and all their
    matching fields; it returns the list untouched when the video folder
    does not exist, and raises, before touching any result, when the
    folder cannot be listed, so that the handler goes on with the list as
    it was. *)
Theorem media_enrichment_keeps_matches (env : Env) (signs : list MatchResult) :
  (forall out, add_video_urls_to_signs env signs = inr out ->
               map match_fields out = map match_fields signs)
  /\ map match_fields (enriched env signs) = map match_fields signs
  /\ length (enriched env signs) = length signs
  /\ (VIDEOS_DIR env = NoDirectory -> add_video_urls_to_signs env signs = inr signs)
  /\ (forall msg, VIDEOS_DIR env = Unreadable msg ->
                  add_video_urls_to_signs env signs = inl (OtherException msg)
                  /\ enriched env signs = signs).
Proof.
  assert (map match_fields (enriched env signs) = map match_fields signs) as Hf
    by apply enriched_fields.
  repeat apply conj.
  - intros out Hout. unfold enriched in Hf. now rewrite Hout in Hf.
  - exact Hf.
  - apply (f_equal (@length _)) in Hf. now rewrite !length_map in Hf.
  - intros Hdir. unfold add_video_urls_to_signs. now rewrite Hdir.
  - intros msg Hdir. unfold enriched, add_video_urls_to_signs.
    rewrite Hdir. split; reflexivity.
Qed.

Lemma media_enrichment_keeps_matches_witness :
  let env := {| GEMINI_API_KEY := "";
                generate_content := fun _ => inl (OtherException "unused");
                json_loads := fun _ => inl "unused";
                VIDEOS_DIR := Unreadable "Permission denied";
                url_for := fun fn => "/videos/" +:+ fn |} in
  add_video_urls_to_signs env (local_match_signs "hello")
  = inl (OtherException "Permission denied")
  /\ enriched env (local_match_signs "hello") = local_match_signs "hello".
Proof.
  intros env.
  destruct (media_enrichment_keeps_matches env (local_match_signs "hello"))
    as (_ & _ & _ & _ & Hraise).
  apply (Hraise "Permission denied"). reflexivity.
Defined.

(** X10: with the video folder listed, a result gets a [video_url] exactly
    when some file of the folder is named, up to case, after the trimmed
    and lowered word followed by ".mp4"; the URL is that of such a file, and
    a result without such a file keeps the [video_url] it had. *)
Theorem video_url_attached (env : Env) (fns : list string)
    (signs out : list MatchResult) (i : nat) (r : MatchResult) :
  VIDEOS_DIR env = Listing fns ->
  add_video_urls_to_signs env signs = inr out ->
  signs !! i = Some r ->
  exists r',
    out !! i = Some r'
    /\ ((exists fn, In fn fns /\ Py.lower fn = video_key r) ->
        exists fn, In fn fns /\ Py.lower fn = video_key r
                   /\ video_url r' = Some (url_for env fn))
    /\ ((forall fn, In fn fns -> Py.lower fn <> video_key r) ->
        video_url r' = video_url r).
Proof.
  intros Hdir Hout Hi. unfold add_video_urls_to_signs in Hout.
  rewrite Hdir in Hout. injection Hout as <-.
  eexists. split; [apply (list_lookup_fmap_Some_2 _ _ _ _ Hi)|].
  rewrite add_video_urls_video_url.
  destruct (files_of_lookup fns (video_key r)) as [Hsound Hcomplete].
  split.
  - intros Hex. destruct (Hcomplete Hex) as [fn Hfn]. rewrite Hfn.
    destruct (Hsound fn Hfn) as [Hin Hk]. eauto.
  - intros Hnone. destruct (files_of fns !! video_key r) as [fn|] eqn:Hfn;
      [|reflexivity].
    destruct (Hsound fn eq_refl) as [Hin Hk]. now destruct (Hnone fn Hin).
Qed.

Lemma video_url_attached_witness :
  let env := {| GEMINI_API_KEY := "";
                generate_content := fun _ => inl (OtherException "unused");
                json_loads := fun _ => inl "unused";
                VIDEOS_DIR := Listing ["Hello.MP4"; "a.mp4"];
                url_for := fun fn => "/videos/" +:+ fn |} in
  exists r r',
    local_match_signs "hello" !! 0%nat = Some r
    /\ enriched env (local_match_signs "hello") !! 0%nat = Some r'
    /\ exists fn, In fn ["Hello.MP4"; "a.mp4"] /\ Py.lower fn = video_key r
                  /\ video_url r' = Some ("/videos/" +:+ fn).
Proof.
  intros env.
  assert (exists r, local_match_signs "hello" !! 0%nat = Some r
                    /\ video_key r = "hello.mp4") as (r & Hr & Hkey)
    by (vm_compute; eexists; split; reflexivity).
  destruct (video_url_attached env ["Hello.MP4"; "a.mp4"]
              (local_match_signs "hello")
              (enriched env (local_match_signs "hello")) 0 r
              eq_refl eq_refl Hr)
    as (r' & Hr' & Hsome & _).
  exists r, r'. split; [exact Hr|]. split; [exact Hr'|].
  apply Hsome. exists "Hello.MP4". rewrite Hkey.
  split; [now left|vm_compute; reflexivity].
Defined.

(** X11: only a fingerspelled result gets [letter_videos], and only when at
    least one of its letters has a video: the list then has one element
    per letter, in order, each either null or the URL of a file named, up
    to case, after the lowered letter followed by ".mp4". *)
Theorem letter_videos_attached (env : Env) (fns : list string)
    (signs out : list MatchResult) (i : nat) (r r' : MatchResult)
    (urls : list (option string)) :
  VIDEOS_DIR env = Listing fns ->
  add_video_urls_to_signs env signs = inr out ->
  signs !! i = Some r -> out !! i = Some r' ->
  letter_videos r = None ->
  letter_videos r' = Some urls ->
  category (sign r) = "fingerspelled"
  /\ length urls = length (default [] (letters r))
  /\ any_url urls = true
  /\ (forall j u, urls !! j = Some (Some u) ->
        exists ch fn, default [] (letters r) !! j = Some ch
                      /\ Py.isalpha ch = true
                      /\ In fn fns
                      /\ Py.lower fn = Py.lower (String ch EmptyString) +:+ ".mp4"
                      /\ u = url_for env fn).
Proof.
  intros Hdir Hout Hi Hi' Hnone Hurls. unfold add_video_urls_to_signs in Hout.
  rewrite Hdir in Hout. injection Hout as <-.
  rewrite list_lookup_fmap, Hi in Hi'. injection Hi' as <-.
  rewrite add_video_urls_letter_videos in Hurls. cbv zeta in Hurls.
  destruct (String.eqb_spec (category (sign r)) "fingerspelled") as [Hcat|Hcat];
    simpl in Hurls; [|congruence].
  destruct (any_url _) eqn:Hany; [|congruence].
  injection Hurls as <-.
  split; [assumption|]. split; [apply length_map|]. split; [assumption|].
  intros j u Hj. apply list_lookup_fmap_Some_1 in Hj as (ch & Hu & Hch).
  exists ch. destruct (Py.isalpha ch) eqn:Halpha; [|discriminate Hu].
  destruct (files_of fns !! _) as [fn|] eqn:Hfn; simpl in Hu;
    [|discriminate Hu].
  injection Hu as ->.
  destruct (proj1 (files_of_lookup fns _) fn Hfn) as [Hin Hk].
  exists fn. auto.
Qed.

Lemma letter_videos_attached_witness :
  let env := {| GEMINI_API_KEY := "";
                generate_content := fun _ => inl (OtherException "unused");
                json_loads := fun _ => inl "unused";
                VIDEOS_DIR := Listing ["X.mp4"];
                url_for := fun fn => "/videos/" +:+ fn |} in
  let r := fingerspelled "xq" ["x"; "q"]%char 0.5 in
  category (sign r) = "fingerspelled"
  /\ length [Some "/videos/X.mp4"; None] = length (default [] (letters r))
  /\ any_url [Some "/videos/X.mp4"; None] = true.
Proof.
  intros env r.
  destruct (letter_videos_attached env ["X.mp4"] [r]
              (map (add_video_urls (url_for env) (files_of ["X.mp4"])) [r])
              0 r (add_video_urls (url_for env) (files_of ["X.mp4"]) r)
              [Some "/videos/X.mp4"; None]
              eq_refl eq_refl eq_refl eq_refl eq_refl
              ltac:(vm_compute; reflexivity))
    as (Hcat & Hlen & Hany & _).
  repeat split; assumption.
Defined.

(** ** Which matcher answers *)

(** X12: every answer with status 200 carries the text that was matched: it
    is not empty, it is at most 2000 characters long, and it starts with a
    character that is not whitespace; it comes with a result list and one
    of the three methods. *)
Theorem answered_text_bounded (env : Env) (req : Request) :
  status (match_signs env req).2 = 200%nat ->
  exists text c rest signs,
    resp_text (match_signs env req).2 = Some text
    /\ text = String c rest /\ Py.isspace c = false
    /\ (String.length text <= 2000)%nat
    /\ resp_signs (match_signs env req).2 = Some signs.
Proof.
  unfold match_signs.
  destruct (is_json req); simpl; [|discriminate].
  destruct (get_json req) as [msg|[| | | | | |data]]; simpl; try discriminate.
  destruct (dict_get "text" data) as [[| | | |t| |]|]; simpl; try discriminate.
  destruct (String.eqb_spec (Py.strip t) "") as [Hs|Hs]; simpl; [discriminate|].
  intros _.
  pose proof (strip_head t) as Hhead.
  pose proof (take_length 2000 (Py.strip t)) as Hlen.
  destruct (Py.strip t) as [|c rest] eqn:Hstrip; [contradiction|].
  rewrite take_head in *.
  exists (String c (Py.take 1999 rest)), c, (Py.take 1999 rest).
  destruct (truthy (dict_get_default "force_fingerspell" _ data)); simpl.
  { eexists. repeat split; auto. }
  destruct (truthy _ && negb _); simpl.
  - destruct (gemini_match_signs env _) as [sent [[signs|] error]]; simpl;
      eexists; repeat split; auto.
  - eexists. repeat split; auto.
Qed.

Lemma answered_text_bounded_witness :
  let env := {| GEMINI_API_KEY := "";
                generate_content := fun _ => inl (OtherException "unused");
                json_loads := fun _ => inl "unused";
                VIDEOS_DIR := NoDirectory;
                url_for := fun fn => fn |} in
  exists text c rest signs,
    resp_text (match_signs env (json_request [("text", JStr "  hi  ")])).2
    = Some text
    /\ text = String c rest /\ Py.isspace c = false
    /\ (String.length text <= 2000)%nat
    /\ resp_signs (match_signs env (json_request [("text", JStr "  hi  ")])).2
       = Some signs.
Proof.
  intros env.
  apply (answered_text_bounded env (json_request [("text", JStr "  hi  ")])).
  vm_compute. reflexivity.
Defined.

Lemma enriched_nil (env : Env) : enriched env [] = [].
Proof.
  unfold enriched, add_video_urls_to_signs. destruct (VIDEOS_DIR env); reflexivity.
Qed.

(** X13: when [use_ai] is falsy in the body, or no credential is configured,
    nothing is sent to the remote service and the local matcher answers;
    when the remote matcher returns a list, that list is the answer under
    the method "gemini" and the local matcher is not consulted, even when
    the list is empty. *)
Theorem matcher_selection :
  forall env req data t,
    is_json req = true -> get_json req = inr (JObj data) ->
    dict_get "text" data = Some (JStr t) -> Py.strip t <> "" ->
    truthy (dict_get_default "force_fingerspell" (JBool false) data) = false ->
    (truthy (dict_get_default "use_ai" (JBool true) data) = false
     \/ GEMINI_API_KEY env = "" ->
     match_signs env req
     = ([], match_response
              (enriched env (local_match_signs (Py.take 2000 (Py.strip t))))
              "local" (Py.take 2000 (Py.strip t))))
    /\ (forall signs,
          truthy (dict_get_default "use_ai" (JBool true) data) = true ->
          GEMINI_API_KEY env <> "" ->
          (gemini_match_signs env (Py.take 2000 (Py.strip t))).2.1 = Some signs ->
          match_signs env req
          = ([prompt_for get_vocabulary_list (Py.take 2000 (Py.strip t))],
             match_response (enriched env signs) "gemini"
               (Py.take 2000 (Py.strip t))))
    /\ (forall reply,
          truthy (dict_get_default "use_ai" (JBool true) data) = true ->
          GEMINI_API_KEY env <> "" ->
          generate_content env
            (prompt_for get_vocabulary_list (Py.take 2000 (Py.strip t)))
          = inr reply ->
          json_loads env (strip_code_fence (Py.strip reply)) = inr (JArr []) ->
          (match_signs env req).2
          = match_response [] "gemini" (Py.take 2000 (Py.strip t))).
Proof.
  intros env req data t Hjson Hget Htext Hstrip Hforce.
  pose proof (match_signs_matching env req data t Hjson Hget Htext Hstrip Hforce)
    as Hm. cbv zeta in Hm.
  assert (forall signs,
          truthy (dict_get_default "use_ai" (JBool true) data) = true ->
          GEMINI_API_KEY env <> "" ->
          (gemini_match_signs env (Py.take 2000 (Py.strip t))).2.1 = Some signs ->
          match_signs env req
          = ([prompt_for get_vocabulary_list (Py.take 2000 (Py.strip t))],
             match_response (enriched env signs) "gemini"
               (Py.take 2000 (Py.strip t)))) as Hgem.
  { intros signs Hai Hkey Hsome.
    rewrite Hm, Hai, (eqb_empty_false _ Hkey), Hsome. simpl.
    f_equal. unfold gemini_match_signs.
    now rewrite (eqb_empty_false _ Hkey). }
  split; [|split; [exact Hgem|]].
  - intros [Hai|Hkey]; rewrite Hm.
    + now rewrite Hai.
    + rewrite Hkey. simpl. now rewrite andb_false_r.
  - intros reply Hai Hkey Hcall Hparse.
    rewrite (Hgem [] Hai Hkey).
    + simpl. now rewrite enriched_nil.
    + unfold gemini_match_signs, gemini_try.
      now rewrite (eqb_empty_false _ Hkey), Hcall, Hparse.
Qed.

Lemma matcher_selection_witness :
  let env := {| GEMINI_API_KEY := "k";
                generate_content := fun _ => inr " [] ";
                json_loads := fun _ => inr (JArr []);
                VIDEOS_DIR := NoDirectory;
                url_for := fun fn => fn |} in
  (match_signs env (json_request [("text", JStr "hello")])).2
  = match_response [] "gemini" "hello".
Proof.
  intros env.
  destruct (matcher_selection env (json_request [("text", JStr "hello")])
              [("text", JStr "hello")] "hello"
              eq_refl eq_refl eq_refl ltac:(vm_compute; discriminate) eq_refl)
    as (_ & _ & Hempty).
  apply (Hempty " [] ").
  - reflexivity.
  - vm_compute. discriminate.
  - reflexivity.
  - reflexivity.
Defined.

(** ** The vocabulary endpoints *)

Lemma insert_sorted_In (x y : string) (l : list string) :
  In x (insert_sorted y l) <-> x = y \/ In x l.
Proof.
  induction l as [|z l IH]; simpl; [intuition congruence|].
  destruct (String.eqb_spec y z) as [->|Hne]; simpl; [intuition congruence|].
  destruct (str_ltb y z); simpl; [intuition congruence|].
  rewrite IH. intuition congruence.
Qed.

Lemma sorted_set_In (x : string) (l : list string) :
  In x (sorted_set l) <-> In x l.
Proof.
  unfold sorted_set. induction l as [|y l IH]; simpl; [reflexivity|].
  rewrite insert_sorted_In, IH. intuition congruence.
Qed.

Lemma filter_nil_iff {A : Type} (p : A -> bool) (l : list A) :
  (forall a, In a l -> p a = false) -> List.filter p l = [].
Proof.
  induction l as [|a l IH]; intros Hall; simpl; [reflexivity|].
  rewrite (Hall a (or_introl eq_refl)). apply IH. intros b Hb. apply Hall. now right.
Qed.

Lemma filter_sublist {A : Type} (p : A -> bool) (l : list A) :
  List.filter p l `sublist_of` l.
Proof.
  induction l as [|a l IH]; simpl; [constructor|].
  destruct (p a); now constructor.
Qed.

Lemma get_vocabulary_filtered (c : string) :
  c <> "" ->
  get_vocabulary (Some c)
  = {| vocabulary :=
         list_to_map
           (List.filter (fun item => String.eqb (category item.2) c)
                        SIGN_VOCABULARY);
       categories :=
         sorted_set (map (fun item => category item.2) SIGN_VOCABULARY);
       count :=
         length (List.filter (fun item => String.eqb (category item.2) c)
                             SIGN_VOCABULARY) |}.
Proof.
  intros Hc. unfold get_vocabulary. now rewrite (eqb_empty_false _ Hc).
Qed.

Lemma fmap_fst_map {A B : Type} (l : list (A * B)) : l.*1 = map fst l.
Proof. reflexivity. Qed.

Lemma filter_keys_NoDup {A B : Type} (p : A * B -> bool) (l : list (A * B)) :
  NoDup (map fst l) -> NoDup (List.filter p l).*1.
Proof.
  intros Hl. rewrite fmap_fst_map.
  apply (sublist_NoDup _ (map fst l)); [exact Hl|].
  apply sublist_map, filter_sublist.
Qed.

Lemma keys_NoDup_fmap {A B : Type} (l : list (A * B)) :
  NoDup (map fst l) -> NoDup l.*1.
Proof. intros Hl. now rewrite fmap_fst_map. Qed.

Lemma filtered_keys_NoDup (p : string * SignData -> bool) :
  NoDup (List.filter p SIGN_VOCABULARY).*1.
Proof. exact (filter_keys_NoDup p SIGN_VOCABULARY table_keys_NoDup). Qed.

Lemma table_fmap_keys_NoDup : NoDup SIGN_VOCABULARY.*1.
Proof. exact (keys_NoDup_fmap SIGN_VOCABULARY table_keys_NoDup). Qed.

Lemma table_lookup (k : string) (d : SignData) :
  (list_to_map SIGN_VOCABULARY : gmap string SignData) !! k = Some d
  <-> In (k, d) SIGN_VOCABULARY.
Proof.
  rewrite <- (elem_of_list_to_map SIGN_VOCABULARY k d table_fmap_keys_NoDup).
  apply list_elem_of_In.
Qed.

(** X14: [get_vocabulary] with a category answers with exactly the entries
    of that category, each under its key, and counts them; a category that
    is not in the returned list of categories gives no entry and the count
    0; the empty category and no category both give the whole table, 119
    entries.  The list of categories is the same in every answer: the nine
    categories in ascending order, each once. *)
Theorem vocabulary_by_category :
  (forall c,
     c <> "" ->
     (forall k d, vocabulary (get_vocabulary (Some c)) !! k = Some d
                  <-> In (k, d) SIGN_VOCABULARY /\ category d = c)
     /\ count (get_vocabulary (Some c))
        = size (vocabulary (get_vocabulary (Some c)))
     /\ (~ In c (categories (get_vocabulary (Some c))) ->
         vocabulary (get_vocabulary (Some c)) = ∅
         /\ count (get_vocabulary (Some c)) = 0%nat))
  /\ get_vocabulary (Some "") = get_vocabulary None
  /\ (forall k d, vocabulary (get_vocabulary None) !! k = Some d
                  <-> In (k, d) SIGN_VOCABULARY)
  /\ count (get_vocabulary None) = size (vocabulary (get_vocabulary None))
  /\ count (get_vocabulary None) = 119%nat
  /\ (forall wanted,
        categories (get_vocabulary wanted)
        = ["actions"; "colors"; "descriptors"; "greetings"; "nouns";
           "numbers"; "phrases"; "questions"; "responses"]).
Proof.
  split; [|repeat apply conj].
  - intros c Hc. rewrite (get_vocabulary_filtered c Hc).
    cbn [vocabulary count categories]. repeat apply conj.
    + intros k d.
      rewrite <- (elem_of_list_to_map _ k d (filtered_keys_NoDup _)).
      rewrite list_elem_of_In, List.filter_In. cbn [snd].
      now rewrite String.eqb_eq.
    + symmetry. apply map_size_list_to_map, filtered_keys_NoDup.
    + intros Hnot.
      assert (List.filter (fun item => String.eqb (category item.2) c)
                SIGN_VOCABULARY = []) as ->; [|split; reflexivity].
      apply filter_nil_iff. intros [k d] Hin. cbn [snd].
      apply String.eqb_neq. intros <-. apply Hnot.
      apply sorted_set_In. apply List.in_map_iff. exists (k, d). auto.
  - reflexivity.
  - intros k d. unfold get_vocabulary. cbn [vocabulary]. apply table_lookup.
  - unfold get_vocabulary. cbn [vocabulary count].
    symmetry. apply map_size_list_to_map, table_fmap_keys_NoDup.
  - unfold get_vocabulary. cbn [count]. vm_compute. reflexivity.
  - intros [c|]; unfold get_vocabulary; [destruct (String.eqb c "")|];
      cbn [categories]; vm_compute; reflexivity.
Qed.

Lemma vocabulary_by_category_witness :
  (forall k d, vocabulary (get_vocabulary (Some "colors")) !! k = Some d
               <-> In (k, d) SIGN_VOCABULARY /\ category d = "colors")
  /\ vocabulary (get_vocabulary (Some "Colors")) = ∅.
Proof.
  split.
  - apply (proj1 vocabulary_by_category "colors"). discriminate.
  - destruct (proj1 vocabulary_by_category "Colors" ltac:(discriminate))
      as (_ & _ & Hempty).
    apply Hempty. vm_compute. intuition discriminate.
Defined.

Lemma table_keys_lowered :
  forallb (fun item => String.eqb (Py.lower item.1) item.1) SIGN_VOCABULARY = true.
Proof. vm_compute. reflexivity. Qed.

(** X15: [get_vocabulary_item] finds an entry under any spelling whose
    lowering is the key, and answers with the lowered key and the entry,
    whose word is that key; every key of the table finds its own entry;
    and a word whose lowering is no key gets the 404. *)
Theorem vocabulary_item_lookup :
  (forall k d w,
     In (k, d) SIGN_VOCABULARY -> Py.lower w = k ->
     get_vocabulary_item w = ItemFound k d)
  /\ (forall k d,
        In (k, d) SIGN_VOCABULARY -> get_vocabulary_item k = ItemFound k d)
  /\ (forall w key d,
        get_vocabulary_item w = ItemFound key d ->
        key = Py.lower w /\ In (key, d) SIGN_VOCABULARY /\ word d = key)
  /\ (forall w,
        (forall d, ~ In (Py.lower w, d) SIGN_VOCABULARY) ->
        get_vocabulary_item w = ItemNotFound "Not found"
        /\ item_status (get_vocabulary_item w) = 404%nat).
Proof.
  assert (forall k d w,
     In (k, d) SIGN_VOCABULARY -> Py.lower w = k ->
     get_vocabulary_item w = ItemFound k d) as Hfound.
  { intros k d w Hin Hw. unfold get_vocabulary_item.
    now rewrite Hw, (vocabulary_get_entry k d Hin). }
  repeat apply conj.
  - exact Hfound.
  - intros k d Hin. apply Hfound; [assumption|].
    pose proof table_keys_lowered as Hall.
    rewrite List.forallb_forall in Hall. specialize (Hall _ Hin).
    now apply String.eqb_eq in Hall.
  - intros w key d. unfold get_vocabulary_item.
    destruct (vocabulary_get (Py.lower w)) as [d'|] eqn:Hget; [|discriminate].
    intros [= <- <-]. split; [reflexivity|].
    pose proof (vocabulary_get_word _ _ Hget) as Hword.
    split; [|assumption].
    unfold vocabulary_get in Hget.
    destruct (find _ SIGN_VOCABULARY) as [[k' d'']|] eqn:Hfind;
      [|discriminate Hget].
    injection Hget as ->. apply List.find_some in Hfind as [Hin Hk].
    simpl in Hk. apply String.eqb_eq in Hk. now subst.
  - intros w Hnone. unfold get_vocabulary_item.
    destruct (vocabulary_get (Py.lower w)) as [d|] eqn:Hget;
      [|split; reflexivity].
    exfalso. unfold vocabulary_get in Hget.
    destruct (find _ SIGN_VOCABULARY) as [[k' d'']|] eqn:Hfind;
      [|discriminate Hget].
    apply List.find_some in Hfind as [Hin Hk].
    simpl in Hk. apply String.eqb_eq in Hk. subst k'.
    now destruct (Hnone d'').
Qed.

Lemma vocabulary_item_lookup_witness :
  exists d, vocabulary_get "hello" = Some d
            /\ get_vocabulary_item "HELLO" = ItemFound "hello" d.
Proof.
  eexists. split; [vm_compute; reflexivity|].
  apply (proj1 vocabulary_item_lookup).
  - vm_compute. left. reflexivity.
  - vm_compute. reflexivity.
Defined.

(** ** Security headers *)

Lemma header_get_app (name : string) (h : Headers) (n v : string) :
  header_get name (h ++ [(n, v)])
  = match header_get name h with
    | Some x => Some x
    | None => if String.eqb (Py.lower n) (Py.lower name) then Some v else None
    end.
Proof.
  unfold header_get. induction h as [|[k x] h IH]; simpl.
  - destruct (String.eqb (Py.lower n) (Py.lower name)); reflexivity.
  - destruct (String.eqb (Py.lower k) (Py.lower name)); [reflexivity|apply IH].
Qed.

Lemma setdefault_get (name value : string) (h : Headers) (other : string) :
  header_get other (setdefault name value h)
  = match header_get other h with
    | Some x => Some x
    | None =>
        if String.eqb (Py.lower name) (Py.lower other)
        then Some value else None
    end.
Proof.
  unfold setdefault. destruct (header_get name h) as [x|] eqn:Hname.
  - destruct (header_get other h) as [y|] eqn:Hother; [reflexivity|].
    destruct (String.eqb_spec (Py.lower name) (Py.lower other)) as [Heq|Hne];
      [|reflexivity].
    unfold header_get in *. rewrite Heq in Hname. congruence.
  - apply header_get_app.
Qed.

Lemma setdefault_kept (name value : string) (h : Headers) (other x : string) :
  header_get other h = Some x ->
  header_get other (setdefault name value h) = Some x.
Proof. intros H. now rewrite setdefault_get, H. Qed.

Lemma setdefault_present (name value : string) (h : Headers) :
  is_Some (header_get name (setdefault name value h)).
Proof.
  rewrite setdefault_get. destruct (header_get name h); [eauto|].
  rewrite String.eqb_refl. eauto.
Qed.

Lemma setdefault_prefix (name value : string) (h : Headers) :
  h `prefix_of` setdefault name value h.
Proof.
  unfold setdefault. destruct (header_get name h); [reflexivity|].
  now apply prefix_app_r.
Qed.

Lemma setdefault_id (name value : string) (h : Headers) :
  is_Some (header_get name h) -> setdefault name value h = h.
Proof. intros [x Hx]. unfold setdefault. now rewrite Hx. Qed.

(** X16: after [set_security_headers] the four security headers are
    present; a header the response already had, under any spelling of its
    name, keeps its value and its place, so that nothing is overwritten and
    the headers of the response are a prefix of the result; and running the
    hook twice changes nothing more. *)
Theorem security_headers_set (h : Headers) :
  (forall name, In name security_headers ->
                is_Some (header_get name (set_security_headers h)))
  /\ (forall name v, header_get name h = Some v ->
                     header_get name (set_security_headers h) = Some v)
  /\ h `prefix_of` set_security_headers h
  /\ set_security_headers (set_security_headers h) = set_security_headers h.
Proof.
  assert (forall h' name, In name security_headers ->
            is_Some (header_get name (set_security_headers h'))) as Hpresent.
  { intros h' name Hin. unfold set_security_headers.
    assert (forall n v g, is_Some (header_get name g) ->
                          is_Some (header_get name (setdefault n v g))) as Hkeep.
    { intros n v g [x Hx]. exists x. now apply setdefault_kept. }
    simpl in Hin. destruct Hin as [<-|[<-|[<-|[<-|[]]]]];
      repeat first [apply setdefault_present | apply Hkeep]. }
  repeat apply conj.
  - apply Hpresent.
  - intros name v Hv. unfold set_security_headers.
    now repeat apply setdefault_kept.
  - unfold set_security_headers.
    repeat (etransitivity; [|apply setdefault_prefix]). reflexivity.
  - unfold set_security_headers at 1.
    rewrite (setdefault_id "X-Content-Type-Options" _ (set_security_headers h))
      by (apply Hpresent; simpl; tauto).
    rewrite (setdefault_id "X-Frame-Options" _ (set_security_headers h))
      by (apply Hpresent; simpl; tauto).
    rewrite (setdefault_id "Referrer-Policy" _ (set_security_headers h))
      by (apply Hpresent; simpl; tauto).
    apply setdefault_id, Hpresent. simpl. tauto.
Qed.

Lemma security_headers_set_witness :
  header_get "X-Frame-Options"
    (set_security_headers [("x-frame-options", "SAMEORIGIN")])
  = Some "SAMEORIGIN".
Proof.
  apply (proj1 (proj2 (security_headers_set [("x-frame-options", "SAMEORIGIN")]))).
  vm_compute. reflexivity.
Defined.

(** ** The characters of tokens and letters *)

Lemma all_chars_map_chars (p : ascii -> bool) (f : ascii -> ascii) (s : string) :
  all_chars p (Py.map_chars f s) = all_chars (fun c => p (f c)) s.
Proof. induction s as [|c s IH]; simpl; [reflexivity|]. now rewrite IH. Qed.

Lemma all_chars_true (p : ascii -> bool) (s : string) :
  (forall c, p c = true) -> all_chars p s = true.
Proof.
  intros Hp. induction s as [|c s IH]; simpl; [reflexivity|].
  now rewrite Hp, IH.
Qed.

(** The runs of [p] in a string whose characters satisfy [q] whenever they
    satisfy [p] are made of characters satisfying [q]. *)
Lemma runs_from_chars (p q : ascii -> bool) (s cur : string) :
  all_chars q cur = true ->
  all_chars (fun c => negb (p c) || q c) s = true ->
  Forall (fun t => all_chars q t = true) (runs_from p cur s).
Proof.
  revert cur. induction s as [|c s IH]; intros cur Hcur Hs; simpl.
  - apply Forall_emit; auto.
  - simpl in Hs. apply andb_true_iff in Hs as [Hc Hs].
    destruct (p c) eqn:Hp; simpl in Hc.
    + apply IH; [|assumption]. now rewrite all_chars_snoc, Hcur, Hc.
    + apply Forall_emit; auto.
Qed.

Lemma separated_lowered_char (c : ascii) :
  let c' :=
    (fun c => if Ascii.eqb c "!" then " "%char else c)
      ((fun c => if Ascii.eqb c "?" then " "%char else c)
         ((fun c => if Ascii.eqb c "." then " "%char else c)
            ((fun c => if Ascii.eqb c "," then " "%char else c)
               (Py.lower_char c)))) in
  negb (negb (Py.isspace c')) || token_char c' = true.
Proof. destruct c as [[] [] [] [] [] [] [] []]; vm_compute; reflexivity. Qed.

Lemma token_normalised (text tok : string) :
  tok ∈ tokens (Py.lower text) ->
  tok <> "" /\ all_chars token_char tok = true.
Proof.
  intros Htok. split.
  - unfold tokens in Htok.
    pose proof (split_tokens
      (Py.replace "!" " " (Py.replace "?" " " (Py.replace "." " "
         (Py.replace "," " " (Py.lower text)))))) as Hall.
    rewrite Forall_forall in Hall. now apply Hall.
  - unfold tokens, Py.split in Htok. rewrite split_from_runs in Htok.
    assert (Forall (fun t => all_chars token_char t = true)
              (runs_from (fun c => negb (Py.isspace c)) ""
                 (Py.replace "!" " " (Py.replace "?" " " (Py.replace "." " "
                    (Py.replace "," " " (Py.lower text))))))) as Hall.
    { apply runs_from_chars; [reflexivity|].
      unfold Py.replace, Py.lower. rewrite !all_chars_map_chars.
      apply all_chars_true. intros c. apply (separated_lowered_char c). }
    rewrite Forall_forall in Hall. now apply Hall.
Qed.

Lemma matched_from_token (text : string) (l : list MatchResult)
    (r : MatchResult) :
  map matched_from l `sublist_of` map JStr (tokens (Py.lower text)) ->
  In r l ->
  exists w, matched_from r = JStr w /\ w ∈ tokens (Py.lower text).
Proof.
  intros Hsub Hin.
  assert (matched_from r ∈ map JStr (tokens (Py.lower text))) as Hfrom.
  { apply (sublist_subseteq _ _ Hsub), list_elem_of_In.
    now apply List.in_map. }
  apply list_elem_of_In, List.in_map_iff in Hfrom as (w & Hw & Htok).
  exists w. split; [now symmetry|now apply list_elem_of_In].
Qed.

(** X17: a token of the local matcher is not empty and holds no whitespace,
    no comma, full stop, question mark or exclamation mark, and none of the
    capital letters A to Z; and every result of the local matcher is a
    phrase match, or a word, synonym or fingerspelled result whose
    [matched_from] is such a token of the text. *)
Theorem tokens_normalised (text : string) :
  (forall tok,
     tok ∈ tokens (Py.lower text) ->
     tok <> "" /\ all_chars token_char tok = true)
  /\ (forall r,
        In r (local_match_signs text) ->
        is_phrase_match r
        \/ ((is_word_match r \/ is_fingerspell_fallback r)
            /\ exists w,
                 matched_from r = JStr w
                 /\ w ∈ tokens (Py.lower text)
                 /\ w <> "" /\ all_chars token_char w = true)).
Proof.
  split; [apply token_normalised|].
  destruct (local_match_signs_parts text)
    as (phrases & hits & spelled & -> & Hp & _ & Hh & Hhs & Hs & Hss).
  rewrite Forall_forall in Hp, Hh, Hs.
  intros r Hin.
  apply in_app_or in Hin as [Hin|Hin]; [|apply in_app_or in Hin as [Hin|Hin]].
  - left. now apply Hp, list_elem_of_In.
  - right. split; [left; now apply Hh, list_elem_of_In|].
    destruct (matched_from_token text hits r Hhs Hin) as (w & Hw & Htok).
    exists w. destruct (token_normalised text w Htok). auto.
  - right. split; [right; now apply Hs, list_elem_of_In|].
    destruct (matched_from_token text spelled r Hss Hin) as (w & Hw & Htok).
    exists w. destruct (token_normalised text w Htok). auto.
Qed.

Lemma tokens_normalised_witness :
  "o'clock" <> "" /\ all_chars token_char "o'clock" = true.
Proof.
  apply (proj1 (tokens_normalised "Ten O'Clock, please!") "o'clock").
  apply list_elem_of_In. vm_compute. tauto.
Defined.

Lemma alnum_alpha_is_ascii_letter (c : ascii) :
  Py.isalnum_ascii c = true -> Py.isalpha c = true -> ascii_letter c = true.
Proof.
  destruct c as [[] [] [] [] [] [] [] []]; vm_compute;
    first [reflexivity | discriminate | intros _; discriminate].
Qed.

Lemma chars_where_Forall (p q : ascii -> bool) (s : string) :
  all_chars q s = true ->
  Forall (fun c => q c = true /\ p c = true) (Py.chars_where p s).
Proof.
  induction s as [|c s IH]; simpl; [constructor|].
  intros [Hc Hs]%andb_true_iff.
  destruct (p c) eqn:Hp; [constructor|]; auto.
Qed.

(** X18: with [force_fingerspell] set, every entry of the answer is for a
    non-empty run of ASCII letters and digits, and its letters are ASCII
    letters, at least one: an accented letter or any other character
    outside ASCII is never spelled, it only separates words. *)
Theorem forced_fingerspelling_ascii :
  forall env req data t,
    is_json req = true -> get_json req = inr (JObj data) ->
    dict_get "text" data = Some (JStr t) -> Py.strip t <> "" ->
    truthy (dict_get_default "force_fingerspell" (JBool false) data) = true ->
    exists signs,
      resp_signs (match_signs env req).2 = Some signs
      /\ Forall (fun r =>
                   word (sign r) <> ""
                   /\ all_chars Py.isalnum_ascii (word (sign r)) = true
                   /\ exists ls, letters r = Some ls /\ ls <> []
                                 /\ Forall (fun c => ascii_letter c = true) ls)
                signs.
Proof.
  intros env req data t Hjson Hget Htext Hstrip Hforce.
  unfold match_signs.
  rewrite Hjson, Hget, Htext, (eqb_empty_false _ Hstrip), Hforce.
  cbn [snd resp_signs match_response]. eexists. split; [reflexivity|].
  set (text := Py.take 2000 (Py.strip t)).
  assert (Forall (fun fields : SignData * option (list ascii) * json * json =>
                    word fields.1.1.1 <> ""
                    /\ all_chars Py.isalnum_ascii (word fields.1.1.1) = true
                    /\ exists ls, fields.1.1.2 = Some ls /\ ls <> []
                                  /\ Forall (fun c => ascii_letter c = true) ls)
            (map match_fields
               (enriched env (fold_left force_step (fingerspell_words text) []))))
    as Hall.
  { rewrite enriched_fields, fold_force_step, fingerspell_words_runs.
    cbn [app]. rewrite List.map_map.
    apply Forall_forall. intros fields Hin.
    apply list_elem_of_In, List.in_map_iff in Hin as (w & <- & Hw).
    apply List.filter_In in Hw as [Hw Hl]. cbn [match_fields fingerspelled
      sign letters word fst snd].
    pose proof (runs_from_all Py.isalnum_ascii text "" eq_refl) as Hruns.
    rewrite Forall_forall in Hruns.
    destruct (Hruns w (proj2 (list_elem_of_In _ _) Hw)) as [Hne Halnum].
    split; [assumption|]. split; [assumption|].
    exists (letters_of w). split; [reflexivity|]. split.
    - unfold has_letter in Hl. destruct (letters_of w); [discriminate Hl|].
      discriminate.
    - unfold letters_of.
      eapply Forall_impl;
        [apply (chars_where_Forall Py.isalpha Py.isalnum_ascii w Halnum)|].
      intros c [Ha Hb]. now apply alnum_alpha_is_ascii_letter. }
  rewrite Forall_forall in Hall. apply Forall_forall. intros r Hr.
  apply (Hall (match_fields r)).
  apply list_elem_of_In, List.in_map, list_elem_of_In, Hr.
Qed.

Lemma forced_fingerspelling_ascii_witness :
  let env := {| GEMINI_API_KEY := "";
                generate_content := fun _ => inl (OtherException "unused");
                json_loads := fun _ => inl "unused";
                VIDEOS_DIR := NoDirectory;
                url_for := fun fn => fn |} in
  exists signs,
    resp_signs
      (match_signs env
         (json_request [("text", JStr "R2-D2 ok"); ("force_fingerspell", JInt 1)])).2
    = Some signs
    /\ Forall (fun r =>
                 word (sign r) <> ""
                 /\ all_chars Py.isalnum_ascii (word (sign r)) = true
                 /\ exists ls, letters r = Some ls /\ ls <> []
                               /\ Forall (fun c => ascii_letter c = true) ls)
              signs.
Proof.
  intros env.
  apply (forced_fingerspelling_ascii env
           (json_request [("text", JStr "R2-D2 ok"); ("force_fingerspell", JInt 1)])
           [("text", JStr "R2-D2 ok"); ("force_fingerspell", JInt 1)] "R2-D2 ok").
  - reflexivity.
  - reflexivity.
  - reflexivity.
  - vm_compute. discriminate.
  - reflexivity.
Defined.

(** ** The flags of the request *)

(** X19: [force_fingerspell] is read by its truth value, not as a boolean:
    absent, or one of null, false, 0, the empty string, the empty array and
    the empty object, it does not force fingerspelling; any non-empty
    string does, the string "false" included. *)
Theorem force_flag_truthiness :
  forall env req data t,
    is_json req = true -> get_json req = inr (JObj data) ->
    dict_get "text" data = Some (JStr t) -> Py.strip t <> "" ->
    (dict_get "force_fingerspell" data = None ->
     resp_method (match_signs env req).2 <> Some "fingerspell")
    /\ (forall v,
          dict_get "force_fingerspell" data = Some v ->
          In v [JNull; JBool false; JInt 0; JStr ""; JArr []; JObj []] ->
          resp_method (match_signs env req).2 <> Some "fingerspell")
    /\ (forall s,
          dict_get "force_fingerspell" data = Some (JStr s) -> s <> "" ->
          resp_method (match_signs env req).2 = Some "fingerspell"
          /\ (match_signs env req).1 = []).
Proof.
  intros env req data t Hjson Hget Htext Hstrip.
  assert (truthy (dict_get_default "force_fingerspell" (JBool false) data) = false
          -> resp_method (match_signs env req).2 <> Some "fingerspell") as Hoff.
  { intros Hforce.
    rewrite (match_signs_matching env req data t Hjson Hget Htext Hstrip Hforce).
    cbv zeta. destruct (truthy _ && negb _); [|discriminate].
    destruct ((gemini_match_signs env _).2.1); discriminate. }
  repeat apply conj.
  - intros Hnone. apply Hoff. unfold dict_get_default. now rewrite Hnone.
  - intros v Hv Hin. apply Hoff. unfold dict_get_default. rewrite Hv.
    simpl in Hin. destruct Hin as [<-|[<-|[<-|[<-|[<-|[<-|[]]]]]]]; reflexivity.
  - intros s Hs Hne. unfold match_signs.
    rewrite Hjson, Hget, Htext, (eqb_empty_false _ Hstrip).
    unfold dict_get_default. rewrite Hs. cbn [truthy].
    rewrite (eqb_empty_false _ Hne). split; reflexivity.
Qed.

Lemma force_flag_truthiness_witness :
  let env := {| GEMINI_API_KEY := "";
                generate_content := fun _ => inl (OtherException "unused");
                json_loads := fun _ => inl "unused";
                VIDEOS_DIR := NoDirectory;
                url_for := fun fn => fn |} in
  resp_method
    (match_signs env
       (json_request [("text", JStr "hello");
                      ("force_fingerspell", JStr "false")])).2
  = Some "fingerspell".
Proof.
  intros env.
  destruct (force_flag_truthiness env
              (json_request [("text", JStr "hello");
                             ("force_fingerspell", JStr "false")])
              [("text", JStr "hello"); ("force_fingerspell", JStr "false")]
              "hello" eq_refl eq_refl eq_refl ltac:(vm_compute; discriminate))
    as (_ & _ & Hon).
  apply (Hon "false"); [reflexivity|discriminate].
Defined.
